(** * gocstat: container statistics from cgroup pseudo-files

    A shallow embedding of the Go package [gocstat] and the properties
    of its parsers, its discovery walk and its read pass.

    The repository holds several revisions of the same package.  Each
    revision that a property is about is embedded in a module of its
    own, named after the file it is taken from:

    - [GoLib]: the functions of the Go standard library that the package
      calls ([strings.Split], [strings.Fields], [strconv.ParseUint],
      [strconv.Atoi], [path.Base]);
    - [BlkIO]: [src/unnamed/part_001], the block-I/O parser;
    - [BlkIO0]: [src/unnamed/part_005], the earlier block-I/O parser;
    - [Cgroups]: [src/gocstat.go] ([InitCgroups] / [ReadCgroups]);
    - [Stats]: [src/unnamed/part_002] ([Init] / [ReadStats]);
    - [Cstats]: the first file of [src/unnamed/part_003] ([Cmap],
      [ReadStats] with the removal of an entry in the loop itself).
*)

From Stdlib Require Import ZArith List Ascii String Bool Lia.
From stdpp Require Import base option gmap strings.
Import ListNotations.

Local Open Scope string_scope.
Local Open Scope Z_scope.

(* ================================================================== *)
(** * Go standard library *)
(* ================================================================== *)

Module GoLib.

(** A Go [string] is a sequence of bytes: [String.string]. *)

Definition code (c : ascii) : Z := Z.of_N (N_of_ascii c).

Definition byte (n : Z) : ascii := ascii_of_N (Z.to_N n).

Fixpoint bytes (l : list Z) : string :=
  match l with
  | [] => EmptyString
  | n :: r => String (byte n) (bytes r)
  end.

(** Line feed and the other separators used by the package. *)
Definition LF : ascii := byte 10.
Definition colon : ascii := byte 58.
Definition slash : ascii := byte 47.

(** ** [strings.Split], for the one-byte separators of the package

    [genSplit] cuts [s] at every occurrence of the separator; a string
    without separator yields the one-element slice [[s]], also when [s]
    is empty. *)
Fixpoint splitLoop (sep : ascii) (cur s : string) : list string :=
  match s with
  | EmptyString => [cur]
  | String c r =>
      if Ascii.eqb c sep then cur :: splitLoop sep EmptyString r
      else splitLoop sep (cur ++ String c EmptyString) r
  end.

Definition Split (s : string) (sep : ascii) : list string :=
  splitLoop sep EmptyString s.

(** ** [strings.Fields]

    [asciiSpace]: the table of the ASCII fast path. *)
Definition asciiSpace (c : ascii) : bool :=
  let n := code c in
  (n =? 9) || (n =? 10) || (n =? 11) || (n =? 12) || (n =? 13) || (n =? 32).

(** The UTF-8 encodings of the runes with [unicode.IsSpace] above the
    ASCII range: U+0085, U+00A0, U+1680, U+2000..U+200A, U+2028, U+2029,
    U+202F, U+205F, U+3000. *)
Definition unicodeSpaces : list string :=
  map bytes
    ([ [194; 133]; [194; 160]; [225; 154; 128] ]
     ++ map (fun k => [226; 128; 128 + Z.of_nat k]) (seq 0 11)
     ++ [ [226; 128; 168]; [226; 128; 169]; [226; 128; 175];
          [226; 129; 159]; [227; 128; 128] ]).

(** Number of bytes of the white-space rune that starts [s], [0] if [s]
    does not start with one.  A byte that is not part of such a rune,
    be it ASCII, part of another rune or invalid UTF-8 (decoded as
    U+FFFD, one byte wide), belongs to a field. *)
Definition spaceWidth (s : string) : nat :=
  match s with
  | EmptyString => O
  | String c _ =>
      if asciiSpace c then 1%nat
      else match find (fun p => String.prefix p s) unicodeSpaces with
           | Some p => String.length p
           | None => O
           end
  end.

Definition flush (cur : string) : list string :=
  match cur with
  | EmptyString => []
  | _ => [cur]
  end.

(** The scan of [FieldsFunc]: [cur] is the field being read, [skip] the
    number of bytes left of the white-space rune being skipped. *)
Fixpoint fieldsLoop (skip : nat) (cur s : string) : list string :=
  match s with
  | EmptyString => flush cur
  | String c r =>
      match skip with
      | S k => fieldsLoop k cur r
      | O =>
          match spaceWidth s with
          | O => fieldsLoop O (cur ++ String c EmptyString) r
          | S w => flush cur ++ fieldsLoop w EmptyString r
          end
      end
  end.

Definition Fields (s : string) : list string :=
  fieldsLoop O EmptyString s.

(** ** [strconv.ParseUint(s, 10, 64)] *)

Inductive NumError := ErrSyntax | ErrRange.

Definition maxUint64 : Z := 2 ^ 64 - 1.

(** The digit value of a byte, as the [switch] of [ParseUint] computes
    it: decimal digits, then letters of either case from 10. *)
Definition digitVal (c : ascii) : option Z :=
  let n := code c in
  if (48 <=? n) && (n <=? 57) then Some (n - 48)
  else
    let l := Z.lor n 32 in
    if (97 <=? l) && (l <=? 122) then Some (l - 97 + 10)
    else None.

Section ParseUint.
Variable base : Z.

(** [cutoff] is the smallest number such that [cutoff * base] exceeds
    [maxUint64]. *)
Definition cutoff : Z := maxUint64 / base + 1.

Fixpoint parseUintLoop (s : string) (n : Z) : Z * option NumError :=
  match s with
  | EmptyString => (n, None)
  | String c r =>
      match digitVal c with
      | None => (0, Some ErrSyntax)
      | Some d =>
          if base <=? d then (0, Some ErrSyntax)
          else if cutoff <=? n then (maxUint64, Some ErrRange)
          else
            let n' := (n * base) mod 2 ^ 64 in
            let n1 := (n' + d) mod 2 ^ 64 in
            if (n1 <? n') || (maxUint64 <? n1)
            then (maxUint64, Some ErrRange)
            else parseUintLoop r n1
      end
  end.
End ParseUint.

Definition ParseUint (s : string) : Z * option NumError :=
  match s with
  | EmptyString => (0, Some ErrSyntax)
  | _ => parseUintLoop 10 s 0
  end.

(** ** [strconv.Atoi] on a 64-bit platform

    [ParseInt(s, 10, 0)]: an optional sign, then [ParseUint]; a value
    out of range is clamped. *)
Definition ParseInt (s : string) : Z * option NumError :=
  match s with
  | EmptyString => (0, Some ErrSyntax)
  | String c r =>
      let neg := code c =? 45 in
      let s' := if (code c =? 43) || neg then r else s in
      match ParseUint s' with
      | (_, Some ErrSyntax) => (0, Some ErrSyntax)
      | (un, _) =>
          let cut := 2 ^ 63 in
          if negb neg && (cut <=? un) then (cut - 1, Some ErrRange)
          else if neg && (cut <? un) then (- cut, Some ErrRange)
          else (if neg then - un else un, None)
      end
  end.

(** The fast path of [Atoi] for strings shorter than 19 bytes. *)
Fixpoint atoiDigits (s : string) (n : Z) : Z * option NumError :=
  match s with
  | EmptyString => (n, None)
  | String c r =>
      let ch := (code c - 48) mod 256 in
      if 9 <? ch then (0, Some ErrSyntax)
      else atoiDigits r (n * 10 + ch)
  end.

Definition Atoi (s : string) : Z * option NumError :=
  let sLen := Z.of_nat (String.length s) in
  if (0 <? sLen) && (sLen <? 19) then
    match s with
    | EmptyString => (0, Some ErrSyntax)
    | String c r =>
        let signed := (code c =? 45) || (code c =? 43) in
        let s' := if signed then r else s in
        match s' with
        | EmptyString => (0, Some ErrSyntax)
        | _ =>
            match atoiDigits s' 0 with
            | (n, None) => (if code c =? 45 then - n else n, None)
            | bad => bad
            end
        end
    end
  else ParseInt s.

(** ** [path.Base] *)

(** Strip trailing slashes. *)
Fixpoint stripSlashes (s : string) : string :=
  match s with
  | EmptyString => EmptyString
  | String c r =>
      match stripSlashes r with
      | EmptyString => if Ascii.eqb c slash then EmptyString else String c EmptyString
      | r' => String c r'
      end
  end.

(** The part after the last slash (the whole string if there is none). *)
Fixpoint lastElem (cur s : string) : string :=
  match s with
  | EmptyString => cur
  | String c r =>
      if Ascii.eqb c slash then lastElem EmptyString r
      else lastElem (cur ++ String c EmptyString) r
  end.

Definition Base (p : string) : string :=
  match p with
  | EmptyString => "."
  | _ =>
      match lastElem EmptyString (stripSlashes p) with
      | EmptyString => "/"
      | b => b
      end
  end.

(** ** Indexing a slice: out of range is a run-time panic, [None]. *)
Definition index {A} (l : list A) (i : nat) : option A := nth_error l i.

(** [for i, x := range l] with a body that may panic. *)
Fixpoint rangeFrom {A St} (body : nat -> A -> St -> option St)
    (i : nat) (l : list A) (s : St) : option St :=
  match l with
  | [] => Some s
  | x :: r => s' ← body i x s; rangeFrom body (S i) r s'
  end.

End GoLib.

Import GoLib.

Definition nl : string := String LF EmptyString.

(** The kinds of failure of a file read or of a walk step that the
    package tells apart: [os.IsNotExist] holds of [ErrNotExist] only. *)
Inductive error :=
| ErrNotExist
| ErrPermission
| ErrIO (msg : string)
| Errorf (msg : string).

Definition IsNotExist (e : error) : bool :=
  match e with
  | ErrNotExist => true
  | _ => false
  end.

(** [ioutil.ReadFile]: the content of the file or an error. *)
Inductive readResult :=
| ReadOk (content : string)
| ReadErr (e : error).

(** How a read pass ends: it returns (a mapping or nil, an error or nil)
    or it panics on a nil pointer. *)
Inductive outcome (M : Type) :=
| Returned (stats : option M) (err : option error)
| Panicked.
Arguments Returned {M} stats err.
Arguments Panicked {M}.

(** Control after a statement of the body of the loop over the
    containers: [Fall] on to the next statement with the entry [cs] of
    the iteration, [Next] for [continue], [Stop] for [return] and for a
    panic.  Each carries the map as the statement leaves it. *)
Inductive flow (C M : Type) :=
| Fall (cs : C) (st : M)
| Next (st : M)
| Stop (o : outcome M) (st : M).
Arguments Fall {C M} cs st.
Arguments Next {C M} st.
Arguments Stop {C M} o st.

(** The entry that [filepath.Walk] hands to its callback: either a
    successful [Lstat] with its [FileInfo], or an error, with the
    [FileInfo] when the entry is a directory that could not be read. *)
Record FileInfo := { Name : string; IsDir : bool }.

Inductive visit :=
| Visit (filePath : string) (info : FileInfo)
| VisitErr (filePath : string) (info : option FileInfo) (err : error).

(* ================================================================== *)
(** * Block-I/O parser, [src/unnamed/part_001] *)
(* ================================================================== *)

Module BlkIO.

Definition blkIOIOPSFile : string := "blkio.throttle.io_serviced".
Definition blkIOBytesFile : string := "blkio.throttle.io_service_bytes".

Record BlkDevice := {
  Major : Z; Minor : Z;
  Read : Z; Write : Z; Sync : Z; Async : Z
}.

Record BlkServiced := {
  path : string;
  Timestamp : Z;
  Devices : list BlkDevice
}.

Record BlkIOStat := { Bytes : BlkServiced; IOPS : BlkServiced }.

(** [BlkDevice{}] *)
Definition zeroDevice : BlkDevice :=
  {| Major := 0; Minor := 0; Read := 0; Write := 0; Sync := 0; Async := 0 |}.

Definition zeroServiced : BlkServiced :=
  {| path := ""; Timestamp := 0; Devices := [] |}.

Definition setNumbers (b : BlkDevice) (major minor : Z) : BlkDevice :=
  {| Major := major; Minor := minor;
     Read := Read b; Write := Write b; Sync := Sync b; Async := Async b |}.

(** The [switch op] of [BlkDevice.create]. *)
Definition setCounter (b : BlkDevice) (op : string) (v : Z) : BlkDevice :=
  if String.eqb op "Read" then
    {| Major := Major b; Minor := Minor b;
       Read := v; Write := Write b; Sync := Sync b; Async := Async b |}
  else if String.eqb op "Write" then
    {| Major := Major b; Minor := Minor b;
       Read := Read b; Write := v; Sync := Sync b; Async := Async b |}
  else if String.eqb op "Sync" then
    {| Major := Major b; Minor := Minor b;
       Read := Read b; Write := Write b; Sync := v; Async := Async b |}
  else if String.eqb op "Async" then
    {| Major := Major b; Minor := Minor b;
       Read := Read b; Write := Write b; Sync := Sync b; Async := v |}
  else b.

(** One iteration of the loop of [BlkDevice.create]. *)
Definition createLine (b : BlkDevice) (line : string) : option BlkDevice :=
  let fields := Fields line in
  if negb (length fields =? 3)%nat then Some b
  else
    deviceStr ← index fields 0;
    op ← index fields 1;
    unit ← index fields 2;
    let device := Split deviceStr colon in
    b1 ← (if (1 <? length device)%nat then
            d0 ← index device 0;
            d1 ← index device 1;
            Some (setNumbers b (ParseUint d0).1 (ParseUint d1).1)
          else Some b);
    Some (setCounter b1 op (ParseUint unit).1).

Fixpoint BlkDevice_create (b : BlkDevice) (lines : list string)
  : option BlkDevice :=
  match lines with
  | [] => Some b
  | line :: rest => b' ← createLine b line; BlkDevice_create b' rest
  end.

(** The local variables of [BlkServiced.create]. *)
Record scan := {
  lastDeviceStr : string;
  tmpContent : list string;
  devs : list BlkDevice
}.

Definition scan0 : scan :=
  {| lastDeviceStr := ""; tmpContent := []; devs := [] |}.

(** One iteration of the loop of [BlkServiced.create], at index [i]. *)
Definition scanLine (i : nat) (line : string) (s : scan) : option scan :=
  let fields := Fields line in
  if negb (length fields =? 3)%nat then Some s
  else
    deviceStr ← index fields 0;
    s1 ← (if negb (String.eqb deviceStr (lastDeviceStr s)) && (0 <? i)%nat then
            bd ← BlkDevice_create zeroDevice (tmpContent s);
            Some {| lastDeviceStr := lastDeviceStr s;
                    tmpContent := [];
                    devs := devs s ++ [bd] |}
          else Some s);
    Some {| lastDeviceStr := deviceStr;
            tmpContent := tmpContent s1 ++ [line];
            devs := devs s1 |}.

Fixpoint scanLines (i : nat) (lines : list string) (s : scan) : option scan :=
  match lines with
  | [] => Some s
  | line :: rest => s' ← scanLine i line s; scanLines (S i) rest s'
  end.

(** [now] is the reading of [time.Now()]. *)
Definition BlkServiced_create (now : Z) (b : BlkServiced) (content : string)
  : option BlkServiced :=
  let lines := Split content LF in
  s ← scanLines 0 lines scan0;
  ds ← (if negb (length (tmpContent s) =? 0)%nat then
          bd ← BlkDevice_create zeroDevice (tmpContent s);
          Some (devs s ++ [bd])%list
        else Some (devs s));
  Some {| path := path b; Timestamp := now; Devices := ds |}.

End BlkIO.

(* ================================================================== *)
(** * Earlier block-I/O parser, [src/unnamed/part_005] *)
(* ================================================================== *)

Module BlkIO0.

Definition blkIOFile : string := "blkio.io_serviced".
Definition blkIOBytesFile : string := "blkio.io_service_bytes".

(** [Major] and [Minor] are signed [int]s here. *)
Record BlkDevice := {
  Major : Z; Minor : Z;
  Read : Z; Write : Z; Sync : Z; Async : Z
}.

Record BlkServiced := {
  path : string;
  Timestamp : Z;
  Devices : list BlkDevice
}.

Definition zeroDevice : BlkDevice :=
  {| Major := 0; Minor := 0; Read := 0; Write := 0; Sync := 0; Async := 0 |}.

Definition setMajor (b : BlkDevice) (major : Z) : BlkDevice :=
  {| Major := major; Minor := Minor b;
     Read := Read b; Write := Write b; Sync := Sync b; Async := Async b |}.

Definition setMinor (b : BlkDevice) (minor : Z) : BlkDevice :=
  {| Major := Major b; Minor := minor;
     Read := Read b; Write := Write b; Sync := Sync b; Async := Async b |}.

Definition setCounter (b : BlkDevice) (op : string) (v : Z) : BlkDevice :=
  if String.eqb op "Read" then
    {| Major := Major b; Minor := Minor b;
       Read := v; Write := Write b; Sync := Sync b; Async := Async b |}
  else if String.eqb op "Write" then
    {| Major := Major b; Minor := Minor b;
       Read := Read b; Write := v; Sync := Sync b; Async := Async b |}
  else if String.eqb op "Sync" then
    {| Major := Major b; Minor := Minor b;
       Read := Read b; Write := Write b; Sync := v; Async := Async b |}
  else if String.eqb op "Async" then
    {| Major := Major b; Minor := Minor b;
       Read := Read b; Write := Write b; Sync := Sync b; Async := v |}
  else b.

(** One iteration of the loop of [BlkDevice.create]: [Major] is set from
    the first part of the identifier before the test on the colon. *)
Definition createLine (b : BlkDevice) (line : string) : option BlkDevice :=
  let fields := Fields line in
  if negb (length fields =? 3)%nat then Some b
  else
    deviceStr ← index fields 0;
    op ← index fields 1;
    unit ← index fields 2;
    let device := Split deviceStr colon in
    d0 ← index device 0;
    let b0 := setMajor b (Atoi d0).1 in
    b1 ← (if (length device =? 2)%nat then
            d0 ← index device 0;
            d1 ← index device 1;
            Some (setMinor (setMajor b0 (Atoi d0).1) (Atoi d1).1)
          else Some b0);
    Some (setCounter b1 op (ParseUint unit).1).

Fixpoint createLines (b : BlkDevice) (lines : list string) : option BlkDevice :=
  match lines with
  | [] => Some b
  | line :: rest => b' ← createLine b line; createLines b' rest
  end.

Definition BlkDevice_create (b : BlkDevice) (content : string)
  : option BlkDevice :=
  createLines b (Split content LF).

(** The local variables of [BlkServiced.create]; the loop never assigns
    [lastDeviceStr]. *)
Record scan := {
  lastDeviceStr : string;
  tmpContent : string;
  devs : list BlkDevice
}.

Definition scan0 : scan :=
  {| lastDeviceStr := ""; tmpContent := ""; devs := [] |}.

Definition scanLine (line : string) (s : scan) : option scan :=
  let fields := Fields line in
  if negb (length fields =? 3)%nat then Some s
  else
    deviceStr ← index fields 0;
    if negb (String.eqb deviceStr (lastDeviceStr s)) then
      s1 ← (if negb (String.eqb (lastDeviceStr s) "") then
              bd ← BlkDevice_create zeroDevice (tmpContent s);
              Some {| lastDeviceStr := lastDeviceStr s;
                      tmpContent := tmpContent s;
                      devs := devs s ++ [bd] |}
            else Some s);
      Some {| lastDeviceStr := lastDeviceStr s1;
              tmpContent := "";
              devs := devs s1 |}
    else
      Some {| lastDeviceStr := lastDeviceStr s;
              tmpContent := tmpContent s ++ line;
              devs := devs s |}.

Fixpoint scanLines (lines : list string) (s : scan) : option scan :=
  match lines with
  | [] => Some s
  | line :: rest => s' ← scanLine line s; scanLines rest s'
  end.

Definition BlkServiced_create (now : Z) (b : BlkServiced) (content : string)
  : option BlkServiced :=
  let lines := Split content LF in
  s ← scanLines lines scan0;
  ds ← (if negb (String.eqb (tmpContent s) "") then
          bd ← BlkDevice_create zeroDevice (tmpContent s);
          Some (devs s ++ [bd])%list
        else Some (devs s));
  Some {| path := path b; Timestamp := now; Devices := ds |}.

End BlkIO0.

(* ================================================================== *)
(** * [src/gocstat.go]: [InitCgroups], [ReadCgroups] *)
(* ================================================================== *)

Module Cgroups.

Record CCPUStat := { CPU_path : string; User : Z; System : Z }.

Record CMemStat := { Mem_path : string; RSS : Z; Cache : Z }.

Record ContainerStat := { Memory : CMemStat; CPU : CCPUStat }.

(** [cg.Containers].  Every key owns the struct it points to: [walkFn]
    allocates one per key and no pointer is ever copied to another key. *)
Abbreviation Containers := (gmap string ContainerStat).

(** [&ContainerStat{}] *)
Definition zeroStat : ContainerStat :=
  {| Memory := {| Mem_path := ""; RSS := 0; Cache := 0 |};
     CPU := {| CPU_path := ""; User := 0; System := 0 |} |}.

Definition setUser (cs : ContainerStat) (v : Z) : ContainerStat :=
  {| Memory := Memory cs;
     CPU := {| CPU_path := CPU_path (CPU cs); User := v; System := System (CPU cs) |} |}.

Definition setSystem (cs : ContainerStat) (v : Z) : ContainerStat :=
  {| Memory := Memory cs;
     CPU := {| CPU_path := CPU_path (CPU cs); User := User (CPU cs); System := v |} |}.

Definition setCache (cs : ContainerStat) (v : Z) : ContainerStat :=
  {| Memory := {| Mem_path := Mem_path (Memory cs); RSS := RSS (Memory cs); Cache := v |};
     CPU := CPU cs |}.

Definition setRSS (cs : ContainerStat) (v : Z) : ContainerStat :=
  {| Memory := {| Mem_path := Mem_path (Memory cs); RSS := v; Cache := Cache (Memory cs) |};
     CPU := CPU cs |}.

Definition setMemPath (cs : ContainerStat) (p : string) : ContainerStat :=
  {| Memory := {| Mem_path := p; RSS := RSS (Memory cs); Cache := Cache (Memory cs) |};
     CPU := CPU cs |}.

Definition setCPUPath (cs : ContainerStat) (p : string) : ContainerStat :=
  {| Memory := Memory cs;
     CPU := {| CPU_path := p; User := User (CPU cs); System := System (CPU cs) |} |}.

(** The body of the loop of [createCPUStat]. *)
Definition cpuLine (i : nat) (line : string) (cs : ContainerStat)
  : option ContainerStat :=
  let fields := Fields line in
  if (length fields <? 2)%nat then Some cs
  else
    match i with
    | 0%nat => v ← index fields 1; Some (setUser cs (ParseUint v).1)
    | 1%nat => v ← index fields 1; Some (setSystem cs (ParseUint v).1)
    | _ => Some cs
    end.

Definition createCPUStat (cs : ContainerStat) (content : string)
  : option ContainerStat :=
  let lines := Split content LF in
  if (length lines <? 2)%nat then Some cs
  else rangeFrom cpuLine 0 lines cs.

(** The body of the loop of [createMemStat]. *)
Definition memLine (i : nat) (line : string) (cs : ContainerStat)
  : option ContainerStat :=
  let fields := Fields line in
  if (length fields <? 2)%nat then Some cs
  else
    match i with
    | 0%nat => v ← index fields 1; Some (setCache cs (ParseUint v).1)
    | 1%nat => v ← index fields 1; Some (setRSS cs (ParseUint v).1)
    | _ => Some cs
    end.

Definition createMemStat (cs : ContainerStat) (content : string)
  : option ContainerStat :=
  let lines := Split content LF in
  if (length lines <? 2)%nat then Some cs
  else rangeFrom memLine 0 lines cs.

Section Package.
(** The package variables: [re.FindStringSubmatch] for the compiled
    [ContainerDirRegexp], and the two file names. *)
Variable FindStringSubmatch : string -> list string.
Variable MemFile CPUFile : string.

(** The file system at the time of a read pass. *)
Variable ReadFile : string -> readResult.

(** The first [if] of the body of the loop of [ReadCgroups].  [cs] is
    the struct that the key [id] points to; [cg.Containers[id]] is the
    same pointer, the parser updates that struct in place. *)
Definition readMemory (id : string) (cs : ContainerStat) (st : Containers)
  : flow ContainerStat Containers :=
  if negb (String.eqb (Mem_path (Memory cs)) "") then
    match ReadFile (Mem_path (Memory cs)) with
    | ReadErr err =>
        if IsNotExist err then Next (delete id st)
        else Stop (Returned None (Some err)) st
    | ReadOk b =>
        match createMemStat cs b with
        | Some cs' => Fall cs' (<[id := cs']> st)
        | None => Stop Panicked st
        end
    end
  else Fall cs st.

(** The second [if]. *)
Definition readCPU (id : string) (cs : ContainerStat) (st : Containers)
  : flow ContainerStat Containers :=
  if negb (String.eqb (CPU_path (CPU cs)) "") then
    match ReadFile (CPU_path (CPU cs)) with
    | ReadErr err =>
        if IsNotExist err then Next (delete id st)
        else Stop (Returned None (Some err)) st
    | ReadOk b =>
        match createCPUStat cs b with
        | Some cs' => Fall cs' (<[id := cs']> st)
        | None => Stop Panicked st
        end
    end
  else Fall cs st.

Definition readContainer (id : string) (cs : ContainerStat) (st : Containers)
  : flow ContainerStat Containers :=
  match readMemory id cs st with
  | Fall cs1 st1 => readCPU id cs1 st1
  | other => other
  end.

(** [for id, cs := range cg.Containers], in the order [order] that the
    run time picks for the keys; a key removed before it is reached is
    not produced. *)
Fixpoint rangeContainers (order : list string) (st : Containers)
  : outcome Containers * Containers :=
  match order with
  | [] => (Returned (Some st) None, st)
  | id :: rest =>
      match st !! id with
      | None => rangeContainers rest st
      | Some cs =>
          match readContainer id cs st with
          | Fall _ st' => rangeContainers rest st'
          | Next st' => rangeContainers rest st'
          | Stop o st' => (o, st')
          end
      end
  end.

(** [ReadCgroups], on the package variable [cg] ([None] before
    [InitCgroups]); the result is the outcome and [cg] afterwards. *)
Definition ReadCgroups (order : list string) (cg : option Containers)
  : outcome Containers * option Containers :=
  match cg with
  | None => (Returned None (Some (Errorf "not initialized")), None)
  | Some st =>
      let '(o, st') := rangeContainers order st in (o, Some st')
  end.

Definition walkFn (v : visit) (st : Containers) : option error * Containers :=
  match v with
  | VisitErr _ _ err => (Some err, st)
  | Visit filePath info =>
      match FindStringSubmatch filePath with
      | _ :: id :: _ =>
          if IsDir info then
            match st !! id with
            | None => (None, <[id := zeroStat]> st)
            | Some _ => (None, st)
            end
          else
            match st !! id with
            | Some cs =>
                let cs1 :=
                  if String.eqb (Base (Name info)) MemFile
                  then setMemPath cs filePath else cs in
                let cs2 :=
                  if String.eqb (Base (Name info)) CPUFile
                  then setCPUPath cs1 filePath else cs1 in
                (None, <[id := cs2]> st)
            | None => (None, st)
            end
      | _ => (None, st)
      end
  end.

(** [filepath.Walk] with [walkFn]: [visits] are the calls that the walk
    makes as long as the callback returns nil; the first error that the
    callback returns ends the walk and is its result. *)
Fixpoint Walk (visits : list visit) (st : Containers)
  : option error * Containers :=
  match visits with
  | [] => (None, st)
  | v :: rest =>
      match walkFn v st with
      | (Some err, st') => (Some err, st')
      | (None, st') => Walk rest st'
      end
  end.

(** [err.Error()], the text of an error. *)
Variable ErrorString : error -> string.

(** [updatePaths]; [visits] is the walk of its argument.  The format
    has two verbs and the call one operand, the error: [Errorf] puts
    its text in the place of the path and [%!s(MISSING)] in its own. *)
Definition updatePaths (visits : list visit) (cg : option Containers)
  : option error * option Containers :=
  match cg with
  | None => (Some (Errorf "not initialized"), None)
  | Some st =>
      match Walk visits st with
      | (Some err, st') =>
          (Some (Errorf ("error walking path '" ++ ErrorString err
                         ++ "', err %!s(MISSING)")%string),
           Some st')
      | (None, st') => (None, Some st')
      end
  end.

End Package.

End Cgroups.

(* ================================================================== *)
(** * [src/unnamed/part_002]: [Init], [ReadStats] *)
(* ================================================================== *)

Module Stats.

Definition memFile : string := "memory.stat".
Definition cPUFile : string := "cpuacct.stat".

Record CommonFields := { path : string; Timestamp : Z }.

Record CPUStat := { CPU_CommonFields : CommonFields; User : Z; System : Z }.

Record MemStat := { Mem_CommonFields : CommonFields; RSS : Z; Cache : Z }.

Record ContainerStats := {
  Memory : MemStat;
  CPU : CPUStat;
  BlkIO : BlkIO.BlkIOStat
}.

(** [type Stats map[string]*ContainerStats]; every key owns the struct
    it points to. *)
Abbreviation Stats := (gmap string ContainerStats).

Definition zeroCommon : CommonFields := {| path := ""; Timestamp := 0 |}.

(** [&ContainerStats{}] *)
Definition zeroStats : ContainerStats :=
  {| Memory := {| Mem_CommonFields := zeroCommon; RSS := 0; Cache := 0 |};
     CPU := {| CPU_CommonFields := zeroCommon; User := 0; System := 0 |};
     BlkIO := {| BlkIO.Bytes := BlkIO.zeroServiced;
                 BlkIO.IOPS := BlkIO.zeroServiced |} |}.

Definition stamp (f : CommonFields) (now : Z) : CommonFields :=
  {| path := path f; Timestamp := now |}.

Definition setPath (f : CommonFields) (p : string) : CommonFields :=
  {| path := p; Timestamp := Timestamp f |}.

(** The body of the loop of [CPUStat.create]. *)
Definition cpuLine (i : nat) (line : string) (c : CPUStat) : option CPUStat :=
  let fields := Fields line in
  if (length fields <? 2)%nat then Some c
  else
    match i with
    | 0%nat =>
        v ← index fields 1;
        Some {| CPU_CommonFields := CPU_CommonFields c;
                User := (ParseUint v).1; System := System c |}
    | 1%nat =>
        v ← index fields 1;
        Some {| CPU_CommonFields := CPU_CommonFields c;
                User := User c; System := (ParseUint v).1 |}
    | _ => Some c
    end.

Definition CPUStat_create (now : Z) (c : CPUStat) (content : string)
  : option CPUStat :=
  let lines := Split content LF in
  if (length lines <? 2)%nat then Some c
  else
    c' ← rangeFrom cpuLine 0 lines c;
    Some {| CPU_CommonFields := stamp (CPU_CommonFields c') now;
            User := User c'; System := System c' |}.

(** The body of the loop of [MemStat.create]. *)
Definition memLine (i : nat) (line : string) (m : MemStat) : option MemStat :=
  let fields := Fields line in
  if (length fields <? 2)%nat then Some m
  else
    match i with
    | 0%nat =>
        v ← index fields 1;
        Some {| Mem_CommonFields := Mem_CommonFields m;
                RSS := RSS m; Cache := (ParseUint v).1 |}
    | 1%nat =>
        v ← index fields 1;
        Some {| Mem_CommonFields := Mem_CommonFields m;
                RSS := (ParseUint v).1; Cache := Cache m |}
    | _ => Some m
    end.

Definition MemStat_create (now : Z) (m : MemStat) (content : string)
  : option MemStat :=
  let lines := Split content LF in
  if (length lines <? 2)%nat then Some m
  else
    m' ← rangeFrom memLine 0 lines m;
    Some {| Mem_CommonFields := stamp (Mem_CommonFields m') now;
            RSS := RSS m'; Cache := Cache m' |}.

Definition setMemory (cs : ContainerStats) (m : MemStat) : ContainerStats :=
  {| Memory := m; CPU := CPU cs; BlkIO := BlkIO cs |}.

Definition setCPU (cs : ContainerStats) (c : CPUStat) : ContainerStats :=
  {| Memory := Memory cs; CPU := c; BlkIO := BlkIO cs |}.

Definition setBytes (cs : ContainerStats) (b : BlkIO.BlkServiced) : ContainerStats :=
  {| Memory := Memory cs; CPU := CPU cs;
     BlkIO := {| BlkIO.Bytes := b; BlkIO.IOPS := BlkIO.IOPS (BlkIO cs) |} |}.

Definition setIOPS (cs : ContainerStats) (b : BlkIO.BlkServiced) : ContainerStats :=
  {| Memory := Memory cs; CPU := CPU cs;
     BlkIO := {| BlkIO.Bytes := BlkIO.Bytes (BlkIO cs); BlkIO.IOPS := b |} |}.

Definition setBlkPath (b : BlkIO.BlkServiced) (p : string) : BlkIO.BlkServiced :=
  {| BlkIO.path := p; BlkIO.Timestamp := BlkIO.Timestamp b;
     BlkIO.Devices := BlkIO.Devices b |}.

Section Package.
(** [re.FindStringSubmatch] for the compiled [ContainerDirRegexp]. *)
Variable FindStringSubmatch : string -> list string.

(** The file system at the time of a read pass, and the reading of
    [time.Now()] when the content of a file is parsed. *)
Variable ReadFile : string -> readResult.
Variable Now : string -> Z.

(** [readFile]: a missing file removes the entry of [id] and yields an
    empty content without error. *)
Definition readFile (p id : string) (st : Stats)
  : (string * option error) * Stats :=
  match ReadFile p with
  | ReadErr err =>
      if IsNotExist err then (("", None), delete id st)
      else (("", Some err), st)
  | ReadOk b => ((b, None), st)
  end.

(** One [if] of the body of the loop of [ReadStats], for the metric
    whose path is [p], whose counters are parsed by [create] and
    stored by [set].  [statsHolder.stats[id]] is looked up again after
    [readFile]: on an absent key it is a nil pointer, and the selection
    of the field to parse into panics. *)
Definition readMetric {T} (p : string)
    (get : ContainerStats -> T) (set : ContainerStats -> T -> ContainerStats)
    (create : Z -> T -> string -> option T)
    (id : string) (cs : ContainerStats) (st : Stats)
  : flow ContainerStats Stats :=
  if negb (String.eqb p "") then
    match readFile p id st with
    | ((_, Some err), st1) => Stop (Returned None (Some err)) st1
    | ((b, None), st1) =>
        match st1 !! id with
        | None => Stop Panicked st1
        | Some obj =>
            match create (Now p) (get obj) b with
            | Some t' => Fall (set obj t') (<[id := set obj t']> st1)
            | None => Stop Panicked st1
            end
        end
    end
  else Fall cs st.

Definition andThen (f : flow ContainerStats Stats)
    (k : ContainerStats -> Stats -> flow ContainerStats Stats)
  : flow ContainerStats Stats :=
  match f with
  | Fall cs st => k cs st
  | other => other
  end.

Definition readContainer (id : string) (cs : ContainerStats) (st : Stats)
  : flow ContainerStats Stats :=
  andThen (readMetric (path (Mem_CommonFields (Memory cs)))
             Memory setMemory MemStat_create id cs st) (fun cs st =>
  andThen (readMetric (path (CPU_CommonFields (CPU cs)))
             CPU setCPU CPUStat_create id cs st) (fun cs st =>
  andThen (readMetric (BlkIO.path (BlkIO.Bytes (BlkIO cs)))
             (fun c => BlkIO.Bytes (BlkIO c)) setBytes
             BlkIO.BlkServiced_create id cs st) (fun cs st =>
  readMetric (BlkIO.path (BlkIO.IOPS (BlkIO cs)))
             (fun c => BlkIO.IOPS (BlkIO c)) setIOPS
             BlkIO.BlkServiced_create id cs st))).

(** [for id, cs := range statsHolder.stats], in the order [order] that
    the run time picks for the keys. *)
Fixpoint rangeStats (order : list string) (st : Stats)
  : outcome Stats * Stats :=
  match order with
  | [] => (Returned (Some st) None, st)
  | id :: rest =>
      match st !! id with
      | None => rangeStats rest st
      | Some cs =>
          match readContainer id cs st with
          | Fall _ st' => rangeStats rest st'
          | Next st' => rangeStats rest st'
          | Stop o st' => (o, st')
          end
      end
  end.

(** [ReadStats], on the package variable [statsHolder] ([None] before
    [Init]). *)
Definition ReadStats (order : list string) (statsHolder : option Stats)
  : outcome Stats * option Stats :=
  match statsHolder with
  | None => (Returned None (Some (Errorf "not initialized")), None)
  | Some st =>
      let '(o, st') := rangeStats order st in (o, Some st')
  end.

(** The [switch baseName] of [walkFn]. *)
Definition bind (cs : ContainerStats) (baseName filePath : string)
  : ContainerStats :=
  if String.eqb baseName memFile then
    setMemory cs
      {| Mem_CommonFields := setPath (Mem_CommonFields (Memory cs)) filePath;
         RSS := RSS (Memory cs); Cache := Cache (Memory cs) |}
  else if String.eqb baseName cPUFile then
    setCPU cs
      {| CPU_CommonFields := setPath (CPU_CommonFields (CPU cs)) filePath;
         User := User (CPU cs); System := System (CPU cs) |}
  else if String.eqb baseName BlkIO.blkIOIOPSFile then
    setBytes cs (setBlkPath (BlkIO.Bytes (BlkIO cs)) filePath)
  else if String.eqb baseName BlkIO.blkIOBytesFile then
    setIOPS cs (setBlkPath (BlkIO.IOPS (BlkIO cs)) filePath)
  else cs.

Definition walkFn (v : visit) (st : Stats) : option error * Stats :=
  match v with
  | VisitErr _ _ _ => (None, st)
  | Visit filePath info =>
      match FindStringSubmatch filePath with
      | _ :: id :: _ =>
          if IsDir info then
            match st !! id with
            | None => (None, <[id := zeroStats]> st)
            | Some _ => (None, st)
            end
          else
            match st !! id with
            | Some cs => (None, <[id := bind cs (Base (Name info)) filePath]> st)
            | None => (None, st)
            end
      | _ => (None, st)
      end
  end.

(** [filepath.Walk] with [walkFn], as in [Cgroups.Walk]. *)
Fixpoint Walk (visits : list visit) (st : Stats) : option error * Stats :=
  match visits with
  | [] => (None, st)
  | v :: rest =>
      match walkFn v st with
      | (Some err, st') => (Some err, st')
      | (None, st') => Walk rest st'
      end
  end.

(** [err.Error()], the text of an error. *)
Variable ErrorString : error -> string.

(** [updatePaths(path)]; [visits] is the walk of [path]. *)
Definition updatePaths (path : string) (visits : list visit) (st : Stats)
  : option error * Stats :=
  match Walk visits st with
  | (Some err, st') =>
      (Some (Errorf ("error walking path '" ++ path ++ "', err "
                     ++ ErrorString err)%string),
       st')
  | (None, st') => (None, st')
  end.

End Package.

End Stats.

(* ================================================================== *)
(** * [src/unnamed/part_003], first file: [Cmap], [ReadStats] *)
(* ================================================================== *)

Module Cstats.

Definition memFile : string := "memory.stat".
Definition cPUFile : string := "cpuacct.stat".

(** [path] and [Timestamp] are fields of each counter struct here. *)
Record CPUStat := { User : Z; System : Z; CPU_path : string; CPU_Timestamp : Z }.

Record MemStat := { RSS : Z; Cache : Z; Mem_path : string; Mem_Timestamp : Z }.

Record Cstats := {
  Memory : MemStat;
  CPU : CPUStat;
  BlkIO : BlkIO.BlkIOStat
}.

(** [type Cmap map[string]*Cstats]; every key owns the struct it points
    to. *)
Abbreviation Cmap := (gmap string Cstats).

(** [&Cstats{}] *)
Definition zeroCstats : Cstats :=
  {| Memory := {| RSS := 0; Cache := 0; Mem_path := ""; Mem_Timestamp := 0 |};
     CPU := {| User := 0; System := 0; CPU_path := ""; CPU_Timestamp := 0 |};
     BlkIO := {| BlkIO.Bytes := BlkIO.zeroServiced;
                 BlkIO.IOPS := BlkIO.zeroServiced |} |}.

(** The body of the loop of [CPUStat.create]. *)
Definition cpuLine (i : nat) (line : string) (c : CPUStat) : option CPUStat :=
  let fields := Fields line in
  if (length fields <? 2)%nat then Some c
  else
    match i with
    | 0%nat =>
        v ← index fields 1;
        Some {| User := (ParseUint v).1; System := System c;
                CPU_path := CPU_path c; CPU_Timestamp := CPU_Timestamp c |}
    | 1%nat =>
        v ← index fields 1;
        Some {| User := User c; System := (ParseUint v).1;
                CPU_path := CPU_path c; CPU_Timestamp := CPU_Timestamp c |}
    | _ => Some c
    end.

Definition CPUStat_create (now : Z) (c : CPUStat) (content : string)
  : option CPUStat :=
  let lines := Split content LF in
  if (length lines <? 2)%nat then Some c
  else
    c' ← rangeFrom cpuLine 0 lines c;
    Some {| User := User c'; System := System c';
            CPU_path := CPU_path c'; CPU_Timestamp := now |}.

(** The body of the loop of [MemStat.create]. *)
Definition memLine (i : nat) (line : string) (m : MemStat) : option MemStat :=
  let fields := Fields line in
  if (length fields <? 2)%nat then Some m
  else
    match i with
    | 0%nat =>
        v ← index fields 1;
        Some {| RSS := RSS m; Cache := (ParseUint v).1;
                Mem_path := Mem_path m; Mem_Timestamp := Mem_Timestamp m |}
    | 1%nat =>
        v ← index fields 1;
        Some {| RSS := (ParseUint v).1; Cache := Cache m;
                Mem_path := Mem_path m; Mem_Timestamp := Mem_Timestamp m |}
    | _ => Some m
    end.

Definition MemStat_create (now : Z) (m : MemStat) (content : string)
  : option MemStat :=
  let lines := Split content LF in
  if (length lines <? 2)%nat then Some m
  else
    m' ← rangeFrom memLine 0 lines m;
    Some {| RSS := RSS m'; Cache := Cache m';
            Mem_path := Mem_path m'; Mem_Timestamp := now |}.

Definition setMemory (cs : Cstats) (m : MemStat) : Cstats :=
  {| Memory := m; CPU := CPU cs; BlkIO := BlkIO cs |}.

Definition setCPU (cs : Cstats) (c : CPUStat) : Cstats :=
  {| Memory := Memory cs; CPU := c; BlkIO := BlkIO cs |}.

Definition setBytes (cs : Cstats) (b : BlkIO.BlkServiced) : Cstats :=
  {| Memory := Memory cs; CPU := CPU cs;
     BlkIO := {| BlkIO.Bytes := b; BlkIO.IOPS := BlkIO.IOPS (BlkIO cs) |} |}.

Definition setIOPS (cs : Cstats) (b : BlkIO.BlkServiced) : Cstats :=
  {| Memory := Memory cs; CPU := CPU cs;
     BlkIO := {| BlkIO.Bytes := BlkIO.Bytes (BlkIO cs); BlkIO.IOPS := b |} |}.

Definition setMemPath (m : MemStat) (p : string) : MemStat :=
  {| RSS := RSS m; Cache := Cache m; Mem_path := p;
     Mem_Timestamp := Mem_Timestamp m |}.

Definition setCPUPath (c : CPUStat) (p : string) : CPUStat :=
  {| User := User c; System := System c; CPU_path := p;
     CPU_Timestamp := CPU_Timestamp c |}.

Definition setBlkPath (b : BlkIO.BlkServiced) (p : string) : BlkIO.BlkServiced :=
  {| BlkIO.path := p; BlkIO.Timestamp := BlkIO.Timestamp b;
     BlkIO.Devices := BlkIO.Devices b |}.

Section Package.
(** [re.FindStringSubmatch] for the compiled [ContainerDirRegexp]. *)
Variable FindStringSubmatch : string -> list string.

(** The file system at the time of a read pass, and the reading of
    [time.Now()] when the content of a file is parsed. *)
Variable ReadFile : string -> readResult.
Variable Now : string -> Z.

(** [readFile] hands on what [ioutil.ReadFile] gives. *)
Definition readFile (p : string) : readResult := ReadFile p.

(** One [if] of the body of the loop of [ReadStats], for the metric
    whose path is [p], whose counters are parsed by [create] and
    stored by [set]: a missing file removes the entry of [id] and
    goes on to the next container.  [statsHolder.containers[id]] is
    looked up again for the parse. *)
Definition readMetric {T} (p : string)
    (get : Cstats -> T) (set : Cstats -> T -> Cstats)
    (create : Z -> T -> string -> option T)
    (id : string) (cs : Cstats) (st : Cmap)
  : flow Cstats Cmap :=
  if negb (String.eqb p "") then
    match readFile p with
    | ReadErr err =>
        if IsNotExist err then Next (delete id st)
        else Stop (Returned None (Some err)) st
    | ReadOk b =>
        match st !! id with
        | None => Stop Panicked st
        | Some obj =>
            match create (Now p) (get obj) b with
            | Some t' => Fall (set obj t') (<[id := set obj t']> st)
            | None => Stop Panicked st
            end
        end
    end
  else Fall cs st.

Definition andThen (f : flow Cstats Cmap)
    (k : Cstats -> Cmap -> flow Cstats Cmap)
  : flow Cstats Cmap :=
  match f with
  | Fall cs st => k cs st
  | other => other
  end.

Definition readContainer (id : string) (cs : Cstats) (st : Cmap)
  : flow Cstats Cmap :=
  andThen (readMetric (Mem_path (Memory cs))
             Memory setMemory MemStat_create id cs st) (fun cs st =>
  andThen (readMetric (CPU_path (CPU cs))
             CPU setCPU CPUStat_create id cs st) (fun cs st =>
  andThen (readMetric (BlkIO.path (BlkIO.Bytes (BlkIO cs)))
             (fun c => BlkIO.Bytes (BlkIO c)) setBytes
             BlkIO.BlkServiced_create id cs st) (fun cs st =>
  readMetric (BlkIO.path (BlkIO.IOPS (BlkIO cs)))
             (fun c => BlkIO.IOPS (BlkIO c)) setIOPS
             BlkIO.BlkServiced_create id cs st))).

(** [for id, cs := range statsHolder.containers], in the order [order]
    that the run time picks for the keys; a key removed before it is
    reached is not produced. *)
Fixpoint rangeCmap (order : list string) (st : Cmap)
  : outcome Cmap * Cmap :=
  match order with
  | [] => (Returned (Some st) None, st)
  | id :: rest =>
      match st !! id with
      | None => rangeCmap rest st
      | Some cs =>
          match readContainer id cs st with
          | Fall _ st' => rangeCmap rest st'
          | Next st' => rangeCmap rest st'
          | Stop o st' => (o, st')
          end
      end
  end.

(** [ReadStats], on the package variable [statsHolder] ([None] before
    [Init]). *)
Definition ReadStats (order : list string) (statsHolder : option Cmap)
  : outcome Cmap * option Cmap :=
  match statsHolder with
  | None => (Returned None (Some (Errorf "not initialized")), None)
  | Some st =>
      let '(o, st') := rangeCmap order st in (o, Some st')
  end.

(** The [switch baseName] of [walkFn]. *)
Definition bind (cs : Cstats) (baseName filePath : string) : Cstats :=
  if String.eqb baseName memFile then
    setMemory cs (setMemPath (Memory cs) filePath)
  else if String.eqb baseName cPUFile then
    setCPU cs (setCPUPath (CPU cs) filePath)
  else if String.eqb baseName BlkIO.blkIOIOPSFile then
    setBytes cs (setBlkPath (BlkIO.Bytes (BlkIO cs)) filePath)
  else if String.eqb baseName BlkIO.blkIOBytesFile then
    setIOPS cs (setBlkPath (BlkIO.IOPS (BlkIO cs)) filePath)
  else cs.

Definition walkFn (v : visit) (st : Cmap) : option error * Cmap :=
  match v with
  | VisitErr _ _ _ => (None, st)
  | Visit filePath info =>
      match FindStringSubmatch filePath with
      | _ :: id :: _ =>
          if IsDir info then
            match st !! id with
            | None => (None, <[id := zeroCstats]> st)
            | Some _ => (None, st)
            end
          else
            match st !! id with
            | Some cs => (None, <[id := bind cs (Base (Name info)) filePath]> st)
            | None => (None, st)
            end
      | _ => (None, st)
      end
  end.

(** [filepath.Walk] with [walkFn], as in [Cgroups.Walk]. *)
Fixpoint Walk (visits : list visit) (st : Cmap) : option error * Cmap :=
  match visits with
  | [] => (None, st)
  | v :: rest =>
      match walkFn v st with
      | (Some err, st') => (Some err, st')
      | (None, st') => Walk rest st'
      end
  end.

(** [err.Error()], the text of an error. *)
Variable ErrorString : error -> string.

(** [updatePaths(path)]; [visits] is the walk of [path]. *)
Definition updatePaths (path : string) (visits : list visit) (st : Cmap)
  : option error * Cmap :=
  match Walk visits st with
  | (Some err, st') =>
      (Some (Errorf ("error walking path '" ++ path ++ "', err "
                     ++ ErrorString err)%string),
       st')
  | (None, st') => (None, st')
  end.

End Package.

End Cstats.

(* ================================================================== *)
(** * Well-formed contents *)
(* ================================================================== *)

(** A byte of a word: neither ASCII white space nor the first byte of
    the UTF-8 encoding of another white-space rune ([C2], [E1], [E2],
    [E3]).  Every ASCII byte but the six of [asciiSpace] is one. *)
Definition wordByte (c : ascii) : bool :=
  let n := code c in
  negb (asciiSpace c)
  && negb ((n =? 194) || (n =? 225) || (n =? 226) || (n =? 227)).

Fixpoint allBytes (p : ascii -> bool) (s : string) : bool :=
  match s with
  | EmptyString => true
  | String c r => p c && allBytes p r
  end.

(** A word: a non-empty string of word bytes. *)
Definition word (w : string) : bool :=
  negb (String.eqb w "") && allBytes wordByte w.

(** A line: a string without line feed. *)
Definition isLine (l : string) : bool :=
  allBytes (fun c => negb (Ascii.eqb c LF)) l.

(** The lines of a file, joined by line feeds. *)
Fixpoint joinLines (ls : list string) : string :=
  match ls with
  | [] => ""
  | l :: r =>
      match r with
      | [] => l
      | _ => l ++ nl ++ joinLines r
      end
  end.

(** A decimal numeral that fits 64 bits, and its value. *)
Definition isDigit (c : ascii) : bool := (48 <=? code c) && (code c <=? 57).

Fixpoint decimalFrom (n : Z) (s : string) : Z :=
  match s with
  | EmptyString => n
  | String c r => decimalFrom (n * 10 + (code c - 48)) r
  end.

Definition decimalValue (s : string) : Z := decimalFrom 0 s.

Definition numeric (s : string) : bool :=
  negb (String.eqb s "") && allBytes isDigit s && (decimalValue s <=? maxUint64).

(** ** Block-I/O contents

    A row [<ident> <label> <value>]. *)
Definition row (d op v : string) : string :=
  (d ++ " " ++ op ++ " " ++ v)%string.

(** The block of one device: its identifier, the values of its four
    operation rows, and all its rows as (label, value), which are the
    four operation rows in order, with rows of other labels anywhere
    between them. *)
Record devBlock := {
  ident : string;
  vRead : string; vWrite : string; vSync : string; vAsync : string;
  rows : list (string * string)
}.

Definition recognised (op : string) : bool :=
  String.eqb op "Read" || String.eqb op "Write"
  || String.eqb op "Sync" || String.eqb op "Async".

Definition fourRows (blk : devBlock) : list (string * string) :=
  [("Read", vRead blk); ("Write", vWrite blk);
   ("Sync", vSync blk); ("Async", vAsync blk)].

Definition rowOk (r : string * string) : Prop :=
  word r.1 = true /\ word r.2 = true.

Definition blockOk (blk : devBlock) : Prop :=
  word (ident blk) = true
  /\ Forall rowOk (rows blk)
  /\ List.filter (fun r => recognised r.1) (rows blk) = fourRows blk.

Definition blockLines (blk : devBlock) : list string :=
  map (fun r => row (ident blk) r.1 r.2) (rows blk).

Definition linesOf (blocks : list devBlock) : list string :=
  concat (map blockLines blocks).

(** A line that is no row: it has not exactly three fields. *)
Definition junkLine (l : string) : bool :=
  isLine l && negb (length (Fields l) =? 3)%nat.

(** The content of a block-I/O file: the blocks of the devices, one
    after the other, then lines that are no rows (the empty line after a
    final line feed, a total). *)
Definition blkContent (blocks : list devBlock) (trailer : list string) : string :=
  joinLines (linesOf blocks ++ trailer).

(** The same with lines that are no rows before the first block. *)
Definition blkContentFrom (lead : list string) (blocks : list devBlock)
    (trailer : list string) : string :=
  joinLines (lead ++ linesOf blocks ++ trailer).

(** The numbers of an identifier [major:minor]; [(0, 0)] without colon. *)
Definition deviceNumbers (d : string) : Z * Z :=
  match Split d colon with
  | d0 :: d1 :: _ => ((ParseUint d0).1, (ParseUint d1).1)
  | _ => (0, 0)
  end.

(** The record that [BlkServiced.create] of [part_001] puts before those
    of the blocks when lines come before the first block. *)
Definition leadRecord (lead : list string) : list BlkIO.BlkDevice :=
  match lead with
  | [] => []
  | _ => [BlkIO.zeroDevice]
  end.

(** The record expected for a block. *)
Definition deviceOf (blk : devBlock) : BlkIO.BlkDevice :=
  {| BlkIO.Major := (deviceNumbers (ident blk)).1;
     BlkIO.Minor := (deviceNumbers (ident blk)).2;
     BlkIO.Read := (ParseUint (vRead blk)).1;
     BlkIO.Write := (ParseUint (vWrite blk)).1;
     BlkIO.Sync := (ParseUint (vSync blk)).1;
     BlkIO.Async := (ParseUint (vAsync blk)).1 |}.

(** ** The record of a group of lines *)

Section BlkIOSpec.

Import BlkIO.

(** The effect of the identifier [d] of a line on a record. *)
Definition withNumbers (d : string) (b : BlkDevice) : BlkDevice :=
  match Split d colon with
  | d0 :: d1 :: _ => setNumbers b (ParseUint d0).1 (ParseUint d1).1
  | _ => b
  end.

(** The counters after the rows [rs], without the numbers. *)
Definition counters (rs : list (string * string)) (b : BlkDevice) : BlkDevice :=
  fold_left (fun b r => setCounter b r.1 (ParseUint r.2).1) rs b.

End BlkIOSpec.

Definition noColon (d : string) : bool :=
  allBytes (fun c => negb (Ascii.eqb c colon)) d.

(** ** The read pass *)

(** The error of reading the file bound at [p], if [p] is bound and the
    read fails. *)
Definition readError (RF : string -> readResult) (p : string) : option error :=
  if String.eqb p "" then None
  else match RF p with
       | ReadErr e => Some e
       | ReadOk _ => None
       end.

(** The first failure among the reads of the paths [ps], in their order. *)
Fixpoint firstFailure (RF : string -> readResult) (ps : list string)
  : option error :=
  match ps with
  | [] => None
  | p :: r =>
      match readError RF p with
      | Some e => Some e
      | None => firstFailure RF r
      end
  end.

(** Some bound file among [ps] is missing. *)
Definition anyMissing (RF : string -> readResult) (ps : list string) : Prop :=
  exists p e, In p ps /\ readError RF p = Some e /\ IsNotExist e = true.

(** No read of a bound file among [ps] fails for another reason than a
    missing file. *)
Definition noOtherError (RF : string -> readResult) (ps : list string) : Prop :=
  forall p e, In p ps -> readError RF p = Some e -> IsNotExist e = true.

(** The paths of an entry, in the order in which the pass reads them. *)
Definition Cgroups_paths (cs : Cgroups.ContainerStat) : list string :=
  [Cgroups.Mem_path (Cgroups.Memory cs); Cgroups.CPU_path (Cgroups.CPU cs)].

Definition Stats_paths (cs : Stats.ContainerStats) : list string :=
  [Stats.path (Stats.Mem_CommonFields (Stats.Memory cs));
   Stats.path (Stats.CPU_CommonFields (Stats.CPU cs));
   BlkIO.path (BlkIO.Bytes (Stats.BlkIO cs));
   BlkIO.path (BlkIO.IOPS (Stats.BlkIO cs))].

(** How the map [st'] that an iteration for [id] leaves relates to the
    map [st] that it found: only the entry of [id] differs. *)
Definition onlyAt {V} (id : string) (st st' : gmap string V) : Prop :=
  forall k, k <> id -> st' !! k = st !! k.

(** [order] is an order in which [range] may produce the keys of [st]. *)
Definition iterationOrder {V} (order : list string) (st : gmap string V) : Prop :=
  NoDup order /\ forall k, In k order <-> is_Some (st !! k).

Section StatsSpec.

Import Stats.

(** What an iteration, or a part of it, leaves when it starts from the
    entry [cs] of [id] in the map [st], by the failure [fe] of its
    reads: without failure it goes on with the entry in place and its
    paths as they were; on a missing file it panics, the entry removed;
    on another failure it returns that failure. *)
Definition leaves (fe : option error) (id : string)
    (cs : ContainerStats) (st : Stats) (f : flow ContainerStats Stats) : Prop :=
  match fe with
  | None =>
      exists cs' st', f = Fall cs' st'
        /\ Stats_paths cs' = Stats_paths cs
        /\ st' !! id = Some cs' /\ onlyAt id st st'
  | Some e =>
      if IsNotExist e then
        exists st', f = Stop Panicked st'
          /\ st' !! id = None /\ onlyAt id st st'
      else
        exists st', f = Stop (Returned None (Some e)) st'
          /\ is_Some (st' !! id) /\ onlyAt id st st'
  end.

End StatsSpec.

Definition Cstats_paths (cs : Cstats.Cstats) : list string :=
  [Cstats.Mem_path (Cstats.Memory cs);
   Cstats.CPU_path (Cstats.CPU cs);
   BlkIO.path (BlkIO.Bytes (Cstats.BlkIO cs));
   BlkIO.path (BlkIO.IOPS (Cstats.BlkIO cs))].

Section CstatsSpec.

Import Cstats.

(** What an iteration of [ReadStats] of [part_003], or a part of it,
    leaves when it starts from the entry [cs] of [id] in the map [st],
    by the failure [fe] of its reads: without failure it goes on with
    the entry in place; on a missing file it goes to the next
    container, the entry removed; on another failure it returns that
    failure, the entry in place.  The paths of the entry stay. *)
Definition leavesC (fe : option error) (id : string)
    (cs : Cstats) (st : Cmap) (f : flow Cstats Cmap) : Prop :=
  match fe with
  | None =>
      exists cs' st', f = Fall cs' st'
        /\ Cstats_paths cs' = Cstats_paths cs
        /\ st' !! id = Some cs' /\ onlyAt id st st'
  | Some e =>
      if IsNotExist e then
        exists st', f = Next st'
          /\ st' !! id = None /\ onlyAt id st st'
      else
        exists st', f = Stop (Returned None (Some e)) st'
          /\ (exists c', st' !! id = Some c'
                         /\ Cstats_paths c' = Cstats_paths cs)
          /\ onlyAt id st st'
  end.

End CstatsSpec.

(** Sample states for [part_003] and [part_002]: container [a] with a
    missing memory file, container [c] with a memory file that can be
    read. *)
Definition cmapAC : gmap string Cstats.Cstats :=
  <["a" := Cstats.bind Cstats.zeroCstats "memory.stat" "/a/memory.stat"]>
    (<["c" := Cstats.bind Cstats.zeroCstats "memory.stat" "/c/memory.stat"]> ∅).

Definition statsC : gmap string Stats.ContainerStats :=
  <["c" := Stats.bind Stats.zeroStats "memory.stat" "/c/memory.stat"]> ∅.

(** ** The discovery walk *)

(** The container identifier that the pattern captures in a path:
    [matches[1]] when [len(matches) >= 2]. *)
Definition capture (FSM : string -> list string) (p : string) : option string :=
  match FSM p with
  | _ :: id :: _ => Some id
  | _ => None
  end.

(** An entry without its paths: what the walk has no business with. *)
Definition Cgroups_unbind (cs : Cgroups.ContainerStat) : Cgroups.ContainerStat :=
  Cgroups.setCPUPath (Cgroups.setMemPath cs "") "".

Definition Cstats_unbind (cs : Cstats.Cstats) : Cstats.Cstats :=
  {| Cstats.Memory := Cstats.setMemPath (Cstats.Memory cs) "";
     Cstats.CPU := Cstats.setCPUPath (Cstats.CPU cs) "";
     Cstats.BlkIO :=
       {| BlkIO.Bytes := Cstats.setBlkPath (BlkIO.Bytes (Cstats.BlkIO cs)) "";
          BlkIO.IOPS := Cstats.setBlkPath (BlkIO.IOPS (Cstats.BlkIO cs)) "" |} |}.

(** The path [p] is unbound, or it is the path of a regular file
    visited in [visits] that captures the key [k] and has the base
    name [base]. *)
Definition boundBy (FSM : string -> list string) (visits : list visit)
    (k base p : string) : Prop :=
  p = ""
  \/ exists info, In (Visit p info) visits /\ IsDir info = false
                  /\ capture FSM p = Some k /\ Base (Name info) = base.

Definition Cgroups_boundAll (FSM : string -> list string)
    (MemFile CPUFile : string) (visits : list visit)
    (k : string) (c : Cgroups.ContainerStat) : Prop :=
  boundBy FSM visits k MemFile (Cgroups.Mem_path (Cgroups.Memory c))
  /\ boundBy FSM visits k CPUFile (Cgroups.CPU_path (Cgroups.CPU c)).

Definition Cstats_boundAll (FSM : string -> list string)
    (visits : list visit) (k : string) (c : Cstats.Cstats) : Prop :=
  boundBy FSM visits k Cstats.memFile (Cstats.Mem_path (Cstats.Memory c))
  /\ boundBy FSM visits k Cstats.cPUFile (Cstats.CPU_path (Cstats.CPU c))
  /\ boundBy FSM visits k BlkIO.blkIOIOPSFile
       (BlkIO.path (BlkIO.Bytes (Cstats.BlkIO c)))
  /\ boundBy FSM visits k BlkIO.blkIOBytesFile
       (BlkIO.path (BlkIO.IOPS (Cstats.BlkIO c))).

(** ** Sample contents, maps and file systems *)

Definition sampleBlocks : list devBlock :=
  [ {| ident := "8:0";
       vRead := "11"; vWrite := "12"; vSync := "13"; vAsync := "14";
       rows := [("Read", "11"); ("Discard", "9"); ("Write", "12");
                ("Sync", "13"); ("Async", "14")] |};
    {| ident := "8:16";
       vRead := "21"; vWrite := "22"; vSync := "23"; vAsync := "24";
       rows := [("Read", "21"); ("Write", "22");
                ("Sync", "23"); ("Async", "24")] |} ].

(** Sample states of [cg.Containers] and of the file system. *)
Definition entryAt (p : string) : Cgroups.ContainerStat :=
  Cgroups.setMemPath Cgroups.zeroStat p.

Definition sampleRF (p : string) : readResult :=
  if String.eqb p "/a/memory.stat" then ReadErr ErrNotExist
  else if String.eqb p "/b/memory.stat" then ReadErr ErrPermission
  else if String.eqb p "/c/memory.stat"
       then ReadOk ("cache 100" ++ nl ++ "rss 200" ++ nl)
  else ReadErr ErrNotExist.

Definition storeAB : gmap string Cgroups.ContainerStat :=
  <["a" := entryAt "/a/memory.stat"]> (<["b" := entryAt "/b/memory.stat"]> ∅).

Definition storeAC : gmap string Cgroups.ContainerStat :=
  <["a" := entryAt "/a/memory.stat"]> (<["c" := entryAt "/c/memory.stat"]> ∅).

Definition storeCB : gmap string Cgroups.ContainerStat :=
  <["c" := entryAt "/c/memory.stat"]> (<["b" := entryAt "/b/memory.stat"]> ∅).

(** The entry of container [c] after its memory file has been parsed. *)
Definition entryCRead : Cgroups.ContainerStat :=
  {| Cgroups.Memory :=
       {| Cgroups.Mem_path := "/c/memory.stat";
          Cgroups.RSS := 200; Cgroups.Cache := 100 |};
     Cgroups.CPU := Cgroups.CPU Cgroups.zeroStat |}.

(** A map of [part_002] with one container, its memory file bound. *)
Definition statsA : gmap string Stats.ContainerStats :=
  <["a" := Stats.bind Stats.zeroStats "memory.stat" "/a/memory.stat"]> ∅.

(** A pattern that captures [a] in the paths below [/docker-a.scope]. *)
Definition sampleFSM (p : string) : list string :=
  if String.prefix "/docker-a.scope" p then [p; "a"] else [].

Definition sampleVisits : list visit :=
  [ Visit "/docker-a.scope" {| Name := "docker-a.scope"; IsDir := true |};
    Visit "/docker-a.scope/memory.stat" {| Name := "memory.stat"; IsDir := false |};
    VisitErr "/docker-b.scope" None ErrNotExist;
    Visit "/docker-a.scope/blkio.throttle.io_serviced"
      {| Name := "blkio.throttle.io_serviced"; IsDir := false |} ].

(** A container without bound file beside container [a]. *)
Definition storeAU : gmap string Cgroups.ContainerStat :=
  <["a" := entryAt "/a/memory.stat"]> (<["u" := Cgroups.zeroStat]> ∅).

(** ** Groups of rows in general *)

(** A group: an identifier and its rows as (label, value), with any
    labels, in any number and order. *)
Record group := { gIdent : string; gRows : list (string * string) }.

Definition groupOk (g : group) : Prop :=
  word (gIdent g) = true /\ Forall rowOk (gRows g) /\ gRows g <> [].

Definition groupLines (g : group) : list string :=
  map (fun r => row (gIdent g) r.1 r.2) (gRows g).

(** The value of the last row of [rs] with the label [op], [prev] when
    there is none. *)
Fixpoint lastValueFrom (prev : Z) (op : string) (rs : list (string * string)) : Z :=
  match rs with
  | [] => prev
  | r :: rest =>
      lastValueFrom (if String.eqb r.1 op then (ParseUint r.2).1 else prev) op rest
  end.

(** The record expected for a group. *)
Definition groupRecord (g : group) : BlkIO.BlkDevice :=
  {| BlkIO.Major := (deviceNumbers (gIdent g)).1;
     BlkIO.Minor := (deviceNumbers (gIdent g)).2;
     BlkIO.Read := lastValueFrom 0 "Read" (gRows g);
     BlkIO.Write := lastValueFrom 0 "Write" (gRows g);
     BlkIO.Sync := lastValueFrom 0 "Sync" (gRows g);
     BlkIO.Async := lastValueFrom 0 "Async" (gRows g) |}.

(** Neighbours in the list are different. *)
Fixpoint adjacentDiffer (ids : list string) : Prop :=
  match ids with
  | a :: r =>
      match r with
      | b :: _ => a <> b /\ adjacentDiffer r
      | [] => True
      end
  | [] => True
  end.

Definition linesOfGroups (gs : list group) : list string :=
  concat (map groupLines gs).

Definition groupsContent (groups : list group) (trailer : list string) : string :=
  joinLines (linesOfGroups groups ++ trailer).

(** ** Two-line contents *)

(** The value that a line gives a counter: that of its second field if
    it has one, the value [prev] that the counter had otherwise. *)
Definition fieldOr (prev : Z) (line : string) : Z :=
  match Fields line with
  | _ :: v :: _ => (ParseUint v).1
  | _ => prev
  end.

(** A non-empty string of decimal digits, of any length. *)
Definition allDigits (s : string) : bool :=
  negb (String.eqb s "") && allBytes isDigit s.

(** ** An entry read again *)

(** What a pass of [ReadCgroups] without other failure than missing
    files makes of an entry: the entry with the counters of its bound
    files parsed anew, or nothing when a bound file cannot be read. *)
Definition reread (RF : string -> readResult) (cs : Cgroups.ContainerStat)
  : option Cgroups.ContainerStat :=
  cs1 ← (if String.eqb (Cgroups.Mem_path (Cgroups.Memory cs)) "" then Some cs
         else match RF (Cgroups.Mem_path (Cgroups.Memory cs)) with
              | ReadOk b => Cgroups.createMemStat cs b
              | ReadErr _ => None
              end);
  if String.eqb (Cgroups.CPU_path (Cgroups.CPU cs1)) "" then Some cs1
  else match RF (Cgroups.CPU_path (Cgroups.CPU cs1)) with
       | ReadOk b => Cgroups.createCPUStat cs1 b
       | ReadErr _ => None
       end.

(** ** An entry read up to a failing read *)

(** The reads of an entry, one after the other as long as they give an
    entry: what the entry is when the first of them fails, or after
    the last. *)
Fixpoint readUpTo {C} (steps : list (C -> option C)) (cs : C) : C :=
  match steps with
  | [] => cs
  | step :: rest =>
      match step cs with
      | Some cs' => readUpTo rest cs'
      | None => cs
      end
  end.

(** The memory file of an entry of [gocstat.go] read again: the entry
    itself when no file is bound, the entry with the counters of the
    file when it can be read, nothing when it cannot. *)
Definition Cgroups_rereadMemory (RF : string -> readResult)
    (cs : Cgroups.ContainerStat) : option Cgroups.ContainerStat :=
  if String.eqb (Cgroups.Mem_path (Cgroups.Memory cs)) "" then Some cs
  else match RF (Cgroups.Mem_path (Cgroups.Memory cs)) with
       | ReadOk b => Cgroups.createMemStat cs b
       | ReadErr _ => None
       end.

Definition Cgroups_rereadCPU (RF : string -> readResult)
    (cs : Cgroups.ContainerStat) : option Cgroups.ContainerStat :=
  if String.eqb (Cgroups.CPU_path (Cgroups.CPU cs)) "" then Some cs
  else match RF (Cgroups.CPU_path (Cgroups.CPU cs)) with
       | ReadOk b => Cgroups.createCPUStat cs b
       | ReadErr _ => None
       end.

(** An entry of [gocstat.go] with the counters of its files parsed
    anew, file after file, up to the first read that fails. *)
Definition Cgroups_readUpTo (RF : string -> readResult)
  : Cgroups.ContainerStat -> Cgroups.ContainerStat :=
  readUpTo [Cgroups_rereadMemory RF; Cgroups_rereadCPU RF].

(** The same for one metric of an entry of [part_002], with the path
    [p], the parser [create] and the time [Now p] of the parse. *)
Definition Stats_rereadMetric {T} (RF : string -> readResult) (Now : string -> Z)
    (p : string) (get : Stats.ContainerStats -> T)
    (set : Stats.ContainerStats -> T -> Stats.ContainerStats)
    (create : Z -> T -> string -> option T)
    (cs : Stats.ContainerStats) : option Stats.ContainerStats :=
  if String.eqb p "" then Some cs
  else match RF p with
       | ReadOk b => t' ← create (Now p) (get cs) b; Some (set cs t')
       | ReadErr _ => None
       end.

Definition Stats_rereadMemory (RF : string -> readResult) (Now : string -> Z)
    (cs : Stats.ContainerStats) : option Stats.ContainerStats :=
  Stats_rereadMetric RF Now
    (Stats.path (Stats.Mem_CommonFields (Stats.Memory cs)))
    Stats.Memory Stats.setMemory Stats.MemStat_create cs.

Definition Stats_rereadCPU (RF : string -> readResult) (Now : string -> Z)
    (cs : Stats.ContainerStats) : option Stats.ContainerStats :=
  Stats_rereadMetric RF Now
    (Stats.path (Stats.CPU_CommonFields (Stats.CPU cs)))
    Stats.CPU Stats.setCPU Stats.CPUStat_create cs.

Definition Stats_rereadBytes (RF : string -> readResult) (Now : string -> Z)
    (cs : Stats.ContainerStats) : option Stats.ContainerStats :=
  Stats_rereadMetric RF Now
    (BlkIO.path (BlkIO.Bytes (Stats.BlkIO cs)))
    (fun c => BlkIO.Bytes (Stats.BlkIO c)) Stats.setBytes
    BlkIO.BlkServiced_create cs.

Definition Stats_rereadIOPS (RF : string -> readResult) (Now : string -> Z)
    (cs : Stats.ContainerStats) : option Stats.ContainerStats :=
  Stats_rereadMetric RF Now
    (BlkIO.path (BlkIO.IOPS (Stats.BlkIO cs)))
    (fun c => BlkIO.IOPS (Stats.BlkIO c)) Stats.setIOPS
    BlkIO.BlkServiced_create cs.

(** An entry of [part_002] with the counters and time stamps of its
    files parsed anew, file after file, up to the first read that
    fails. *)
Definition Stats_readUpTo (RF : string -> readResult) (Now : string -> Z)
  : Stats.ContainerStats -> Stats.ContainerStats :=
  readUpTo [Stats_rereadMemory RF Now; Stats_rereadCPU RF Now;
            Stats_rereadBytes RF Now; Stats_rereadIOPS RF Now].

(** What an iteration, or the rest of it, comes to when its reads have
    the first failure [fe], none of them of a missing file: without
    failure it goes on, with a failure it returns the failure; the
    entry of [id] is then [final], and only that entry differs from
    the map [st0] that the iteration found. *)
Definition reaches {C} (fe : option error) (id : string) (st0 : gmap string C)
    (f : flow C (gmap string C)) (final : C) : Prop :=
  match fe with
  | None =>
      exists st', f = Fall final st'
        /\ st' !! id = Some final /\ onlyAt id st0 st'
  | Some e =>
      IsNotExist e = false ->
      exists st', f = Stop (Returned None (Some e)) st'
        /\ st' !! id = Some final /\ onlyAt id st0 st'
  end.

(** A file system with the memory file of container [c], the memory
    file of container [d] and no right to read the CPU file of [d] or
    of [a]; the memory file of [a] is missing. *)
Definition sampleRF2 (p : string) : readResult :=
  if String.eqb p "/c/memory.stat"
  then ReadOk ("cache 100" ++ nl ++ "rss 200" ++ nl)
  else if String.eqb p "/d/memory.stat"
  then ReadOk ("cache 3" ++ nl ++ "rss 4" ++ nl)
  else if String.eqb p "/d/cpuacct.stat" then ReadErr ErrPermission
  else if String.eqb p "/a/cpuacct.stat" then ReadErr ErrPermission
  else ReadErr ErrNotExist.

Definition entryD : Cgroups.ContainerStat :=
  Cgroups.setCPUPath (entryAt "/d/memory.stat") "/d/cpuacct.stat".

(** The entry of [d] after its memory file has been parsed. *)
Definition entryDRead : Cgroups.ContainerStat :=
  {| Cgroups.Memory :=
       {| Cgroups.Mem_path := "/d/memory.stat";
          Cgroups.RSS := 4; Cgroups.Cache := 3 |};
     Cgroups.CPU := Cgroups.CPU entryD |}.

Definition storeCD : gmap string Cgroups.ContainerStat :=
  <["c" := entryAt "/c/memory.stat"]> (<["d" := entryD]> ∅).

(** Container [a] alone: its memory file missing, its CPU file not to
    be read. *)
Definition storeA : gmap string Cgroups.ContainerStat :=
  <["a" := Cgroups.setCPUPath (entryAt "/a/memory.stat") "/a/cpuacct.stat"]> ∅.

Definition statsCD : gmap string Stats.ContainerStats :=
  <["c" := Stats.bind Stats.zeroStats "memory.stat" "/c/memory.stat"]>
    (<["d" := Stats.bind
                (Stats.bind Stats.zeroStats "memory.stat" "/d/memory.stat")
                "cpuacct.stat" "/d/cpuacct.stat"]> ∅).

(* ================================================================== *)
(** * Lemmas on the library functions *)
(* ================================================================== *)

Section GoLibFacts.

(** [simpl] may unfold an append whose first argument is a constructor. *)
#[local] Arguments String.append !_ _ / : simpl nomatch.

(** *** The library functions on sample inputs *)

Example Split_lines :
  Split ("user 5" ++ nl ++ "system 7" ++ nl) LF = ["user 5"; "system 7"; ""].
Proof. reflexivity. Qed.

Example Split_empty : Split "" LF = [""].
Proof. reflexivity. Qed.

Example Fields_row_sample : Fields "  8:0   Read 42 " = ["8:0"; "Read"; "42"].
Proof. reflexivity. Qed.

Example Fields_unicode :
  Fields ("a" ++ bytes [194; 160] ++ "b" ++ bytes [226; 128; 138] ++ bytes [194])
  = ["a"; "b"; bytes [194]].
Proof. reflexivity. Qed.

Example ParseUint_max : ParseUint "18446744073709551615" = (maxUint64, None).
Proof. reflexivity. Qed.

Example ParseUint_range :
  ParseUint "18446744073709551616" = (maxUint64, Some ErrRange).
Proof. reflexivity. Qed.

Example ParseUint_syntax :
  ParseUint "12a" = (0, Some ErrSyntax) /\ ParseUint "+5" = (0, Some ErrSyntax)
  /\ ParseUint "" = (0, Some ErrSyntax).
Proof. repeat split; reflexivity. Qed.

Example Atoi_samples :
  Atoi "-12" = (-12, None) /\ Atoi "8" = (8, None)
  /\ Atoi "x" = (0, Some ErrSyntax).
Proof. repeat split; reflexivity. Qed.

Example Base_samples :
  Base "a/b/memory.stat" = "memory.stat" /\ Base "memory.stat" = "memory.stat"
  /\ Base "///" = "/" /\ Base "x//" = "x" /\ Base "" = ".".
Proof. repeat split; reflexivity. Qed.

Lemma append_nil_r (s : string) : (s ++ "")%string = s.
Proof. induction s as [|c t IH]; simpl; [reflexivity | now rewrite IH]. Qed.

Lemma append_assoc (a b c : string) :
  ((a ++ b) ++ c)%string = (a ++ (b ++ c))%string.
Proof. induction a as [|x t IH]; simpl; [reflexivity | now rewrite IH]. Qed.

Lemma append_snoc (cur : string) (c : ascii) (w : string) :
  ((cur ++ String c "") ++ w)%string = (cur ++ String c w)%string.
Proof. now rewrite append_assoc. Qed.

Lemma allBytes_app p (a b : string) :
  allBytes p (a ++ b) = allBytes p a && allBytes p b.
Proof.
  induction a as [|x t IH]; simpl; [reflexivity|].
  now rewrite IH, andb_assoc.
Qed.

(** *** [Split] *)

Lemma splitLoop_line sep cur l rest :
  allBytes (fun c => negb (Ascii.eqb c sep)) l = true ->
  splitLoop sep cur (l ++ String sep rest)
  = (cur ++ l)%string :: splitLoop sep "" rest.
Proof.
  revert cur. induction l as [|c l IH]; intros cur H; simpl in *.
  - rewrite Ascii.eqb_refl. now rewrite append_nil_r.
  - apply andb_prop in H as [Hc Hl].
    destruct (Ascii.eqb c sep); [discriminate|].
    rewrite IH by assumption. now rewrite append_snoc.
Qed.

Lemma splitLoop_last sep cur l :
  allBytes (fun c => negb (Ascii.eqb c sep)) l = true ->
  splitLoop sep cur l = [(cur ++ l)%string].
Proof.
  revert cur. induction l as [|c l IH]; intros cur H; simpl in *.
  - now rewrite append_nil_r.
  - apply andb_prop in H as [Hc Hl].
    destruct (Ascii.eqb c sep); [discriminate|].
    rewrite IH by assumption. now rewrite append_snoc.
Qed.

(** Splitting the joined lines gives the lines back. *)
Lemma Split_joinLines (ls : list string) :
  ls <> [] ->
  Forall (fun l => isLine l = true) ls ->
  Split (joinLines ls) LF = ls.
Proof.
  unfold Split. induction ls as [|l r IH]; [congruence|].
  intros _ H. inversion H as [|? ? Hl Hr]; subst.
  destruct r as [|l' r'].
  - simpl. now rewrite splitLoop_last.
  - change (joinLines (l :: l' :: r'))
      with (l ++ String LF (joinLines (l' :: r')))%string.
    rewrite splitLoop_line by exact Hl.
    simpl append. f_equal. apply IH; [congruence | assumption].
Qed.

(** *** [Fields] *)

Lemma spaceWidth_wordByte c r :
  wordByte c = true -> spaceWidth (String c r) = O.
Proof.
  destruct c as [[] [] [] [] [] [] [] []]; intros H;
    try discriminate H; reflexivity.
Qed.

Lemma fieldsLoop_word cur w rest :
  allBytes wordByte w = true ->
  fieldsLoop O cur (w ++ rest) = fieldsLoop O (cur ++ w) rest.
Proof.
  revert cur. induction w as [|c w IH]; intros cur H.
  - simpl. now rewrite append_nil_r.
  - simpl in H. apply andb_prop in H as [Hc Hw].
    change (fieldsLoop O cur (String c (w ++ rest))
            = fieldsLoop O (cur ++ String c w) rest).
    cbn [fieldsLoop]. rewrite (spaceWidth_wordByte _ _ Hc).
    rewrite IH by assumption. now rewrite append_snoc.
Qed.

Lemma fieldsLoop_blank cur rest :
  fieldsLoop O cur (String " " rest) = (flush cur ++ fieldsLoop O "" rest)%list.
Proof. reflexivity. Qed.

Lemma word_bytes w : word w = true -> allBytes wordByte w = true.
Proof. unfold word. intros H. now apply andb_prop in H as [_ H]. Qed.

Lemma word_flush w : word w = true -> flush w = [w].
Proof. destruct w; [discriminate | reflexivity]. Qed.

Lemma word_nonempty w : word w = true -> w <> "".
Proof. destruct w; [discriminate | congruence]. Qed.

(** A row of three words has exactly these three fields. *)
Lemma append_blank (x : string) : (" " ++ x)%string = String " " x.
Proof. reflexivity. Qed.

Lemma Fields_three (d op v : string) :
  word d = true -> word op = true -> word v = true ->
  Fields (d ++ " " ++ op ++ " " ++ v) = [d; op; v].
Proof.
  intros Hd Hop Hv. unfold Fields.
  rewrite !append_blank.
  rewrite (fieldsLoop_word "" d) by now apply word_bytes.
  rewrite fieldsLoop_blank. change ("" ++ d)%string with d.
  rewrite (word_flush d Hd).
  rewrite (fieldsLoop_word "" op) by now apply word_bytes.
  rewrite fieldsLoop_blank. change ("" ++ op)%string with op.
  rewrite (word_flush op Hop).
  rewrite <- (append_nil_r v) at 1.
  rewrite (fieldsLoop_word "" v) by now apply word_bytes.
  change ("" ++ v)%string with v.
  cbn [fieldsLoop]. now rewrite (word_flush v Hv).
Qed.

(** No field is empty. *)
Lemma flush_nonempty cur : Forall (fun f => f <> "") (flush cur).
Proof. destruct cur; simpl; constructor; [congruence | constructor]. Qed.

Lemma fieldsLoop_nonempty s : forall k cur,
  Forall (fun f => f <> "") (fieldsLoop k cur s).
Proof.
  induction s as [|c s IH]; intros k cur.
  - apply flush_nonempty.
  - cbn [fieldsLoop]. destruct k as [|k]; [|apply IH].
    destruct (spaceWidth (String c s)); [apply IH|].
    apply Forall_app. split; [apply flush_nonempty | apply IH].
Qed.

Lemma Fields_nonempty s : Forall (fun f => f <> "") (Fields s).
Proof. apply fieldsLoop_nonempty. Qed.

(** A word is a line, and so is a row of words. *)
Lemma wordByte_not_LF c : wordByte c = true -> negb (Ascii.eqb c LF) = true.
Proof.
  destruct c as [[] [] [] [] [] [] [] []]; intros H;
    try discriminate H; reflexivity.
Qed.

Lemma word_isLine w : allBytes wordByte w = true -> isLine w = true.
Proof.
  unfold isLine. induction w as [|c w IH]; simpl; [reflexivity|].
  intros H. apply andb_prop in H as [Hc Hw].
  now rewrite wordByte_not_LF, IH.
Qed.

(** *** [ParseUint] *)

Lemma isDigit_range c : isDigit c = true -> 48 <= code c <= 57.
Proof.
  unfold isDigit. intros H. apply andb_prop in H as [H1 H2].
  apply Z.leb_le in H1, H2. lia.
Qed.

Lemma decimalFrom_le s : forall n,
  allBytes isDigit s = true -> 0 <= n -> n <= decimalFrom n s.
Proof.
  induction s as [|c s IH]; intros n H Hn; simpl in *; [lia|].
  apply andb_prop in H as [Hc Hs].
  apply isDigit_range in Hc.
  specialize (IH (n * 10 + (code c - 48)) Hs). lia.
Qed.

Lemma digitVal_digit c : isDigit c = true -> digitVal c = Some (code c - 48).
Proof. unfold isDigit, digitVal. now intros ->. Qed.

Lemma parseUintLoop_numeric s : forall n,
  allBytes isDigit s = true -> 0 <= n -> decimalFrom n s <= maxUint64 ->
  parseUintLoop 10 s n = (decimalFrom n s, None).
Proof.
  induction s as [|c s IH]; intros n H Hn Hmax; simpl in *; [reflexivity|].
  apply andb_prop in H as [Hc Hs].
  rewrite (digitVal_digit _ Hc).
  apply isDigit_range in Hc.
  assert (Hle : n * 10 + (code c - 48) <= decimalFrom (n * 10 + (code c - 48)) s)
    by (apply decimalFrom_le; [assumption | lia]).
  unfold cutoff, maxUint64 in *.
  change (2 ^ 64) with 18446744073709551616 in *.
  change ((18446744073709551616 - 1) / 10 + 1) with 1844674407370955162.
  destruct (Z.leb_spec 10 (code c - 48)); [lia|].
  destruct (Z.leb_spec 1844674407370955162 n); [lia|].
  rewrite (Z.mod_small (n * 10)) by lia.
  rewrite (Z.mod_small (n * 10 + (code c - 48))) by lia.
  destruct (Z.ltb_spec (n * 10 + (code c - 48)) (n * 10)); [lia|].
  destruct (Z.ltb_spec (18446744073709551616 - 1) (n * 10 + (code c - 48))); [lia|].
  simpl. apply IH; [assumption | lia | lia].
Qed.

(** On a decimal numeral that fits 64 bits [ParseUint] returns its value
    and no error. *)
Lemma ParseUint_numeric s :
  numeric s = true -> ParseUint s = (decimalValue s, None).
Proof.
  unfold numeric. intros H.
  apply andb_prop in H as [H Hmax]. apply andb_prop in H as [Hne Hd].
  destruct s as [|c s]; [discriminate|].
  unfold ParseUint. apply parseUintLoop_numeric; [assumption | lia |].
  now apply Z.leb_le.
Qed.

End GoLibFacts.

(* ================================================================== *)
(** * The CPU and memory parsers *)
(* ================================================================== *)

Section TwoLineParsers.

(** From index 2 on the loops of the four parsers change nothing. *)
Lemma rangeFrom_id {St} (body : nat -> string -> St -> option St) (from : nat) :
  (forall i line s, (from <= i)%nat -> body i line s = Some s) ->
  forall lines i s, (from <= i)%nat -> rangeFrom body i lines s = Some s.
Proof.
  intros Hbody lines. induction lines as [|l r IH]; intros i s Hi; simpl.
  - reflexivity.
  - rewrite Hbody by assumption. simpl. apply IH. lia.
Qed.

Ltac later_line :=
  let i := fresh "i" in
  intros i ? ? ?;
  match goal with
  | |- ?f _ ?line _ = _ => unfold f; destruct (length (Fields line) <? 2)%nat
  end;
  [reflexivity | destruct i as [|[|i]]; [lia | lia | reflexivity]].

Lemma Stats_cpuLine_later i line c :
  (2 <= i)%nat -> Stats.cpuLine i line c = Some c.
Proof. revert i line c. later_line. Qed.

Lemma Stats_memLine_later i line m :
  (2 <= i)%nat -> Stats.memLine i line m = Some m.
Proof. revert i line m. later_line. Qed.

Lemma Cgroups_cpuLine_later i line cs :
  (2 <= i)%nat -> Cgroups.cpuLine i line cs = Some cs.
Proof. revert i line cs. later_line. Qed.

Lemma Cgroups_memLine_later i line cs :
  (2 <= i)%nat -> Cgroups.memLine i line cs = Some cs.
Proof. revert i line cs. later_line. Qed.

End TwoLineParsers.



(* ================================================================== *)
(** * The block-I/O parser of [part_001] *)
(* ================================================================== *)

Section BlkIOFacts.

Import BlkIO.

#[local] Arguments String.append !_ _ / : simpl nomatch.

(** *** The parser never panics *)

Lemma index_lt {A} (l : list A) (i : nat) :
  (i < length l)%nat -> exists x, index l i = Some x.
Proof.
  intros H. unfold index.
  destruct (nth_error l i) eqn:E; [eauto|].
  apply nth_error_None in E. lia.
Qed.

Lemma createLine_total b line : exists b', createLine b line = Some b'.
Proof.
  unfold createLine.
  destruct (length (Fields line) =? 3)%nat eqn:E3; cbn [negb]; [|eauto].
  apply Nat.eqb_eq in E3.
  destruct (index_lt (Fields line) 0) as [d ->]; [lia|].
  destruct (index_lt (Fields line) 1) as [op ->]; [lia|].
  destruct (index_lt (Fields line) 2) as [u ->]; [lia|].
  cbn [mbind option_bind].
  destruct (1 <? length (Split d colon))%nat eqn:E1; [|cbn; eauto].
  apply Nat.ltb_lt in E1.
  destruct (index_lt (Split d colon) 0) as [d0 ->]; [lia|].
  destruct (index_lt (Split d colon) 1) as [d1 ->]; [lia|].
  cbn. eauto.
Qed.

Lemma BlkDevice_create_total lines : forall b,
  exists b', BlkDevice_create b lines = Some b'.
Proof.
  induction lines as [|l r IH]; intros b; simpl; [eauto|].
  destruct (createLine_total b l) as [b1 ->]. simpl. apply IH.
Qed.

Lemma scanLine_total i line s : exists s', scanLine i line s = Some s'.
Proof.
  unfold scanLine.
  destruct (length (Fields line) =? 3)%nat eqn:E3; cbn [negb]; [|eauto].
  apply Nat.eqb_eq in E3.
  destruct (index_lt (Fields line) 0) as [d ->]; [lia|].
  cbn [mbind option_bind].
  destruct (negb (String.eqb d (lastDeviceStr s)) && (0 <? i)%nat); [|cbn; eauto].
  destruct (BlkDevice_create_total (tmpContent s) zeroDevice) as [bd ->].
  cbn. eauto.
Qed.

Lemma scanLines_total lines : forall i s,
  exists s', scanLines i lines s = Some s'.
Proof.
  induction lines as [|l r IH]; intros i s; simpl; [eauto|].
  destruct (scanLine_total i l s) as [s1 ->]. simpl. apply IH.
Qed.

(** [BlkServiced.create] returns for every content. *)
Lemma BlkServiced_create_total now b content :
  exists b', BlkServiced_create now b content = Some b'.
Proof.
  unfold BlkServiced_create.
  destruct (scanLines_total (Split content LF) 0 scan0) as [s ->]. simpl.
  destruct (length (tmpContent s) =? 0)%nat; simpl; [eauto|].
  destruct (BlkDevice_create_total (tmpContent s) zeroDevice) as [bd ->].
  simpl. eauto.
Qed.

(** *** One group of lines *)

Lemma Fields_row d op v :
  word d = true -> word op = true -> word v = true ->
  Fields (row d op v) = [d; op; v].
Proof. apply Fields_three. Qed.

Lemma createLine_row b d op v :
  word d = true -> word op = true -> word v = true ->
  createLine b (row d op v)
  = Some (setCounter (withNumbers d b) op (ParseUint v).1).
Proof.
  intros Hd Hop Hv. unfold createLine, withNumbers. cbv zeta.
  rewrite (Fields_row d op v Hd Hop Hv). simpl.
  destruct (Split d colon) as [|d0 [|d1 t]]; reflexivity.
Qed.

Lemma setCounter_withNumbers d b op v :
  setCounter (withNumbers d b) op v = withNumbers d (setCounter b op v).
Proof.
  unfold withNumbers. destruct (Split d colon) as [|d0 [|d1 t]]; try reflexivity.
  unfold setCounter.
  destruct (String.eqb op "Read"); [reflexivity|].
  destruct (String.eqb op "Write"); [reflexivity|].
  destruct (String.eqb op "Sync"); [reflexivity|].
  destruct (String.eqb op "Async"); reflexivity.
Qed.

Lemma withNumbers_idem d b : withNumbers d (withNumbers d b) = withNumbers d b.
Proof.
  unfold withNumbers. destruct (Split d colon) as [|d0 [|d1 t]]; reflexivity.
Qed.

Lemma setCounter_other b op v : recognised op = false -> setCounter b op v = b.
Proof.
  unfold recognised, setCounter. intros H.
  destruct (String.eqb op "Read"); [discriminate|].
  destruct (String.eqb op "Write"); [discriminate|].
  destruct (String.eqb op "Sync"); [discriminate|].
  destruct (String.eqb op "Async"); [discriminate|reflexivity].
Qed.

Lemma BlkDevice_create_numbered d rs : forall b,
  word d = true -> Forall rowOk rs ->
  BlkDevice_create (withNumbers d b) (map (fun r => row d r.1 r.2) rs)
  = Some (withNumbers d (counters rs b)).
Proof.
  induction rs as [|[op v] rs IH]; intros b Hd Hrs; simpl; [reflexivity|].
  inversion Hrs as [|? ? [Hop Hv] Hrs']; subst. simpl in Hop, Hv.
  rewrite createLine_row by assumption. simpl.
  rewrite withNumbers_idem, setCounter_withNumbers.
  now apply IH.
Qed.

Lemma BlkDevice_create_rows d rs b :
  word d = true -> Forall rowOk rs -> rs <> [] ->
  BlkDevice_create b (map (fun r => row d r.1 r.2) rs)
  = Some (withNumbers d (counters rs b)).
Proof.
  intros Hd Hrs Hne. destruct rs as [|[op v] rs]; [congruence|].
  inversion Hrs as [|? ? [Hop Hv] Hrs']; subst. simpl in Hop, Hv.
  simpl. rewrite createLine_row by assumption. simpl.
  rewrite setCounter_withNumbers.
  now apply BlkDevice_create_numbered.
Qed.

(** Rows with a label that is none of the four leave the counters as
    they are. *)
Lemma counters_filter rs : forall b,
  counters rs b = counters (List.filter (fun r => recognised r.1) rs) b.
Proof.
  unfold counters.
  induction rs as [|[op v] rs IH]; intros b; simpl; [reflexivity|].
  destruct (recognised op) eqn:E; simpl.
  - apply IH.
  - rewrite setCounter_other by assumption. apply IH.
Qed.

Lemma blockOk_rows blk : blockOk blk -> rows blk <> [].
Proof.
  intros (_ & _ & H) E. rewrite E in H. discriminate H.
Qed.

(** The record of a block. *)
Lemma BlkDevice_create_block blk :
  blockOk blk ->
  BlkDevice_create zeroDevice (blockLines blk) = Some (deviceOf blk).
Proof.
  intros Hok. pose proof (blockOk_rows blk Hok) as Hne.
  destruct Hok as (Hd & Hrs & Hfour).
  unfold blockLines. rewrite BlkDevice_create_rows by assumption.
  rewrite counters_filter, Hfour. f_equal.
  unfold withNumbers, deviceOf, deviceNumbers.
  destruct (Split (ident blk) colon) as [|d0 [|d1 t]]; reflexivity.
Qed.

(** *** The scan over the lines *)

Lemma scanLine_row i d op v s :
  word d = true -> word op = true -> word v = true ->
  scanLine i (row d op v) s
  = (s1 ← (if negb (String.eqb d (lastDeviceStr s)) && (0 <? i)%nat then
             bd ← BlkDevice_create zeroDevice (tmpContent s);
             Some {| lastDeviceStr := lastDeviceStr s;
                     tmpContent := [];
                     devs := devs s ++ [bd] |}
           else Some s);
     Some {| lastDeviceStr := d;
             tmpContent := tmpContent s1 ++ [row d op v];
             devs := devs s1 |}).
Proof.
  intros Hd Hop Hv. unfold scanLine. cbv zeta.
  rewrite (Fields_row d op v Hd Hop Hv). reflexivity.
Qed.

(** A row of the device of the line before joins its group. *)
Lemma scanLine_same i d op v s :
  word d = true -> word op = true -> word v = true ->
  lastDeviceStr s = d ->
  scanLine i (row d op v) s
  = Some {| lastDeviceStr := d;
            tmpContent := tmpContent s ++ [row d op v];
            devs := devs s |}.
Proof.
  intros Hd Hop Hv Hlast. rewrite scanLine_row by assumption.
  rewrite Hlast, String.eqb_refl. reflexivity.
Qed.

(** So does a row at index 0. *)
Lemma scanLine_first d op v s :
  word d = true -> word op = true -> word v = true ->
  scanLine 0 (row d op v) s
  = Some {| lastDeviceStr := d;
            tmpContent := tmpContent s ++ [row d op v];
            devs := devs s |}.
Proof.
  intros Hd Hop Hv. rewrite scanLine_row by assumption.
  cbn [Nat.ltb Nat.leb]. rewrite andb_false_r. reflexivity.
Qed.

(** A row of another device at a later index closes the group. *)
Lemma scanLine_new i d op v s bd :
  word d = true -> word op = true -> word v = true ->
  (0 < i)%nat -> lastDeviceStr s <> d ->
  BlkDevice_create zeroDevice (tmpContent s) = Some bd ->
  scanLine i (row d op v) s
  = Some {| lastDeviceStr := d;
            tmpContent := [row d op v];
            devs := devs s ++ [bd] |}.
Proof.
  intros Hd Hop Hv Hi Hlast Hbd. rewrite scanLine_row by assumption.
  assert (String.eqb d (lastDeviceStr s) = false) as ->
    by (apply String.eqb_neq; congruence).
  assert ((0 <? i)%nat = true) as -> by now apply Nat.ltb_lt.
  cbn [negb andb]. rewrite Hbd. reflexivity.
Qed.

Lemma scanLines_same d rs : forall i s rest,
  word d = true -> Forall rowOk rs -> lastDeviceStr s = d ->
  scanLines i (map (fun r => row d r.1 r.2) rs ++ rest) s
  = scanLines (i + length rs) rest
      {| lastDeviceStr := d;
         tmpContent := tmpContent s ++ map (fun r => row d r.1 r.2) rs;
         devs := devs s |}.
Proof.
  induction rs as [|[op v] rs IH]; intros i s rest Hd Hrs Hlast.
  - cbn [map app length]. rewrite Nat.add_0_r, app_nil_r.
    destruct s; simpl in *; now subst.
  - inversion Hrs as [|? ? [Hop Hv] Hrs']; subst. simpl in Hop, Hv.
    cbn [map app scanLines fst snd].
    rewrite scanLine_same by (assumption || reflexivity).
    cbn [mbind option_bind]. rewrite IH by (assumption || reflexivity).
    cbn [tmpContent devs length].
    rewrite <- app_assoc, Nat.add_succ_r. reflexivity.
Qed.

(** The first block of a content. *)
Lemma scanLines_block_first blk rest :
  blockOk blk ->
  scanLines 0 (blockLines blk ++ rest) scan0
  = scanLines (length (rows blk)) rest
      {| lastDeviceStr := ident blk;
         tmpContent := blockLines blk;
         devs := [] |}.
Proof.
  intros Hok. pose proof (blockOk_rows blk Hok) as Hne.
  destruct Hok as (Hd & Hrs & _). unfold blockLines.
  destruct (rows blk) as [|[op v] rs]; [congruence|].
  inversion Hrs as [|? ? [Hop Hv] Hrs']; subst. simpl in Hop, Hv.
  cbn [map app scanLines fst snd].
  rewrite scanLine_first by assumption.
  cbn [mbind option_bind]. rewrite scanLines_same by (assumption || reflexivity).
  reflexivity.
Qed.

(** A later block, after the lines of another device. *)
Lemma scanLines_block_next blk i s bd rest :
  blockOk blk -> (0 < i)%nat -> lastDeviceStr s <> ident blk ->
  BlkDevice_create zeroDevice (tmpContent s) = Some bd ->
  scanLines i (blockLines blk ++ rest) s
  = scanLines (i + length (rows blk)) rest
      {| lastDeviceStr := ident blk;
         tmpContent := blockLines blk;
         devs := devs s ++ [bd] |}.
Proof.
  intros Hok Hi Hlast Hbd. pose proof (blockOk_rows blk Hok) as Hne.
  destruct Hok as (Hd & Hrs & _). unfold blockLines.
  destruct (rows blk) as [|[op v] rs]; [congruence|].
  inversion Hrs as [|? ? [Hop Hv] Hrs']; subst. simpl in Hop, Hv.
  cbn [map app scanLines fst snd].
  rewrite (scanLine_new i _ _ _ s bd) by assumption.
  cbn [mbind option_bind]. rewrite scanLines_same by (assumption || reflexivity).
  cbn [tmpContent devs length app]. rewrite Nat.add_succ_r. reflexivity.
Qed.

Lemma linesOf_app a b : linesOf (a ++ b) = (linesOf a ++ linesOf b)%list.
Proof. unfold linesOf. now rewrite map_app, concat_app. Qed.

Lemma linesOf_one blk : linesOf [blk] = blockLines blk.
Proof. unfold linesOf. simpl. apply app_nil_r. Qed.

Lemma blockLines_length blk : length (blockLines blk) = length (rows blk).
Proof. unfold blockLines. apply length_map. Qed.

(** Lines that are no rows are passed over. *)
Lemma scanLines_junk_app ls : forall i s rest,
  Forall (fun l => junkLine l = true) ls ->
  scanLines i (ls ++ rest) s = scanLines (i + length ls) rest s.
Proof.
  induction ls as [|l r IH]; intros i s rest H.
  - cbn [app length]. now rewrite Nat.add_0_r.
  - inversion H as [|? ? Hl Hr]; subst.
    cbn [app scanLines length]. unfold scanLine at 1. unfold junkLine in Hl.
    apply andb_prop in Hl as [_ ->]. cbn [mbind option_bind].
    rewrite IH by assumption. now rewrite Nat.add_succ_r.
Qed.

Lemma scanLines_junk ls i s :
  Forall (fun l => junkLine l = true) ls -> scanLines i ls s = Some s.
Proof.
  intros H. rewrite <- (app_nil_r ls). now rewrite scanLines_junk_app.
Qed.

(** After lines [lead] that are no rows, the blocks [done] and then the
    block [cur], the group of [cur] is open and every block of [done]
    has its record; when [lead] is not empty, the record of the empty
    group comes first. *)
Lemma scanLines_blocks lead done : forall cur rest,
  Forall (fun l => junkLine l = true) lead ->
  Forall blockOk (done ++ [cur]) ->
  NoDup (map ident (done ++ [cur])) ->
  scanLines 0 (lead ++ linesOf (done ++ [cur]) ++ rest) scan0
  = scanLines (length lead + length (linesOf (done ++ [cur]))) rest
      {| lastDeviceStr := ident cur;
         tmpContent := blockLines cur;
         devs := leadRecord lead ++ map deviceOf done |}.
Proof.
  induction done as [|prev done IH] using rev_ind; intros cur rest Hlead Hok Hnd.
  - cbn [app] in *. rewrite linesOf_one, blockLines_length.
    rewrite scanLines_junk_app by assumption. cbn [Nat.add].
    inversion Hok as [|? ? Hcur _]; subst.
    destruct lead as [|l0 ls0].
    + cbn [length leadRecord app map]. now apply scanLines_block_first.
    + rewrite (scanLines_block_next cur _ _ zeroDevice);
        [reflexivity | assumption | cbn; lia | | reflexivity].
      cbn [scan0 lastDeviceStr]. destruct Hcur as (Hd & _).
      intros E. rewrite <- E in Hd. discriminate Hd.
  - apply Forall_app in Hok as [Hdone Hcur].
    inversion Hcur as [|? ? Hcur' _]; subst.
    rewrite map_app in Hnd. apply NoDup_app in Hnd as (Hnd & Hfresh & _).
    rewrite linesOf_app, linesOf_one, <- app_assoc.
    rewrite IH by assumption.
    apply Forall_app in Hdone as [_ Hprev].
    inversion Hprev as [|? ? Hprev' _]; subst.
    rewrite (scanLines_block_next cur _ _ (deviceOf prev)).
    + cbn [devs]. rewrite length_app, blockLines_length, map_app.
      rewrite <- !app_assoc, Nat.add_assoc. reflexivity.
    + assumption.
    + rewrite linesOf_app, linesOf_one, length_app, blockLines_length.
      pose proof (blockOk_rows prev Hprev').
      destruct (rows prev); [congruence | simpl; lia].
    + cbn [lastDeviceStr]. intros E. apply (Hfresh (ident prev)).
      * rewrite map_app. apply elem_of_app. right. cbn. left.
      * rewrite E. cbn. left.
    + cbn [tmpContent]. now apply BlkDevice_create_block.
Qed.

Lemma isLine_row d op v :
  word d = true -> word op = true -> word v = true ->
  isLine (row d op v) = true.
Proof.
  intros Hd Hop Hv.
  pose proof (word_isLine d (word_bytes d Hd)) as Ld.
  pose proof (word_isLine op (word_bytes op Hop)) as Lop.
  pose proof (word_isLine v (word_bytes v Hv)) as Lv.
  unfold isLine, row in *. rewrite !allBytes_app, Ld, Lop, Lv.
  reflexivity.
Qed.

Lemma isLine_block blk :
  blockOk blk -> Forall (fun l => isLine l = true) (blockLines blk).
Proof.
  intros (Hd & Hrs & _). unfold blockLines.
  induction Hrs as [|[op v] rs [Hop Hv] _ IH]; simpl; constructor.
  - now apply isLine_row.
  - exact IH.
Qed.

Lemma isLine_blocks blocks :
  Forall blockOk blocks -> Forall (fun l => isLine l = true) (linesOf blocks).
Proof.
  unfold linesOf. induction 1 as [|blk bs Hok _ IH]; simpl; [constructor|].
  apply Forall_app. split; [now apply isLine_block | exact IH].
Qed.

Lemma junkLine_isLine ls :
  Forall (fun l => junkLine l = true) ls -> Forall (fun l => isLine l = true) ls.
Proof.
  apply List.Forall_impl. intros l H. unfold junkLine in H.
  now apply andb_prop in H as [H _].
Qed.

Lemma Split_joinLines_junk ls :
  Forall (fun l => junkLine l = true) ls ->
  scanLines 0 (Split (joinLines ls) LF) scan0 = Some scan0.
Proof.
  intros H. destruct ls as [|t ts]; [reflexivity|].
  rewrite Split_joinLines; [|congruence|now apply junkLine_isLine].
  now apply scanLines_junk.
Qed.

(** The devices of a content made of lines that are no rows, blocks, and
    again lines that are no rows. *)
Lemma BlkServiced_create_from now b lead blocks trailer :
  Forall (fun l => junkLine l = true) lead ->
  Forall blockOk blocks ->
  NoDup (map ident blocks) ->
  Forall (fun l => junkLine l = true) trailer ->
  BlkServiced_create now b (blkContentFrom lead blocks trailer)
  = Some {| path := path b; Timestamp := now;
            Devices := match blocks with
                       | [] => []
                       | _ => leadRecord lead ++ map deviceOf blocks
                       end |}.
Proof.
  intros Hlead Hok Hnd Hjunk. unfold BlkServiced_create, blkContentFrom.
  destruct blocks as [|b0 bs] using rev_ind.
  - (* no device *)
    cbn [linesOf map concat app].
    rewrite Split_joinLines_junk by (apply Forall_app; now split).
    reflexivity.
  - clear IHbs.
    replace (match (bs ++ [b0])%list with
             | [] => []
             | _ => (leadRecord lead ++ map deviceOf (bs ++ [b0]))%list
             end)
      with (leadRecord lead ++ map deviceOf (bs ++ [b0]))%list
      by (destruct bs; reflexivity).
    apply Forall_app in Hok as [Hbs Hlast].
    inversion Hlast as [|? ? Hb0 _]; subst.
    pose proof (blockOk_rows b0 Hb0) as Hne.
    pose proof (blockLines_length b0) as Hlen.
    rewrite Split_joinLines.
    + rewrite scanLines_blocks; [|assumption|apply Forall_app; now split|assumption].
      rewrite scanLines_junk by assumption.
      cbn [mbind option_bind tmpContent devs].
      destruct (blockLines b0) as [|l0 ls0] eqn:E;
        [destruct (rows b0); [congruence | discriminate]|].
      cbn [length Nat.eqb negb]. rewrite <- E.
      rewrite BlkDevice_create_block by assumption.
      cbn [mbind option_bind]. rewrite map_app, <- app_assoc. reflexivity.
    + rewrite linesOf_app, linesOf_one.
      destruct (blockLines b0) as [|l0 ls0] eqn:E;
        [destruct (rows b0); [congruence | discriminate]|].
      destruct lead; [destruct (linesOf bs)|]; discriminate.
    + apply Forall_app. split; [now apply junkLine_isLine|].
      apply Forall_app. split; [|now apply junkLine_isLine].
      apply isLine_blocks. apply Forall_app. now split.
Qed.

(** The devices of a content that starts with its first block. *)
Lemma BlkServiced_create_blocks now b blocks trailer :
  Forall blockOk blocks ->
  NoDup (map ident blocks) ->
  Forall (fun l => junkLine l = true) trailer ->
  BlkServiced_create now b (blkContent blocks trailer)
  = Some {| path := path b; Timestamp := now;
            Devices := map deviceOf blocks |}.
Proof.
  intros Hok Hnd Hjunk.
  change (blkContent blocks trailer) with (blkContentFrom [] blocks trailer).
  rewrite BlkServiced_create_from by (assumption || constructor).
  destruct blocks; reflexivity.
Qed.

(** When lines that are no rows come before the first block, the record
    of an empty group comes before the records of the blocks. *)
Lemma BlkServiced_create_leading_lines now b l lead blocks trailer :
  Forall (fun l => junkLine l = true) (l :: lead) ->
  blocks <> [] ->
  Forall blockOk blocks ->
  NoDup (map ident blocks) ->
  Forall (fun l => junkLine l = true) trailer ->
  BlkServiced_create now b (blkContentFrom (l :: lead) blocks trailer)
  = Some {| path := path b; Timestamp := now;
            Devices := zeroDevice :: map deviceOf blocks |}.
Proof.
  intros Hlead Hne Hok Hnd Hjunk.
  rewrite BlkServiced_create_from by assumption.
  destruct blocks; [congruence | reflexivity].
Qed.

(** A block whose identifier has no colon gets the numbers [0] and [0]. *)
Lemma deviceOf_noColon blk :
  noColon (ident blk) = true ->
  Major (deviceOf blk) = 0 /\ Minor (deviceOf blk) = 0.
Proof.
  intros H. unfold deviceOf. cbn [Major Minor].
  unfold deviceNumbers, Split. unfold noColon in H.
  now rewrite splitLoop_last.
Qed.

End BlkIOFacts.

(** C1.  For a content made of the blocks of N devices with distinct
    identifiers, each block holding the four operation rows [Read],
    [Write], [Sync], [Async] of its device (and possibly rows with other
    labels), followed by lines that are no rows, [BlkServiced.create]
    returns with exactly N records in [Devices], in the order of the
    blocks; the counters of each record are the values that
    [ParseUint] gives for the four operation rows of its block.  The
    records do not depend on the rows with other labels: such rows
    change no field. *)
Theorem BlkServiced_create_devices
    (now : Z) (b : BlkIO.BlkServiced)
    (blocks : list devBlock) (trailer : list string) :
  Forall blockOk blocks ->
  NoDup (map ident blocks) ->
  Forall (fun l => junkLine l = true) trailer ->
  exists b',
    BlkIO.BlkServiced_create now b (blkContent blocks trailer) = Some b'
    /\ length (BlkIO.Devices b') = length blocks
    /\ BlkIO.Devices b' = map deviceOf blocks.
Proof.
  intros Hok Hnd Hjunk.
  eexists. split; [now apply BlkServiced_create_blocks|].
  cbn [BlkIO.Devices]. split; [apply length_map | reflexivity].
Qed.

Lemma sampleBlocks_ok : Forall blockOk sampleBlocks.
Proof.
  repeat constructor.
Qed.

Lemma BlkServiced_create_devices_witness :
  exists b',
    BlkIO.BlkServiced_create 7 BlkIO.zeroServiced
      (blkContent sampleBlocks ["Total 99"; ""]) = Some b'
    /\ length (BlkIO.Devices b') = 2%nat
    /\ BlkIO.Devices b'
       = [ {| BlkIO.Major := 8; BlkIO.Minor := 0; BlkIO.Read := 11;
              BlkIO.Write := 12; BlkIO.Sync := 13; BlkIO.Async := 14 |};
           {| BlkIO.Major := 8; BlkIO.Minor := 16; BlkIO.Read := 21;
              BlkIO.Write := 22; BlkIO.Sync := 23; BlkIO.Async := 24 |} ].
Proof.
  apply (BlkServiced_create_devices 7 BlkIO.zeroServiced sampleBlocks
           ["Total 99"; ""]).
  - exact sampleBlocks_ok.
  - apply (bool_decide_unpack _). vm_compute. exact I.
  - repeat constructor.
Defined.

(** C5.  [BlkServiced.create] of [part_001] closes a group when the
    identifier changes at an index above 0, whether or not the group
    holds a line.  On a content whose first row is not its first line,
    here an empty line and then one row, the test succeeds on an empty
    group, and [Devices] starts with a record made from no line at all.
    ([BlkServiced_create_leading_lines] has it for every such content,
    and [BlkServiced_create_blocks] has that the groups are closed as
    they should when the first row is the first line.) *)
Theorem BlkServiced_create_empty_group (now : Z) (b : BlkIO.BlkServiced) :
  BlkIO.BlkServiced_create now b (nl ++ "8:0 Read 1")
  = Some {| BlkIO.path := BlkIO.path b;
            BlkIO.Timestamp := now;
            BlkIO.Devices :=
              [ BlkIO.zeroDevice;
                {| BlkIO.Major := 8; BlkIO.Minor := 0; BlkIO.Read := 1;
                   BlkIO.Write := 0; BlkIO.Sync := 0; BlkIO.Async := 0 |} ] |}.
Proof. reflexivity. Qed.

Section BlkIO0Facts.

Import BlkIO0.

(** In [part_005] [lastDeviceStr] stays empty and no field is empty, so
    every row resets [tmpContent]: the scan ends as it started. *)
Lemma BlkIO0_scanLine_scan0 line : scanLine line scan0 = Some scan0.
Proof.
  unfold scanLine.
  destruct (length (Fields line) =? 3)%nat eqn:E3; cbn [negb]; [|reflexivity].
  pose proof (Fields_nonempty line) as Hne.
  destruct (Fields line) as [|d fs]; [discriminate|].
  inversion Hne as [|? ? Hd _]; subst.
  cbn [index nth_error mbind option_bind scan0 lastDeviceStr].
  apply String.eqb_neq in Hd. rewrite Hd. reflexivity.
Qed.

Lemma BlkIO0_scanLines_scan0 lines : scanLines lines scan0 = Some scan0.
Proof.
  induction lines as [|l r IH]; [reflexivity|].
  cbn [scanLines]. rewrite BlkIO0_scanLine_scan0. exact IH.
Qed.

(** X22.  [BlkServiced.create] of [part_005] yields no record, whatever
    the content: no group is ever closed or flushed. *)
Lemma BlkIO0_create_no_device now b content :
  BlkServiced_create now b content
  = Some {| path := path b; Timestamp := now; Devices := [] |}.
Proof.
  unfold BlkServiced_create. rewrite BlkIO0_scanLines_scan0. reflexivity.
Qed.

End BlkIO0Facts.

Section NoColon.

Import BlkIO.

Lemma Split_noColon d : noColon d = true -> Split d colon = [d].
Proof. intros H. unfold Split. now rewrite splitLoop_last. Qed.

(** In [part_001] a row whose identifier has no colon leaves [Major] and
    [Minor] as they are and sets its counter as usual. *)
Lemma createLine_noColon b d op v :
  word d = true -> word op = true -> word v = true -> noColon d = true ->
  createLine b (row d op v) = Some (setCounter b op (ParseUint v).1).
Proof.
  intros Hd Hop Hv Hc. rewrite createLine_row by assumption.
  unfold withNumbers. now rewrite Split_noColon.
Qed.

Lemma deviceNumbers_noColon d : noColon d = true -> deviceNumbers d = (0, 0).
Proof. intros H. unfold deviceNumbers. now rewrite Split_noColon. Qed.

End NoColon.

(* ================================================================== *)
(** * The read pass *)
(* ================================================================== *)

Section PassFacts.

Lemma onlyAt_refl {V} id (st : gmap string V) : onlyAt id st st.
Proof. intros k _. reflexivity. Qed.

Lemma onlyAt_insert {V} id cs (st st' : gmap string V) :
  onlyAt id st st' -> onlyAt id st (<[id := cs]> st').
Proof. intros H k Hk. rewrite lookup_insert_ne by congruence. now apply H. Qed.

Lemma onlyAt_delete {V} id (st st' : gmap string V) :
  onlyAt id st st' -> onlyAt id st (delete id st').
Proof. intros H k Hk. rewrite lookup_delete_ne by congruence. now apply H. Qed.

Lemma onlyAt_trans {V} id (st st1 st2 : gmap string V) :
  onlyAt id st st1 -> onlyAt id st1 st2 -> onlyAt id st st2.
Proof. intros H1 H2 k Hk. rewrite H2, H1 by assumption. reflexivity. Qed.

Lemma firstFailure_missing RF ps :
  noOtherError RF ps -> anyMissing RF ps ->
  exists e, firstFailure RF ps = Some e /\ IsNotExist e = true.
Proof.
  induction ps as [|p r IH]; intros Hno (q & e & Hin & Hq & He).
  - destruct Hin.
  - cbn [firstFailure]. destruct (readError RF p) as [e'|] eqn:Ep.
    + exists e'. split; [reflexivity|]. apply (Hno p); [now left | assumption].
    + apply IH.
      * intros p' e' Hin'. apply Hno. now right.
      * destruct Hin as [<-|Hin]; [congruence|]. now exists q, e.
Qed.

(** A loop whose body keeps an invariant and never panics. *)
Lemma rangeFrom_inv {A St} (body : nat -> A -> St -> option St) (P : St -> Prop) :
  (forall i x s, P s -> exists s', body i x s = Some s' /\ P s') ->
  forall l i s, P s -> exists s', rangeFrom body i l s = Some s' /\ P s'.
Proof.
  intros Hbody l. induction l as [|x r IH]; intros i s Hs; cbn [rangeFrom].
  - eauto.
  - destruct (Hbody i x s Hs) as (s1 & -> & Hs1). cbn [mbind option_bind].
    now apply IH.
Qed.

Lemma index_1 {A} (l : list A) :
  (length l <? 2)%nat = false -> exists x, index l 1 = Some x.
Proof. intros H. apply index_lt. apply Nat.ltb_ge in H. lia. Qed.

End PassFacts.

(** ** [ReadCgroups] of [gocstat.go] *)

Section CgroupsFacts.

Import Cgroups.

Variable RF : string -> readResult.

Lemma Cgroups_memLine_ok ps i line cs :
  Cgroups_paths cs = ps ->
  exists cs', memLine i line cs = Some cs' /\ Cgroups_paths cs' = ps.
Proof.
  intros Hp. unfold memLine.
  destruct (length (Fields line) <? 2)%nat eqn:E; [eauto|].
  destruct (index_1 _ E) as [v Hv].
  destruct i as [|[|i]]; [rewrite Hv | rewrite Hv |]; cbn; eauto.
Qed.

Lemma Cgroups_cpuLine_ok ps i line cs :
  Cgroups_paths cs = ps ->
  exists cs', cpuLine i line cs = Some cs' /\ Cgroups_paths cs' = ps.
Proof.
  intros Hp. unfold cpuLine.
  destruct (length (Fields line) <? 2)%nat eqn:E; [eauto|].
  destruct (index_1 _ E) as [v Hv].
  destruct i as [|[|i]]; [rewrite Hv | rewrite Hv |]; cbn; eauto.
Qed.

(** The parsers return for every content and keep the paths. *)
Lemma createMemStat_ok cs content :
  exists cs', createMemStat cs content = Some cs'
              /\ Cgroups_paths cs' = Cgroups_paths cs.
Proof.
  unfold createMemStat.
  destruct (length (Split content LF) <? 2)%nat; [eauto|].
  apply (rangeFrom_inv memLine (fun c => Cgroups_paths c = Cgroups_paths cs));
    [|reflexivity].
  intros i x s. apply Cgroups_memLine_ok.
Qed.

Lemma createCPUStat_ok cs content :
  exists cs', createCPUStat cs content = Some cs'
              /\ Cgroups_paths cs' = Cgroups_paths cs.
Proof.
  unfold createCPUStat.
  destruct (length (Split content LF) <? 2)%nat; [eauto|].
  apply (rangeFrom_inv cpuLine (fun c => Cgroups_paths c = Cgroups_paths cs));
    [|reflexivity].
  intros i x s. apply Cgroups_cpuLine_ok.
Qed.

(** What [readMemory] does, by the outcome of the read. *)
Lemma readMemory_spec id cs st :
  match readError RF (Mem_path (Memory cs)) with
  | None =>
      exists cs', Cgroups_paths cs' = Cgroups_paths cs
        /\ (readMemory RF id cs st = Fall cs' (<[id := cs']> st)
            \/ (cs' = cs /\ readMemory RF id cs st = Fall cs st))
  | Some e =>
      if IsNotExist e then readMemory RF id cs st = Next (delete id st)
      else readMemory RF id cs st = Stop (Returned None (Some e)) st
  end.
Proof.
  unfold readError, readMemory.
  destruct (String.eqb (Mem_path (Memory cs)) ""); cbn [negb].
  - exists cs. eauto.
  - destruct (RF (Mem_path (Memory cs))) as [b|e].
    + destruct (createMemStat_ok cs b) as (cs' & -> & Hp). eauto.
    + destruct (IsNotExist e); reflexivity.
Qed.

Lemma readCPU_spec id cs st :
  match readError RF (CPU_path (CPU cs)) with
  | None =>
      exists cs', Cgroups_paths cs' = Cgroups_paths cs
        /\ (readCPU RF id cs st = Fall cs' (<[id := cs']> st)
            \/ (cs' = cs /\ readCPU RF id cs st = Fall cs st))
  | Some e =>
      if IsNotExist e then readCPU RF id cs st = Next (delete id st)
      else readCPU RF id cs st = Stop (Returned None (Some e)) st
  end.
Proof.
  unfold readError, readCPU.
  destruct (String.eqb (CPU_path (CPU cs)) ""); cbn [negb].
  - exists cs. eauto.
  - destruct (RF (CPU_path (CPU cs))) as [b|e].
    + destruct (createCPUStat_ok cs b) as (cs' & -> & Hp). eauto.
    + destruct (IsNotExist e); reflexivity.
Qed.

(** What one iteration does, by the first failure among the reads of the
    entry. *)
Lemma readContainer_spec id cs st :
  st !! id = Some cs ->
  match firstFailure RF (Cgroups_paths cs) with
  | None =>
      exists cs' st', readContainer RF id cs st = Fall cs' st'
        /\ Cgroups_paths cs' = Cgroups_paths cs
        /\ st' !! id = Some cs' /\ onlyAt id st st'
  | Some e =>
      if IsNotExist e then
        exists st', readContainer RF id cs st = Next st'
          /\ st' !! id = None /\ onlyAt id st st'
      else
        exists st', readContainer RF id cs st = Stop (Returned None (Some e)) st'
          /\ is_Some (st' !! id) /\ onlyAt id st st'
  end.
Proof.
  intros Hid. unfold readContainer. cbn [firstFailure Cgroups_paths].
  pose proof (readMemory_spec id cs st) as HM.
  destruct (readError RF (Mem_path (Memory cs))) as [e|].
  - destruct (IsNotExist e); rewrite HM.
    + eexists. split; [reflexivity|]. split; [apply lookup_delete_eq|].
      apply onlyAt_delete, onlyAt_refl.
    + eexists. split; [reflexivity|]. split; [eauto | apply onlyAt_refl].
  - destruct HM as (cs1 & Hp1 & HM).
    assert (exists st1, readMemory RF id cs st = Fall cs1 st1
              /\ st1 !! id = Some cs1 /\ onlyAt id st st1) as (st1 & -> & Hid1 & Hst1).
    { destruct HM as [HM | [-> HM]]; rewrite HM; eexists; split; try reflexivity.
      - split; [apply lookup_insert_eq | apply onlyAt_insert, onlyAt_refl].
      - split; [assumption | apply onlyAt_refl]. }
    pose proof (readCPU_spec id cs1 st1) as HC.
    assert (Hcpu : CPU_path (CPU cs1) = CPU_path (CPU cs))
      by (unfold Cgroups_paths in Hp1; congruence).
    rewrite Hcpu in HC.
    destruct (readError RF (CPU_path (CPU cs))) as [e|].
    + destruct (IsNotExist e); rewrite HC.
      * eexists. split; [reflexivity|]. split; [apply lookup_delete_eq|].
        now apply onlyAt_delete.
      * eexists. split; [reflexivity|]. split; [eauto | assumption].
    + destruct HC as (cs2 & Hp2 & HC).
      destruct HC as [HC | [-> HC]]; rewrite HC; do 2 eexists;
        (split; [reflexivity|]).
      * split; [congruence|]. split; [apply lookup_insert_eq|].
        now apply onlyAt_insert.
      * split; [assumption|]. split; assumption.
Qed.

Lemma firstFailure_In ps e :
  firstFailure RF ps = Some e -> exists p, In p ps /\ readError RF p = Some e.
Proof.
  induction ps as [|p r IH]; cbn [firstFailure]; [discriminate|].
  destruct (readError RF p) as [e'|] eqn:Ep.
  - intros [= ->]. exists p. split; [now left | assumption].
  - intros H. destruct (IH H) as (q & Hq & He). exists q. split; [now right | assumption].
Qed.

(** Once the pass over [pre] has come to its end, the pass over
    [pre ++ rest] goes on with [rest]. *)
Lemma rangeContainers_prefix pre : forall st st1 rest,
  rangeContainers RF pre st = (Returned (Some st1) None, st1) ->
  rangeContainers RF (pre ++ rest) st = rangeContainers RF rest st1.
Proof.
  induction pre as [|a pre IH]; intros st st1 rest H.
  - cbn in H. injection H as <-. reflexivity.
  - cbn [app rangeContainers] in *.
    destruct (st !! a) as [ca|] eqn:Ea; [|now apply IH].
    pose proof (readContainer_spec a ca st Ea) as Hspec.
    destruct (firstFailure RF (Cgroups_paths ca)) as [e|].
    + destruct (IsNotExist e).
      * destruct Hspec as (st' & Hr & _). rewrite Hr in *. now apply IH.
      * destruct Hspec as (st' & Hr & _). rewrite Hr in *. discriminate H.
    + destruct Hspec as (cs' & st' & Hr & _). rewrite Hr in *. now apply IH.
Qed.

(** A pass in which no read fails for another reason than a missing
    file comes to its end; it removes every entry it reaches that has a
    missing file, adds none, and keeps the paths of those it leaves. *)
Lemma rangeContainers_no_other order : forall st,
  (forall k c, st !! k = Some c -> noOtherError RF (Cgroups_paths c)) ->
  exists st',
    rangeContainers RF order st = (Returned (Some st') None, st')
    /\ (forall k, st !! k = None -> st' !! k = None)
    /\ (forall k c, st !! k = Some c -> In k order ->
          anyMissing RF (Cgroups_paths c) -> st' !! k = None)
    /\ (forall k c', st' !! k = Some c' ->
          exists c, st !! k = Some c /\ Cgroups_paths c' = Cgroups_paths c).
Proof.
  induction order as [|a order IH]; intros st Hclean.
  - exists st. cbn. repeat split; [tauto | intros ? ? ? [] | eauto].
  - cbn [rangeContainers].
    destruct (st !! a) as [ca|] eqn:Ea.
    2:{ destruct (IH st Hclean) as (st' & Hr & Hnone & Hmiss & Hkeep).
        exists st'. repeat split; try assumption.
        intros k c Hk [<-|Hin] Hm; [congruence | eauto]. }
    pose proof (readContainer_spec a ca st Ea) as Hspec.
    destruct (firstFailure RF (Cgroups_paths ca)) as [e|] eqn:Ef.
    + (* a read of [a] fails: the file is missing *)
      destruct (firstFailure_In _ _ Ef) as (p & Hp & Hpe).
      rewrite (Hclean a ca Ea p e Hp Hpe) in Hspec.
      destruct Hspec as (st1 & -> & Hgone & Hother).
      destruct (IH st1) as (st' & Hr & Hnone & Hmiss & Hkeep).
      { intros k c Hk. destruct (decide (k = a)) as [->|Hne]; [congruence|].
        rewrite Hother in Hk by assumption. eauto. }
      exists st'. split; [assumption|]. repeat split.
      * intros k Hk. apply Hnone.
        destruct (decide (k = a)) as [->|Hne]; [assumption|].
        now rewrite Hother.
      * intros k c Hk Hin Hm.
        destruct (decide (k = a)) as [->|Hne]; [now apply Hnone|].
        destruct Hin as [<-|Hin]; [congruence|].
        apply (Hmiss k c); try assumption. now rewrite Hother.
      * intros k c' Hk. destruct (Hkeep k c' Hk) as (c & Hc & Hpc).
        destruct (decide (k = a)) as [->|Hne]; [congruence|].
        rewrite Hother in Hc by assumption. eauto.
    + (* every read of [a] succeeds *)
      destruct Hspec as (ca' & st1 & -> & Hpa & Hat & Hother).
      destruct (IH st1) as (st' & Hr & Hnone & Hmiss & Hkeep).
      { intros k c Hk. destruct (decide (k = a)) as [->|Hne].
        - rewrite Hat in Hk. injection Hk as <-. rewrite Hpa. eauto.
        - rewrite Hother in Hk by assumption. eauto. }
      exists st'. split; [assumption|]. repeat split.
      * intros k Hk. apply Hnone.
        destruct (decide (k = a)) as [->|Hne]; [congruence|].
        now rewrite Hother.
      * intros k c Hk Hin Hm.
        destruct (decide (k = a)) as [->|Hne].
        -- rewrite Ea in Hk. injection Hk as <-.
           destruct (firstFailure_missing RF _ (Hclean a ca Ea) Hm) as (e & He & _).
           congruence.
        -- destruct Hin as [<-|Hin]; [congruence|].
           apply (Hmiss k c); try assumption. now rewrite Hother.
      * intros k c' Hk. destruct (Hkeep k c' Hk) as (c & Hc & Hpc).
        destruct (decide (k = a)) as [->|Hne].
        -- rewrite Hat in Hc. injection Hc as <-. exists ca. split; congruence.
        -- rewrite Hother in Hc by assumption. eauto.
Qed.

End CgroupsFacts.

(** C2, as amended.  In a store state in which a container has a bound
    metric file whose read fails because the file is missing, and in
    which no read of a bound file fails for another reason,
    [ReadCgroups] removes the entry of that container, returns the
    mapping, which does not hold the container, and returns no error. *)
Theorem ReadCgroups_evicts
    (RF : string -> readResult) (order : list string)
    (st : gmap string Cgroups.ContainerStat)
    (id : string) (cs : Cgroups.ContainerStat) :
  iterationOrder order st ->
  st !! id = Some cs ->
  anyMissing RF (Cgroups_paths cs) ->
  (forall k c, st !! k = Some c -> noOtherError RF (Cgroups_paths c)) ->
  exists st',
    Cgroups.ReadCgroups RF order (Some st) = (Returned (Some st') None, Some st')
    /\ st' !! id = None.
Proof.
  intros [_ Hord] Hid Hmiss Hclean.
  destruct (rangeContainers_no_other RF order st Hclean)
    as (st' & Hr & _ & Hgone & _).
  exists st'. unfold Cgroups.ReadCgroups. rewrite Hr.
  split; [reflexivity|]. apply (Hgone id cs); try assumption.
  apply Hord. eauto.
Qed.

Section Samples.

Lemma iterationOrder_two {V} (k1 k2 : string) (v1 v2 : V) (order : list string) :
  k1 <> k2 -> (order = [k1; k2] \/ order = [k2; k1]) ->
  iterationOrder order (<[k1 := v1]> (<[k2 := v2]> ∅)).
Proof.
  intros Hne Horder. split.
  - destruct Horder as [-> | ->]; repeat constructor;
      rewrite ?list_elem_of_In; cbn; intuition congruence.
  - intros k. rewrite !lookup_insert_is_Some.
    pose proof (lookup_empty_is_Some (A := V) k) as Hempty.
    destruct Horder as [-> | ->]; cbn; intuition congruence.
Qed.

Lemma noOtherError_sample k c :
  storeAC !! k = Some c -> noOtherError sampleRF (Cgroups_paths c).
Proof.
  unfold storeAC. intros H.
  apply lookup_insert_Some in H as [[_ <-] | [_ H]];
    [|apply lookup_insert_Some in H as [[_ <-] | [_ H]];
      [|rewrite lookup_empty in H; discriminate H]];
    intros p e [<- | [<- | []]]; cbn; intros [= <-]; reflexivity.
Qed.

End Samples.

Lemma ReadCgroups_evicts_witness :
  exists st',
    Cgroups.ReadCgroups sampleRF ["c"; "a"] (Some storeAC)
    = (Returned (Some st') None, Some st')
    /\ st' !! "a" = None.
Proof.
  apply (ReadCgroups_evicts sampleRF ["c"; "a"] storeAC "a"
           (entryAt "/a/memory.stat")).
  - apply iterationOrder_two; [discriminate | now right].
  - reflexivity.
  - exists "/a/memory.stat", ErrNotExist. repeat split. now left.
  - exact noOtherError_sample.
Defined.

(** C2 as stated fails: with the missing file of container [a] and a
    file of container [b] that cannot be read for lack of permission,
    [ReadCgroups] returns that error and no mapping. *)
Lemma ReadCgroups_evicts_needs_no_other_error :
  ~ (forall (RF : string -> readResult) (order : list string)
       (st : gmap string Cgroups.ContainerStat)
       (id : string) (cs : Cgroups.ContainerStat),
       iterationOrder order st ->
       st !! id = Some cs ->
       anyMissing RF (Cgroups_paths cs) ->
       exists st',
         Cgroups.ReadCgroups RF order (Some st)
         = (Returned (Some st') None, Some st')
         /\ st' !! id = None).
Proof.
  intros H.
  destruct (H sampleRF ["a"; "b"] storeAB "a" (entryAt "/a/memory.stat"))
    as (st' & Hr & _).
  - apply iterationOrder_two; [discriminate | now left].
  - reflexivity.
  - exists "/a/memory.stat", ErrNotExist. repeat split. now left.
  - vm_compute in Hr. discriminate Hr.
Qed.

(** The same state, in both orders of its two keys. *)
Lemma ReadCgroups_missing_and_denied :
  Cgroups.ReadCgroups sampleRF ["a"; "b"] (Some storeAB)
  = (Returned None (Some ErrPermission), Some (delete "a" storeAB))
  /\ Cgroups.ReadCgroups sampleRF ["b"; "a"] (Some storeAB)
     = (Returned None (Some ErrPermission), Some storeAB).
Proof. split; vm_compute; reflexivity. Qed.

(** ** [ReadStats] of [part_002] *)

Section StatsFacts.

Import Stats.

Variable RF : string -> readResult.
Variable Now : string -> Z.

Lemma Stats_memLine_ok f i line m :
  Mem_CommonFields m = f ->
  exists m', memLine i line m = Some m' /\ Mem_CommonFields m' = f.
Proof.
  intros Hp. unfold memLine.
  destruct (length (Fields line) <? 2)%nat eqn:E; [eauto|].
  destruct (index_1 _ E) as [v Hv].
  destruct i as [|[|i]]; [rewrite Hv | rewrite Hv |]; cbn; eauto.
Qed.

Lemma Stats_cpuLine_ok f i line c :
  CPU_CommonFields c = f ->
  exists c', cpuLine i line c = Some c' /\ CPU_CommonFields c' = f.
Proof.
  intros Hp. unfold cpuLine.
  destruct (length (Fields line) <? 2)%nat eqn:E; [eauto|].
  destruct (index_1 _ E) as [v Hv].
  destruct i as [|[|i]]; [rewrite Hv | rewrite Hv |]; cbn; eauto.
Qed.

(** The parsers return for every content and keep the path. *)
Lemma MemStat_create_ok now m content :
  exists m', MemStat_create now m content = Some m'
             /\ path (Mem_CommonFields m') = path (Mem_CommonFields m).
Proof.
  unfold MemStat_create.
  destruct (length (Split content LF) <? 2)%nat; [eauto|].
  destruct (rangeFrom_inv memLine
              (fun x => Mem_CommonFields x = Mem_CommonFields m)
              (fun i x s => Stats_memLine_ok _ i x s)
              (Split content LF) 0%nat m eq_refl) as (m1 & -> & H1).
  cbn. eexists. split; [reflexivity|]. cbn. now rewrite H1.
Qed.

Lemma CPUStat_create_ok now c content :
  exists c', CPUStat_create now c content = Some c'
             /\ path (CPU_CommonFields c') = path (CPU_CommonFields c).
Proof.
  unfold CPUStat_create.
  destruct (length (Split content LF) <? 2)%nat; [eauto|].
  destruct (rangeFrom_inv cpuLine
              (fun x => CPU_CommonFields x = CPU_CommonFields c)
              (fun i x s => Stats_cpuLine_ok _ i x s)
              (Split content LF) 0%nat c eq_refl) as (c1 & -> & H1).
  cbn. eexists. split; [reflexivity|]. cbn. now rewrite H1.
Qed.

Lemma BlkServiced_create_ok now b content :
  exists b', BlkIO.BlkServiced_create now b content = Some b'
             /\ BlkIO.path b' = BlkIO.path b.
Proof.
  destruct (BlkServiced_create_total now b content) as [b' Hb'].
  exists b'. split; [assumption|].
  unfold BlkIO.BlkServiced_create in Hb'.
  destruct (BlkIO.scanLines 0 (Split content LF) BlkIO.scan0) as [s|];
    [|discriminate Hb'].
  cbn [mbind option_bind] in Hb'.
  match type of Hb' with
  | (?ds ≫= _) = _ => destruct ds as [ds'|]; [|discriminate Hb']
  end.
  cbn in Hb'. injection Hb' as <-. reflexivity.
Qed.

Lemma readMetric_leaves {T} (p : string)
    (get : ContainerStats -> T) (set : ContainerStats -> T -> ContainerStats)
    (create : Z -> T -> string -> option T) id cs st :
  (forall now obj b, exists t', create now (get obj) b = Some t'
      /\ Stats_paths (set obj t') = Stats_paths obj) ->
  st !! id = Some cs ->
  leaves (readError RF p) id cs st (readMetric RF Now p get set create id cs st).
Proof.
  intros Hcreate Hid. unfold readError, readMetric, readFile, leaves.
  destruct (String.eqb p ""); cbn [negb].
  - exists cs, st. split; [reflexivity|]. split; [reflexivity|].
    split; [assumption | apply onlyAt_refl].
  - destruct (RF p) as [b|e].
    + rewrite Hid. destruct (Hcreate (Now p) cs b) as (t' & -> & Hp).
      do 2 eexists. split; [reflexivity|]. split; [assumption|].
      split; [apply lookup_insert_eq | apply onlyAt_insert, onlyAt_refl].
    + destruct (IsNotExist e).
      * rewrite lookup_delete_eq. eexists. split; [reflexivity|].
        split; [apply lookup_delete_eq | apply onlyAt_delete, onlyAt_refl].
      * eexists. split; [reflexivity|]. split; [eauto | apply onlyAt_refl].
Qed.

Lemma leaves_andThen fe1 fe2 id cs st f k :
  leaves fe1 id cs st f ->
  (forall cs' st', Stats_paths cs' = Stats_paths cs -> st' !! id = Some cs' ->
     leaves fe2 id cs' st' (k cs' st')) ->
  leaves (match fe1 with Some e => Some e | None => fe2 end) id cs st
    (andThen f k).
Proof.
  intros Hf Hk. destruct fe1 as [e|]; cbn [leaves] in *.
  - destruct (IsNotExist e); destruct Hf as (st' & -> & H); cbn; eauto.
  - destruct Hf as (cs1 & st1 & -> & Hp1 & Hid1 & Hat1). cbn [andThen].
    specialize (Hk cs1 st1 Hp1 Hid1). destruct fe2 as [e|]; cbn [leaves] in *.
    + destruct (IsNotExist e); destruct Hk as (st' & -> & H1 & H2);
        eexists; (split; [reflexivity|]); (split; [assumption|]);
        eapply onlyAt_trans; eassumption.
    + destruct Hk as (cs2 & st2 & -> & Hp2 & Hid2 & Hat2).
      do 2 eexists. split; [reflexivity|]. split; [congruence|].
      split; [assumption|]. eapply onlyAt_trans; eassumption.
Qed.

(** What one iteration of the loop of [ReadStats] does. *)
Lemma Stats_readContainer_leaves id cs st :
  st !! id = Some cs ->
  leaves (firstFailure RF (Stats_paths cs)) id cs st
    (readContainer RF Now id cs st).
Proof.
  intros Hid. unfold readContainer. cbn [firstFailure Stats_paths].
  apply leaves_andThen.
  { apply readMetric_leaves; [|assumption]. intros now obj b.
    destruct (MemStat_create_ok now (Memory obj) b) as (m' & -> & Hp).
    eexists. split; [reflexivity|]. unfold Stats_paths. cbn. now rewrite Hp. }
  intros cs1 st1 Hp1 Hid1.
  injection Hp1 as _ <- <- <-.
  apply leaves_andThen.
  { apply readMetric_leaves; [|assumption]. intros now obj b.
    destruct (CPUStat_create_ok now (CPU obj) b) as (m' & -> & Hp).
    eexists. split; [reflexivity|]. unfold Stats_paths. cbn. now rewrite Hp. }
  intros cs2 st2 Hp2 Hid2.
  injection Hp2 as _ _ <- <-.
  apply leaves_andThen.
  { apply readMetric_leaves; [|assumption]. intros now obj b.
    destruct (BlkServiced_create_ok now (BlkIO.Bytes (BlkIO obj)) b) as (m' & -> & Hp).
    eexists. split; [reflexivity|]. unfold Stats_paths. cbn. now rewrite Hp. }
  intros cs3 st3 Hp3 Hid3.
  injection Hp3 as _ _ _ <-.
  replace (readError RF (BlkIO.path (BlkIO.IOPS (BlkIO cs3))))
    with (match readError RF (BlkIO.path (BlkIO.IOPS (BlkIO cs3))) with
          | Some e => Some e | None => None end)
    by (destruct (readError RF _); reflexivity).
  assert (Hlast : leaves (readError RF (BlkIO.path (BlkIO.IOPS (BlkIO cs3))))
            id cs3 st3
            (readMetric RF Now (BlkIO.path (BlkIO.IOPS (BlkIO cs3)))
               (fun c => BlkIO.IOPS (BlkIO c)) setIOPS
               BlkIO.BlkServiced_create id cs3 st3)).
  { apply readMetric_leaves; [|assumption]. intros now obj b.
    destruct (BlkServiced_create_ok now (BlkIO.IOPS (BlkIO obj)) b) as (m' & -> & Hp).
    eexists. split; [reflexivity|]. unfold Stats_paths. cbn. now rewrite Hp. }
  destruct (readError RF (BlkIO.path (BlkIO.IOPS (BlkIO cs3)))); exact Hlast.
Qed.

(** Once the pass over [pre] has come to its end, the pass over
    [pre ++ rest] goes on with [rest]. *)
Lemma rangeStats_prefix pre : forall st st1 rest,
  rangeStats RF Now pre st = (Returned (Some st1) None, st1) ->
  rangeStats RF Now (pre ++ rest) st = rangeStats RF Now rest st1.
Proof.
  induction pre as [|a pre IH]; intros st st1 rest H.
  - cbn in H. injection H as <-. reflexivity.
  - cbn [app rangeStats] in *.
    destruct (st !! a) as [ca|] eqn:Ea; [|now apply IH].
    pose proof (Stats_readContainer_leaves a ca st Ea) as Hspec.
    unfold leaves in Hspec.
    destruct (firstFailure RF (Stats_paths ca)) as [e|].
    + destruct (IsNotExist e);
        destruct Hspec as (st' & Hr & _); rewrite Hr in *; discriminate H.
    + destruct Hspec as (cs' & st' & Hr & _). rewrite Hr in *. now apply IH.
Qed.

End StatsFacts.

(** ** The map when a pass returns an error *)

Section UpToFacts.

Variable RF : string -> readResult.

Lemma iterationOrder_NoDup {V} (pre : list string) (id : string)
    (post : list string) (st : gmap string V) :
  iterationOrder (pre ++ id :: post) st ->
  List.NoDup pre /\ ~ In id pre /\ (forall k, In k post -> ~ In k pre /\ k <> id).
Proof.
  intros [Hnd _]. apply NoDup_ListNoDup in Hnd.
  split; [now apply List.NoDup_app_remove_r in Hnd|].
  split.
  - intros Hin. apply List.NoDup_remove_2 in Hnd. apply Hnd.
    apply in_or_app. now left.
  - intros k Hk. split.
    + intros Hin. revert Hnd. induction pre as [|a pre IH]; [destruct Hin|].
      cbn. intros Hnd. inversion Hnd as [|? ? Ha Hnd']; subst.
      destruct Hin as [->|Hin]; [|now apply IH].
      apply Ha. apply in_or_app. right. now right.
    + intros ->. apply List.NoDup_remove_2 in Hnd. apply Hnd.
      apply in_or_app. now right.
Qed.

(** *** [gocstat.go] *)

(** The second [if] of an iteration, for the entry [cs1] that the first
    one left. *)
Lemma Cgroups_readCPU_upTo id (st : gmap string Cgroups.ContainerStat) cs1 st1 :
  st1 !! id = Some cs1 -> onlyAt id st st1 ->
  match readError RF (Cgroups.CPU_path (Cgroups.CPU cs1)) with
  | None =>
      exists st',
        Cgroups.readCPU RF id cs1 st1
        = Fall (readUpTo [Cgroups_rereadCPU RF] cs1) st'
        /\ Cgroups_rereadCPU RF cs1 = Some (readUpTo [Cgroups_rereadCPU RF] cs1)
        /\ st' !! id = Some (readUpTo [Cgroups_rereadCPU RF] cs1)
        /\ onlyAt id st st'
  | Some e =>
      if IsNotExist e then
        exists st',
          Cgroups.readCPU RF id cs1 st1 = Next st'
          /\ Cgroups_rereadCPU RF cs1 = None
          /\ st' !! id = None /\ onlyAt id st st'
      else
        exists st',
          Cgroups.readCPU RF id cs1 st1 = Stop (Returned None (Some e)) st'
          /\ st' !! id = Some (readUpTo [Cgroups_rereadCPU RF] cs1)
          /\ onlyAt id st st'
  end.
Proof.
  intros Hid1 Hat1.
  unfold readError, Cgroups.readCPU. cbn [readUpTo]. unfold Cgroups_rereadCPU.
  destruct (String.eqb (Cgroups.CPU_path (Cgroups.CPU cs1)) ""); cbn [negb].
  - exists st1. repeat split; assumption.
  - destruct (RF (Cgroups.CPU_path (Cgroups.CPU cs1))) as [b|e].
    + destruct (createCPUStat_ok cs1 b) as (cs2 & -> & _).
      eexists. split; [reflexivity|]. split; [reflexivity|].
      split; [apply lookup_insert_eq | now apply onlyAt_insert].
    + destruct (IsNotExist e).
      * eexists. split; [reflexivity|]. split; [reflexivity|].
        split; [apply lookup_delete_eq | now apply onlyAt_delete].
      * exists st1. repeat split; assumption.
Qed.

(** One iteration of the loop of [ReadCgroups], by the first failure of
    its reads: the entry that it leaves. *)
Lemma Cgroups_readContainer_upTo id cs st :
  st !! id = Some cs ->
  match firstFailure RF (Cgroups_paths cs) with
  | None =>
      exists st',
        Cgroups.readContainer RF id cs st = Fall (Cgroups_readUpTo RF cs) st'
        /\ reread RF cs = Some (Cgroups_readUpTo RF cs)
        /\ st' !! id = Some (Cgroups_readUpTo RF cs) /\ onlyAt id st st'
  | Some e =>
      if IsNotExist e then
        exists st',
          Cgroups.readContainer RF id cs st = Next st'
          /\ reread RF cs = None
          /\ st' !! id = None /\ onlyAt id st st'
      else
        exists st',
          Cgroups.readContainer RF id cs st = Stop (Returned None (Some e)) st'
          /\ st' !! id = Some (Cgroups_readUpTo RF cs) /\ onlyAt id st st'
  end.
Proof.
  intros Hid.
  assert (Hsecond : forall cs1 st1,
    Cgroups.CPU_path (Cgroups.CPU cs1) = Cgroups.CPU_path (Cgroups.CPU cs) ->
    st1 !! id = Some cs1 -> onlyAt id st st1 ->
    match (match readError RF (Cgroups.CPU_path (Cgroups.CPU cs)) with
           | Some e => Some e | None => None end) with
    | None =>
        exists st',
          Cgroups.readCPU RF id cs1 st1
          = Fall (readUpTo [Cgroups_rereadCPU RF] cs1) st'
          /\ Cgroups_rereadCPU RF cs1 = Some (readUpTo [Cgroups_rereadCPU RF] cs1)
          /\ st' !! id = Some (readUpTo [Cgroups_rereadCPU RF] cs1)
          /\ onlyAt id st st'
    | Some e =>
        if IsNotExist e then
          exists st',
            Cgroups.readCPU RF id cs1 st1 = Next st'
            /\ Cgroups_rereadCPU RF cs1 = None
            /\ st' !! id = None /\ onlyAt id st st'
        else
          exists st',
            Cgroups.readCPU RF id cs1 st1 = Stop (Returned None (Some e)) st'
            /\ st' !! id = Some (readUpTo [Cgroups_rereadCPU RF] cs1)
            /\ onlyAt id st st'
    end).
  { intros cs1 st1 Hp Hid1 Hat1.
    pose proof (Cgroups_readCPU_upTo id st cs1 st1 Hid1 Hat1) as H.
    rewrite Hp in H.
    destruct (readError RF (Cgroups.CPU_path (Cgroups.CPU cs))); exact H. }
  unfold Cgroups.readContainer, Cgroups.readMemory, Cgroups_readUpTo.
  cbn [firstFailure Cgroups_paths readUpTo].
  change (reread RF cs)
    with (Cgroups_rereadMemory RF cs ≫= Cgroups_rereadCPU RF).
  unfold readError at 1. unfold Cgroups_rereadMemory.
  destruct (String.eqb (Cgroups.Mem_path (Cgroups.Memory cs)) ""); cbn [negb].
  - cbn [mbind option_bind].
    apply Hsecond; [reflexivity | assumption | apply onlyAt_refl].
  - destruct (RF (Cgroups.Mem_path (Cgroups.Memory cs))) as [b|e].
    + destruct (createMemStat_ok cs b) as (cs1 & -> & Hp1).
      cbn [mbind option_bind].
      apply Hsecond.
      * unfold Cgroups_paths in Hp1. congruence.
      * apply lookup_insert_eq.
      * apply onlyAt_insert, onlyAt_refl.
    + destruct (IsNotExist e).
      * eexists. split; [reflexivity|]. split; [reflexivity|].
        split; [apply lookup_delete_eq | apply onlyAt_delete, onlyAt_refl].
      * exists st. split; [reflexivity|]. split; [assumption | apply onlyAt_refl].
Qed.

(** The pass through the containers [pre], none of which has a first
    failure other than a missing file. *)
Lemma rangeContainers_through pre : forall st,
  List.NoDup pre ->
  (forall k c e, In k pre -> st !! k = Some c ->
     firstFailure RF (Cgroups_paths c) = Some e -> IsNotExist e = true) ->
  exists st1,
    (forall rest, Cgroups.rangeContainers RF (pre ++ rest) st
                  = Cgroups.rangeContainers RF rest st1)
    /\ (forall k c, In k pre -> st !! k = Some c -> st1 !! k = reread RF c)
    /\ (forall k, ~ In k pre -> st1 !! k = st !! k).
Proof.
  induction pre as [|a pre IH]; intros st Hnd Hpre.
  - exists st. repeat split. intros k c [].
  - inversion Hnd as [|? ? Ha Hnd']; subst.
    assert (Hnext : forall st',
      onlyAt a st st' ->
      exists st1,
        (forall rest, Cgroups.rangeContainers RF (pre ++ rest) st'
                      = Cgroups.rangeContainers RF rest st1)
        /\ (forall k c, In k pre -> st !! k = Some c -> st1 !! k = reread RF c)
        /\ (forall k, ~ In k pre -> st1 !! k = st' !! k)).
    { intros st' Hat.
      destruct (IH st' Hnd') as (st1 & Hr & Hin & Hout).
      - intros k c e Hk Hc. apply (Hpre k c e); [now right|].
        rewrite <- Hc. symmetry. apply Hat. intros ->. contradiction.
      - exists st1. split; [assumption|]. split; [|assumption].
        intros k c Hk Hc. apply Hin; [assumption|].
        rewrite <- Hc. apply Hat. intros ->. contradiction. }
    cbn [app Cgroups.rangeContainers].
    destruct (st !! a) as [ca|] eqn:Ea.
    + pose proof (Cgroups_readContainer_upTo a ca st Ea) as Hspec.
      pose proof (Hpre a ca) as Hstop.
      destruct (firstFailure RF (Cgroups_paths ca)) as [e|].
      * rewrite (Hstop e (or_introl eq_refl) Ea eq_refl) in Hspec.
        destruct Hspec as (st' & Hrc & Hre & Hgone & Hat).
        destruct (Hnext st' Hat) as (st1 & Hr & Hin & Hout).
        exists st1. split; [intros rest; rewrite Hrc; apply Hr|]. split.
        -- intros k c [<-|Hk] Hc; [|now apply Hin].
           rewrite (Hout a Ha), Hgone. congruence.
        -- intros k Hk. rewrite Hout by (intros Hin'; apply Hk; now right).
           apply Hat. intros ->. apply Hk. now left.
      * destruct Hspec as (st' & Hrc & Hre & Hnew & Hat).
        destruct (Hnext st' Hat) as (st1 & Hr & Hin & Hout).
        exists st1. split; [intros rest; rewrite Hrc; apply Hr|]. split.
        -- intros k c [<-|Hk] Hc; [|now apply Hin].
           rewrite (Hout a Ha), Hnew. congruence.
        -- intros k Hk. rewrite Hout by (intros Hin'; apply Hk; now right).
           apply Hat. intros ->. apply Hk. now left.
    + destruct (Hnext st (onlyAt_refl a st)) as (st1 & Hr & Hin & Hout).
      exists st1. split; [assumption|]. split.
      * intros k c [<-|Hk] Hc; [congruence | now apply Hin].
      * intros k Hk. apply Hout. intros Hin'. apply Hk. now right.
Qed.

End UpToFacts.

Section StatsUpToFacts.

Import Stats.

Variable RF : string -> readResult.
Variable Now : string -> Z.

Lemma andThen_Fall (f : flow ContainerStats Stats) : andThen f Fall = f.
Proof. destruct f; reflexivity. Qed.

(** One [if] of an iteration and what follows it. *)
Lemma Stats_readMetric_reaches {T} (p : string)
    (get : ContainerStats -> T) (set : ContainerStats -> T -> ContainerStats)
    (create : Z -> T -> string -> option T)
    (step : ContainerStats -> option ContainerStats)
    id (st0 : Stats) cs st k rest fe_rest :
  (forall now obj b, exists t', create now (get obj) b = Some t'
      /\ Stats_paths (set obj t') = Stats_paths obj) ->
  step cs = Stats_rereadMetric RF Now p get set create cs ->
  st !! id = Some cs -> onlyAt id st0 st ->
  (forall cs1 st1,
     Stats_paths cs1 = Stats_paths cs -> st1 !! id = Some cs1 ->
     onlyAt id st0 st1 ->
     reaches fe_rest id st0 (k cs1 st1) (readUpTo rest cs1)) ->
  reaches (match readError RF p with Some e => Some e | None => fe_rest end)
    id st0
    (andThen (readMetric RF Now p get set create id cs st) k)
    (readUpTo (step :: rest) cs).
Proof.
  intros Hcreate Hstep Hid Hat Hk. cbn [readUpTo]. rewrite Hstep.
  unfold readError, readMetric, readFile, Stats_rereadMetric.
  destruct (String.eqb p ""); cbn [negb andThen].
  - apply Hk; [reflexivity | assumption | assumption].
  - destruct (RF p) as [b|e].
    + rewrite Hid. destruct (Hcreate (Now p) cs b) as (t' & -> & Hp).
      cbn [mbind option_bind andThen].
      apply Hk; [assumption | apply lookup_insert_eq | now apply onlyAt_insert].
    + cbn [reaches]. intros He. rewrite He. cbn [andThen].
      exists st. repeat split; assumption.
Qed.

(** One iteration of the loop of [ReadStats], by the first failure of
    its reads: the entry that it leaves. *)
Lemma Stats_readContainer_upTo id cs st :
  st !! id = Some cs ->
  reaches (firstFailure RF (Stats_paths cs)) id st
    (readContainer RF Now id cs st) (Stats_readUpTo RF Now cs).
Proof.
  intros Hid. unfold readContainer, Stats_readUpTo.
  cbn [firstFailure Stats_paths].
  apply Stats_readMetric_reaches;
    [|reflexivity | assumption | apply onlyAt_refl|].
  { intros now obj b.
    destruct (MemStat_create_ok now (Memory obj) b) as (m' & -> & Hp).
    eexists. split; [reflexivity|]. unfold Stats_paths. cbn. now rewrite Hp. }
  intros cs1 st1 Hp1 Hid1 Hat1. injection Hp1 as _ <- <- <-.
  apply Stats_readMetric_reaches; [|reflexivity | assumption | assumption|].
  { intros now obj b.
    destruct (CPUStat_create_ok now (CPU obj) b) as (m' & -> & Hp).
    eexists. split; [reflexivity|]. unfold Stats_paths. cbn. now rewrite Hp. }
  intros cs2 st2 Hp2 Hid2 Hat2. injection Hp2 as _ _ <- <-.
  apply Stats_readMetric_reaches; [|reflexivity | assumption | assumption|].
  { intros now obj b.
    destruct (BlkServiced_create_ok now (BlkIO.Bytes (BlkIO obj)) b)
      as (m' & -> & Hp).
    eexists. split; [reflexivity|]. unfold Stats_paths. cbn. now rewrite Hp. }
  intros cs3 st3 Hp3 Hid3 Hat3. injection Hp3 as _ _ _ <-.
  rewrite <- (andThen_Fall (readMetric RF Now _ _ _ _ id cs3 st3)).
  apply Stats_readMetric_reaches; [|reflexivity | assumption | assumption|].
  { intros now obj b.
    destruct (BlkServiced_create_ok now (BlkIO.IOPS (BlkIO obj)) b)
      as (m' & -> & Hp).
    eexists. split; [reflexivity|]. unfold Stats_paths. cbn. now rewrite Hp. }
  intros cs4 st4 _ Hid4 Hat4. exists st4. repeat split; assumption.
Qed.

(** The pass through the containers [pre], all of whose reads succeed. *)
Lemma rangeStats_through pre : forall st,
  List.NoDup pre ->
  (forall k c, In k pre -> st !! k = Some c ->
     firstFailure RF (Stats_paths c) = None) ->
  exists st1,
    (forall rest, rangeStats RF Now (pre ++ rest) st
                  = rangeStats RF Now rest st1)
    /\ (forall k c, In k pre -> st !! k = Some c ->
          st1 !! k = Some (Stats_readUpTo RF Now c))
    /\ (forall k, ~ In k pre -> st1 !! k = st !! k).
Proof.
  induction pre as [|a pre IH]; intros st Hnd Hpre.
  - exists st. repeat split. intros k c [].
  - inversion Hnd as [|? ? Ha Hnd']; subst.
    assert (Hnext : forall st',
      onlyAt a st st' ->
      exists st1,
        (forall rest, rangeStats RF Now (pre ++ rest) st'
                      = rangeStats RF Now rest st1)
        /\ (forall k c, In k pre -> st !! k = Some c ->
              st1 !! k = Some (Stats_readUpTo RF Now c))
        /\ (forall k, ~ In k pre -> st1 !! k = st' !! k)).
    { intros st' Hat.
      destruct (IH st' Hnd') as (st1 & Hr & Hin & Hout).
      - intros k c Hk Hc. apply (Hpre k c); [now right|].
        rewrite <- Hc. symmetry. apply Hat. intros ->. contradiction.
      - exists st1. split; [assumption|]. split; [|assumption].
        intros k c Hk Hc. apply Hin; [assumption|].
        rewrite <- Hc. apply Hat. intros ->. contradiction. }
    cbn [app rangeStats].
    destruct (st !! a) as [ca|] eqn:Ea.
    + pose proof (Stats_readContainer_upTo a ca st Ea) as Hspec.
      rewrite (Hpre a ca (or_introl eq_refl) Ea) in Hspec.
      destruct Hspec as (st' & Hrc & Hnew & Hat).
      destruct (Hnext st' Hat) as (st1 & Hr & Hin & Hout).
      exists st1. split; [intros rest; rewrite Hrc; apply Hr|]. split.
      * intros k c [<-|Hk] Hc; [|now apply Hin].
        rewrite (Hout a Ha), Hnew. congruence.
      * intros k Hk. rewrite Hout by (intros Hin'; apply Hk; now right).
        apply Hat. intros ->. apply Hk. now left.
    + destruct (Hnext st (onlyAt_refl a st)) as (st1 & Hr & Hin & Hout).
      exists st1. split; [assumption|]. split.
      * intros k c [<-|Hk] Hc; [congruence | now apply Hin].
      * intros k Hk. apply Hout. intros Hin'. apply Hk. now right.
Qed.

End StatsUpToFacts.

(** C4, as amended.  Let a pass go through the containers in the order
    [pre], [id], [post], where no container of [pre] stops it, and let
    the first read of a bound file of [id] that fails fail with [e],
    another error than a missing file.  Then the call returns [e] and
    a nil mapping, and the map is left as follows: every container of
    [pre] has the counters that the pass parsed from its files (in
    [ReadCgroups] its entry is removed when a file of it is missing);
    the entry of [id] has the counters of its files read before the
    failing one; every other entry is as it was.

    For [ReadCgroups] of [gocstat.go] a container of [pre] does not
    stop the pass when the first failure of its reads, if any, is a
    missing file; for [ReadStats] of [part_002], when all its reads
    succeed. *)
Theorem read_error_aborts_pass :
  (forall (RF : string -> readResult) (pre : list string) (id : string)
          (post : list string) (st : gmap string Cgroups.ContainerStat)
          (cs : Cgroups.ContainerStat) (e : error),
     iterationOrder (pre ++ id :: post) st ->
     (forall k c e', In k pre -> st !! k = Some c ->
        firstFailure RF (Cgroups_paths c) = Some e' -> IsNotExist e' = true) ->
     st !! id = Some cs ->
     firstFailure RF (Cgroups_paths cs) = Some e ->
     IsNotExist e = false ->
     exists st2,
       Cgroups.ReadCgroups RF (pre ++ id :: post) (Some st)
       = (Returned None (Some e), Some st2)
       /\ (forall k c, In k pre -> st !! k = Some c -> st2 !! k = reread RF c)
       /\ st2 !! id = Some (Cgroups_readUpTo RF cs)
       /\ (forall k, ~ In k pre -> k <> id -> st2 !! k = st !! k))
  /\
  (forall (RF : string -> readResult) (Now : string -> Z)
          (pre : list string) (id : string)
          (post : list string) (st : gmap string Stats.ContainerStats)
          (cs : Stats.ContainerStats) (e : error),
     iterationOrder (pre ++ id :: post) st ->
     (forall k c, In k pre -> st !! k = Some c ->
        firstFailure RF (Stats_paths c) = None) ->
     st !! id = Some cs ->
     firstFailure RF (Stats_paths cs) = Some e ->
     IsNotExist e = false ->
     exists st2,
       Stats.ReadStats RF Now (pre ++ id :: post) (Some st)
       = (Returned None (Some e), Some st2)
       /\ (forall k c, In k pre -> st !! k = Some c ->
             st2 !! k = Some (Stats_readUpTo RF Now c))
       /\ st2 !! id = Some (Stats_readUpTo RF Now cs)
       /\ (forall k, ~ In k pre -> k <> id -> st2 !! k = st !! k)).
Proof.
  split.
  - intros RF pre id post st cs e Hord Hpre Hid Hfail Hkind.
    destruct (iterationOrder_NoDup pre id post st Hord) as (Hnd & Hnot & _).
    destruct (rangeContainers_through RF pre st Hnd Hpre)
      as (st1 & Hr & Hin & Hout).
    assert (Hid1 : st1 !! id = Some cs) by (rewrite (Hout id Hnot); exact Hid).
    pose proof (Cgroups_readContainer_upTo RF id cs st1 Hid1) as Hspec.
    rewrite Hfail, Hkind in Hspec. destruct Hspec as (st2 & Hrc & Hnew & Hat).
    exists st2. unfold Cgroups.ReadCgroups. rewrite Hr.
    cbn [Cgroups.rangeContainers]. rewrite Hid1, Hrc.
    split; [reflexivity|]. split; [|split; [assumption|]].
    + intros k c Hk Hc. rewrite <- (Hin k c Hk Hc). apply Hat.
      intros ->. contradiction.
    + intros k Hk Hne. rewrite (Hat k Hne). now apply Hout.
  - intros RF Now pre id post st cs e Hord Hpre Hid Hfail Hkind.
    destruct (iterationOrder_NoDup pre id post st Hord) as (Hnd & Hnot & _).
    destruct (rangeStats_through RF Now pre st Hnd Hpre)
      as (st1 & Hr & Hin & Hout).
    assert (Hid1 : st1 !! id = Some cs) by (rewrite (Hout id Hnot); exact Hid).
    pose proof (Stats_readContainer_upTo RF Now id cs st1 Hid1) as Hspec.
    rewrite Hfail in Hspec. destruct (Hspec Hkind) as (st2 & Hrc & Hnew & Hat).
    exists st2. unfold Stats.ReadStats. rewrite Hr.
    cbn [Stats.rangeStats]. rewrite Hid1, Hrc.
    split; [reflexivity|]. split; [|split; [assumption|]].
    + intros k c Hk Hc. rewrite <- (Hin k c Hk Hc). apply Hat.
      intros ->. contradiction.
    + intros k Hk Hne. rewrite (Hat k Hne). now apply Hout.
Qed.

Lemma read_error_aborts_pass_witness :
  (exists st2,
     Cgroups.ReadCgroups sampleRF2 ["c"; "d"] (Some storeCD)
     = (Returned None (Some ErrPermission), Some st2)
     /\ st2 !! "c" = Some entryCRead
     /\ st2 !! "d" = Some entryDRead)
  /\ (exists st2 c d,
        Stats.ReadStats sampleRF2 (fun _ => 7) ["c"; "d"] (Some statsCD)
        = (Returned None (Some ErrPermission), Some st2)
        /\ st2 !! "c" = Some c
        /\ Stats.Memory c
           = {| Stats.Mem_CommonFields :=
                  {| Stats.path := "/c/memory.stat"; Stats.Timestamp := 7 |};
                Stats.RSS := 200; Stats.Cache := 100 |}
        /\ st2 !! "d" = Some d
        /\ Stats.Memory d
           = {| Stats.Mem_CommonFields :=
                  {| Stats.path := "/d/memory.stat"; Stats.Timestamp := 7 |};
                Stats.RSS := 4; Stats.Cache := 3 |}
        /\ Stats.CPU d
           = {| Stats.CPU_CommonFields :=
                  {| Stats.path := "/d/cpuacct.stat"; Stats.Timestamp := 0 |};
                Stats.User := 0; Stats.System := 0 |}).
Proof.
  split.
  - destruct (proj1 read_error_aborts_pass sampleRF2 ["c"] "d" []
                storeCD entryD ErrPermission)
      as (st2 & Hr & Hpre & Hid & _).
    + apply iterationOrder_two; [discriminate | now left].
    + intros k c e' [<-|[]] [= <-]. vm_compute. discriminate.
    + reflexivity.
    + reflexivity.
    + reflexivity.
    + exists st2. split; [exact Hr|]. split.
      * rewrite (Hpre "c" _ (or_introl eq_refl) eq_refl). reflexivity.
      * rewrite Hid. reflexivity.
  - destruct (proj2 read_error_aborts_pass sampleRF2 (fun _ => 7) ["c"] "d" []
                statsCD
                (Stats.bind
                   (Stats.bind Stats.zeroStats "memory.stat" "/d/memory.stat")
                   "cpuacct.stat" "/d/cpuacct.stat")
                ErrPermission)
      as (st2 & Hr & Hpre & Hid & _).
    + apply iterationOrder_two; [discriminate | now left].
    + intros k c [<-|[]] [= <-]. reflexivity.
    + reflexivity.
    + reflexivity.
    + reflexivity.
    + do 3 eexists. split; [exact Hr|].
      split; [exact (Hpre "c" _ (or_introl eq_refl) eq_refl)|].
      split; [reflexivity|]. split; [exact Hid|].
      split; reflexivity.
Defined.

(** C4 as stated fails: container [a] has a missing memory file and a
    CPU file whose read fails for lack of permission.  [ReadCgroups]
    removes the entry at the missing file and goes on; the CPU file is
    never read, and the call returns the map and no error. *)
Lemma read_error_must_be_reached :
  ~ (forall (RF : string -> readResult) (order : list string)
       (st : gmap string Cgroups.ContainerStat)
       (id : string) (cs : Cgroups.ContainerStat) (p : string) (e : error),
       iterationOrder order st ->
       st !! id = Some cs ->
       In p (Cgroups_paths cs) ->
       readError RF p = Some e ->
       IsNotExist e = false ->
       exists st2,
         Cgroups.ReadCgroups RF order (Some st)
         = (Returned None (Some e), st2)).
Proof.
  intros H.
  destruct (H sampleRF2 ["a"] storeA "a"
              (Cgroups.setCPUPath (entryAt "/a/memory.stat") "/a/cpuacct.stat")
              "/a/cpuacct.stat" ErrPermission)
    as (st2 & Hr).
  - split.
    + repeat constructor. rewrite list_elem_of_In. cbn. tauto.
    + intros k. unfold storeA. rewrite lookup_insert_is_Some.
      pose proof (lookup_empty_is_Some (A := Cgroups.ContainerStat) k).
      cbn. intuition congruence.
  - reflexivity.
  - right. now left.
  - reflexivity.
  - reflexivity.
  - vm_compute in Hr. discriminate Hr.
Qed.

(** What the call returns there. *)
Lemma ReadCgroups_missing_then_denied :
  Cgroups.ReadCgroups sampleRF2 ["a"] (Some storeA)
  = (Returned (Some ∅) None, Some ∅).
Proof. vm_compute. reflexivity. Qed.

(** C10.  In [ReadStats] of [part_002], [readFile] on a missing file
    removes the entry of the container and returns an empty content and
    no error; the statement that follows looks the key up again, finds
    no entry, and selects the field to parse into through a nil
    pointer.  So a pass that has gone through the containers [pre] and
    then, at container [id], reads a bound file that is missing, ends
    in a panic, the entry removed, and does not go on to the containers
    [post]. *)
Theorem ReadStats_missing_file_panics
    (RF : string -> readResult) (Now : string -> Z) :
  (forall (p id : string) (st : gmap string Stats.ContainerStats) (e : error),
     RF p = ReadErr e -> IsNotExist e = true ->
     Stats.readFile RF p id st = (("", None), delete id st))
  /\
  (forall (T : Type) (p : string) (get : Stats.ContainerStats -> T)
          (set : Stats.ContainerStats -> T -> Stats.ContainerStats)
          (create : Z -> T -> string -> option T)
          (id : string) (cs : Stats.ContainerStats)
          (st : gmap string Stats.ContainerStats) (e : error),
     p <> "" -> RF p = ReadErr e -> IsNotExist e = true ->
     Stats.readMetric RF Now p get set create id cs st
     = Stop Panicked (delete id st))
  /\
  (forall (pre : list string) (id : string) (post : list string)
          (st st1 : gmap string Stats.ContainerStats)
          (cs : Stats.ContainerStats) (e : error),
     Stats.rangeStats RF Now pre st = (Returned (Some st1) None, st1) ->
     st1 !! id = Some cs ->
     firstFailure RF (Stats_paths cs) = Some e ->
     IsNotExist e = true ->
     exists st2,
       Stats.ReadStats RF Now (pre ++ id :: post) (Some st)
       = (Panicked, Some st2)
       /\ st2 !! id = None
       /\ forall k, k <> id -> st2 !! k = st1 !! k).
Proof.
  split; [|split].
  - intros p id st e Hp He. unfold Stats.readFile. now rewrite Hp, He.
  - intros T p get set create id cs st e Hne Hp He.
    unfold Stats.readMetric, Stats.readFile.
    apply String.eqb_neq in Hne. rewrite Hne, Hp, He. cbn [negb].
    now rewrite lookup_delete_eq.
  - intros pre id post st st1 cs e Hpre Hid Hfail Hkind.
    unfold Stats.ReadStats.
    rewrite (rangeStats_prefix RF Now pre st st1 (id :: post) Hpre).
    cbn [Stats.rangeStats]. rewrite Hid.
    pose proof (Stats_readContainer_leaves RF Now id cs st1 Hid) as Hspec.
    unfold leaves in Hspec.
    rewrite Hfail, Hkind in Hspec. destruct Hspec as (st2 & -> & Hnone & Hat).
    exists st2. repeat split; assumption.
Qed.

Lemma ReadStats_missing_file_panics_witness :
  exists st2,
    Stats.ReadStats sampleRF (fun _ => 0) ["a"] (Some statsA)
    = (Panicked, Some st2)
    /\ st2 !! "a" = None.
Proof.
  destruct (proj2 (proj2 (ReadStats_missing_file_panics sampleRF (fun _ => 0)))
              [] "a" [] statsA statsA
              (Stats.bind Stats.zeroStats "memory.stat" "/a/memory.stat")
              ErrNotExist)
    as (st2 & Hr & Hnone & _).
  - reflexivity.
  - reflexivity.
  - reflexivity.
  - reflexivity.
  - exists st2. split; [exact Hr | exact Hnone].
Defined.

(* ================================================================== *)
(** * The discovery walk *)
(* ================================================================== *)

Section WalkFacts.

Variable FSM : string -> list string.

(** *** [part_002] *)

Lemma Stats_walkFn_no_error v st : (Stats.walkFn FSM v st).1 = None.
Proof.
  unfold Stats.walkFn. destruct v as [p info | p info e]; [|reflexivity].
  destruct (FSM p) as [|m0 [|id t]]; try reflexivity.
  destruct (IsDir info); destruct (st !! id); reflexivity.
Qed.

Lemma Stats_Walk_cons v rest st :
  Stats.Walk FSM (v :: rest) st = Stats.Walk FSM rest (Stats.walkFn FSM v st).2.
Proof.
  cbn [Stats.Walk]. pose proof (Stats_walkFn_no_error v st) as H.
  destruct (Stats.walkFn FSM v st) as [[e|] st']; [discriminate H | reflexivity].
Qed.

(** With the callback of [part_002] the walk visits every entry and
    returns no error, and so does [updatePaths]. *)
Lemma Stats_Walk_no_error visits : forall st, (Stats.Walk FSM visits st).1 = None.
Proof.
  induction visits as [|v rest IH]; intros st; [reflexivity|].
  rewrite Stats_Walk_cons. apply IH.
Qed.

Lemma Stats_updatePaths_no_error ErrorString path visits st :
  (Stats.updatePaths FSM ErrorString path visits st).1 = None.
Proof.
  unfold Stats.updatePaths. pose proof (Stats_Walk_no_error visits st) as H.
  destruct (Stats.Walk FSM visits st) as [[e|] st']; [discriminate H | reflexivity].
Qed.

(** An entry that a call of [walkFn] leaves in the map was there before,
    or the call is the visit of a directory whose path captures the key. *)
Lemma Stats_walkFn_keys v st k :
  is_Some ((Stats.walkFn FSM v st).2 !! k) ->
  is_Some (st !! k)
  \/ exists p info, v = Visit p info /\ IsDir info = true
                    /\ capture FSM p = Some k.
Proof.
  unfold Stats.walkFn, capture. destruct v as [p info | p info e]; [|now left].
  destruct (FSM p) as [|m0 [|id t]] eqn:EF; try (now left).
  destruct (IsDir info) eqn:Edir; destruct (st !! id) eqn:Eid; cbn [snd];
    try (now left).
  - rewrite lookup_insert_is_Some. intros [<- | [_ H]]; [right | now left].
    exists p, info. split; [reflexivity|]. split; [assumption|].
    now rewrite EF.
  - rewrite lookup_insert_is_Some. intros [<- | [_ H]]; [left; eauto | now left].
Qed.

Lemma Stats_Walk_keys visits : forall st k,
  is_Some ((Stats.Walk FSM visits st).2 !! k) ->
  is_Some (st !! k)
  \/ exists p info, In (Visit p info) visits /\ IsDir info = true
                    /\ capture FSM p = Some k.
Proof.
  induction visits as [|v rest IH]; intros st k H; [now left|].
  rewrite Stats_Walk_cons in H.
  destruct (IH _ _ H) as [Hk | (p & info & Hin & Hd & Hc)].
  - destruct (Stats_walkFn_keys v st k Hk) as [Hst | (p & info & -> & Hd & Hc)];
      [now left | right].
    exists p, info. repeat split; [now left | assumption | assumption].
  - right. exists p, info. repeat split; [now right | assumption | assumption].
Qed.

(** The visit of a regular file keeps the keys of the map. *)
Lemma Stats_walkFn_file_dom p info st :
  IsDir info = false -> dom (Stats.walkFn FSM (Visit p info) st).2 = dom st.
Proof.
  intros Hd. unfold Stats.walkFn. rewrite Hd.
  destruct (FSM p) as [|m0 [|id t]]; try reflexivity.
  destruct (st !! id) eqn:Eid; cbn [snd]; [|reflexivity].
  rewrite dom_insert_L. apply elem_of_dom_2 in Eid.
  apply subseteq_union_1_L. now apply singleton_subseteq_l.
Qed.

(** The visit of a regular file whose container has no entry changes
    nothing; with an entry, it rebinds the entry by the base name. *)
Lemma Stats_walkFn_file p info st id :
  IsDir info = false -> capture FSM p = Some id ->
  (Stats.walkFn FSM (Visit p info) st).2
  = match st !! id with
    | None => st
    | Some cs => <[id := Stats.bind cs (Base (Name info)) p]> st
    end.
Proof.
  intros Hd Hc. unfold Stats.walkFn, capture in *. rewrite Hd.
  destruct (FSM p) as [|m0 [|id' t]]; try discriminate Hc.
  injection Hc as ->. destruct (st !! id); reflexivity.
Qed.

(** *** [gocstat.go] *)

Variable MemFile CPUFile : string.

Lemma Cgroups_walkFn_keys v st k :
  is_Some ((Cgroups.walkFn FSM MemFile CPUFile v st).2 !! k) ->
  is_Some (st !! k)
  \/ exists p info, v = Visit p info /\ IsDir info = true
                    /\ capture FSM p = Some k.
Proof.
  unfold Cgroups.walkFn, capture. destruct v as [p info | p info e]; [|now left].
  destruct (FSM p) as [|m0 [|id t]] eqn:EF; try (now left).
  destruct (IsDir info) eqn:Edir; destruct (st !! id) eqn:Eid; cbn [snd];
    try (now left).
  - rewrite lookup_insert_is_Some. intros [<- | [_ H]]; [right | now left].
    exists p, info. split; [reflexivity|]. split; [assumption|].
    now rewrite EF.
  - rewrite lookup_insert_is_Some. intros [<- | [_ H]]; [left; eauto | now left].
Qed.

Lemma Cgroups_Walk_keys visits : forall st k,
  is_Some ((Cgroups.Walk FSM MemFile CPUFile visits st).2 !! k) ->
  is_Some (st !! k)
  \/ exists p info, In (Visit p info) visits /\ IsDir info = true
                    /\ capture FSM p = Some k.
Proof.
  induction visits as [|v rest IH]; intros st k H; [now left|].
  cbn [Cgroups.Walk] in H.
  assert (Hstep : is_Some ((Cgroups.walkFn FSM MemFile CPUFile v st).2 !! k)
                  \/ exists p info, In (Visit p info) rest /\ IsDir info = true
                                    /\ capture FSM p = Some k).
  { destruct (Cgroups.walkFn FSM MemFile CPUFile v st) as [[e|] st'];
      [now left | exact (IH _ _ H)]. }
  destruct Hstep as [Hk | (p & info & Hin & Hd & Hc)].
  - destruct (Cgroups_walkFn_keys v st k Hk) as [Hst | (p & info & -> & Hd & Hc)];
      [now left | right].
    exists p, info. repeat split; [now left | assumption | assumption].
  - right. exists p, info. repeat split; [now right | assumption | assumption].
Qed.

Lemma Cgroups_walkFn_file_dom p info st :
  IsDir info = false ->
  dom (Cgroups.walkFn FSM MemFile CPUFile (Visit p info) st).2 = dom st.
Proof.
  intros Hd. unfold Cgroups.walkFn. rewrite Hd.
  destruct (FSM p) as [|m0 [|id t]]; try reflexivity.
  destruct (st !! id) eqn:Eid; cbn [snd]; [|reflexivity].
  rewrite dom_insert_L. apply elem_of_dom_2 in Eid.
  apply subseteq_union_1_L. now apply singleton_subseteq_l.
Qed.

Lemma Cgroups_walkFn_file p info st id :
  IsDir info = false -> capture FSM p = Some id ->
  (Cgroups.walkFn FSM MemFile CPUFile (Visit p info) st).2
  = match st !! id with
    | None => st
    | Some cs =>
        let cs1 := if String.eqb (Base (Name info)) MemFile
                   then Cgroups.setMemPath cs p else cs in
        <[id := if String.eqb (Base (Name info)) CPUFile
                then Cgroups.setCPUPath cs1 p else cs1]> st
    end.
Proof.
  intros Hd Hc. unfold Cgroups.walkFn, capture in *. rewrite Hd.
  destruct (FSM p) as [|m0 [|id' t]]; try discriminate Hc.
  injection Hc as ->. destruct (st !! id); reflexivity.
Qed.

End WalkFacts.

(** C6.  In a walk that starts from the empty map, every entry of the
    map comes from the visit of a directory whose path matches the
    pattern with the key of the entry as its capture.  The visit of a
    regular file creates no entry: the keys of the map are what they
    were; when the container that its path captures has no entry, the
    map is unchanged, and no binding is set; when it has one, the
    bindings of that entry are set by the base name of the file.  This
    holds of [walkFn] of [part_002] and of [walkFn] of [gocstat.go]. *)
Theorem walkFn_entries_from_directories
    (FSM : string -> list string) (MemFile CPUFile : string) :
  (forall visits id,
     is_Some ((Stats.Walk FSM visits ∅).2 !! id) ->
     exists p info, In (Visit p info) visits /\ IsDir info = true
                    /\ capture FSM p = Some id)
  /\ (forall p info st,
        IsDir info = false ->
        dom (Stats.walkFn FSM (Visit p info) st).2 = dom st)
  /\ (forall p info st id,
        IsDir info = false -> capture FSM p = Some id ->
        (Stats.walkFn FSM (Visit p info) st).2
        = match st !! id with
          | None => st
          | Some cs => <[id := Stats.bind cs (Base (Name info)) p]> st
          end)
  /\ (forall visits id,
        is_Some ((Cgroups.Walk FSM MemFile CPUFile visits ∅).2 !! id) ->
        exists p info, In (Visit p info) visits /\ IsDir info = true
                       /\ capture FSM p = Some id)
  /\ (forall p info st,
        IsDir info = false ->
        dom (Cgroups.walkFn FSM MemFile CPUFile (Visit p info) st).2 = dom st)
  /\ (forall p info st id,
        IsDir info = false -> capture FSM p = Some id ->
        (Cgroups.walkFn FSM MemFile CPUFile (Visit p info) st).2
        = match st !! id with
          | None => st
          | Some cs =>
              let cs1 := if String.eqb (Base (Name info)) MemFile
                         then Cgroups.setMemPath cs p else cs in
              <[id := if String.eqb (Base (Name info)) CPUFile
                      then Cgroups.setCPUPath cs1 p else cs1]> st
          end).
Proof.
  repeat split.
  - intros visits id H.
    destruct (Stats_Walk_keys FSM visits ∅ id H) as [Hempty | Hdir];
      [|exact Hdir].
    rewrite lookup_empty in Hempty. now destruct Hempty.
  - apply Stats_walkFn_file_dom.
  - apply Stats_walkFn_file.
  - intros visits id H.
    destruct (Cgroups_Walk_keys FSM MemFile CPUFile visits ∅ id H)
      as [Hempty | Hdir]; [|exact Hdir].
    rewrite lookup_empty in Hempty. now destruct Hempty.
  - apply Cgroups_walkFn_file_dom.
  - apply Cgroups_walkFn_file.
Qed.

(** C7.  [walkFn] of [gocstat.go] returns the error of the visit it is
    called for.  [filepath.Walk] stops at the first error that its
    callback returns: the entries after it are not visited, and
    [updatePaths] fails, with an error whose text holds the text of
    that error. *)
Theorem Cgroups_walkFn_returns_error
    (FSM : string -> list string) (MemFile CPUFile : string)
    (ErrorString : error -> string)
    (filePath : string) (info : option FileInfo) (err : error)
    (rest : list visit) (st : gmap string Cgroups.ContainerStat) :
  Cgroups.walkFn FSM MemFile CPUFile (VisitErr filePath info err) st
  = (Some err, st)
  /\ Cgroups.Walk FSM MemFile CPUFile (VisitErr filePath info err :: rest) st
     = (Some err, st)
  /\ Cgroups.updatePaths FSM MemFile CPUFile ErrorString
       (VisitErr filePath info err :: rest) (Some st)
     = (Some (Errorf ("error walking path '" ++ ErrorString err
                      ++ "', err %!s(MISSING)")),
        Some st).
Proof. repeat split. Qed.

(** [walkFn] of [part_002] returns nil there, and the walk goes on. *)
Lemma Stats_walkFn_absorbs_error
    (FSM : string -> list string)
    (filePath : string) (info : option FileInfo) (err : error)
    (rest : list visit) (st : gmap string Stats.ContainerStats) :
  Stats.walkFn FSM (VisitErr filePath info err) st = (None, st)
  /\ Stats.Walk FSM (VisitErr filePath info err :: rest) st
     = Stats.Walk FSM rest st.
Proof. split; reflexivity. Qed.


Lemma walkFn_entries_from_directories_witness :
  exists p info, In (Visit p info) sampleVisits /\ IsDir info = true
                 /\ capture sampleFSM p = Some "a".
Proof.
  apply (proj1 (walkFn_entries_from_directories sampleFSM
                  "memory.stat" "cpuacct.stat") sampleVisits "a").
  vm_compute. eexists. reflexivity.
Defined.


(* ================================================================== *)
(** * Further properties of the parsers *)
(* ================================================================== *)

Section ParserFacts.

Import BlkIO.

#[local] Arguments String.append !_ _ / : simpl nomatch.

(** *** Values out of range *)

Lemma parseUintLoop_digits s : forall n,
  allBytes isDigit s = true -> 0 <= n <= maxUint64 ->
  parseUintLoop 10 s n
  = if decimalFrom n s <=? maxUint64 then (decimalFrom n s, None)
    else (maxUint64, Some ErrRange).
Proof.
  induction s as [|c s IH]; intros n H Hn.
  - cbn [parseUintLoop decimalFrom].
    destruct (Z.leb_spec n maxUint64); [reflexivity | lia].
  - cbn [allBytes] in H. apply andb_prop in H as [Hc Hs].
    cbn [parseUintLoop decimalFrom]. rewrite (digitVal_digit _ Hc).
    apply isDigit_range in Hc.
    assert (Hle : n * 10 + (code c - 48) <= decimalFrom (n * 10 + (code c - 48)) s)
      by (apply decimalFrom_le; [assumption | lia]).
    unfold cutoff, maxUint64 in *.
    change (2 ^ 64) with 18446744073709551616 in *.
    change ((18446744073709551616 - 1) / 10 + 1) with 1844674407370955162.
    destruct (Z.leb_spec 10 (code c - 48)); [lia|].
    destruct (Z.leb_spec 1844674407370955162 n).
    { destruct (Z.leb_spec (decimalFrom (n * 10 + (code c - 48)) s)
                  (18446744073709551616 - 1)); [lia | reflexivity]. }
    rewrite (Z.mod_small (n * 10)) by lia.
    destruct (Z.le_gt_cases (n * 10 + (code c - 48)) (18446744073709551616 - 1)).
    + rewrite (Z.mod_small (n * 10 + (code c - 48))) by lia.
      destruct (Z.ltb_spec (n * 10 + (code c - 48)) (n * 10)); [lia|].
      destruct (Z.ltb_spec (18446744073709551616 - 1) (n * 10 + (code c - 48))); [lia|].
      cbn [orb]. apply IH; [assumption | lia].
    + assert (Hmod : (n * 10 + (code c - 48)) mod 18446744073709551616
                     = n * 10 + (code c - 48) - 18446744073709551616).
      { symmetry. apply (Z.mod_unique _ _ 1); lia. }
      rewrite Hmod.
      destruct (Z.ltb_spec (n * 10 + (code c - 48) - 18446744073709551616) (n * 10));
        [|lia].
      cbn [orb].
      destruct (Z.leb_spec (decimalFrom (n * 10 + (code c - 48)) s)
                  (18446744073709551616 - 1)); [lia | reflexivity].
Qed.

(** [ParseUint] on a string of digits: the value, or the largest 64-bit
    value with a range error when the value does not fit. *)
Lemma ParseUint_digits s :
  allDigits s = true ->
  ParseUint s = (Z.min (decimalValue s) maxUint64,
                 if decimalValue s <=? maxUint64 then None else Some ErrRange).
Proof.
  unfold allDigits. intros H. apply andb_prop in H as [Hne Hd].
  destruct s as [|c s]; [discriminate|].
  unfold ParseUint, decimalValue.
  rewrite parseUintLoop_digits by (assumption || (unfold maxUint64; lia)).
  destruct (Z.leb_spec (decimalFrom 0 (String c s)) maxUint64).
  - now rewrite Z.min_l.
  - rewrite Z.min_r by lia. reflexivity.
Qed.

(** [ParseUint] on a string that starts with a byte that is no digit. *)
Lemma ParseUint_not_digit c s :
  isDigit c = false -> ParseUint (String c s) = (0, Some ErrSyntax).
Proof.
  intros H. unfold ParseUint. cbn [parseUintLoop].
  unfold digitVal. unfold isDigit in H. rewrite H.
  destruct ((97 <=? Z.lor (code c) 32) && (Z.lor (code c) 32 <=? 122)) eqn:E;
    [|reflexivity].
  apply andb_prop in E as [E1 E2]. apply Z.leb_le in E1, E2.
  destruct (Z.leb_spec 10 (Z.lor (code c) 32 - 97 + 10)); [reflexivity | lia].
Qed.

(** *** The record of a group *)

Lemma setCounter_fields b op v :
  setCounter b op v
  = {| Major := Major b; Minor := Minor b;
       Read := if String.eqb op "Read" then v else Read b;
       Write := if String.eqb op "Write" then v else Write b;
       Sync := if String.eqb op "Sync" then v else Sync b;
       Async := if String.eqb op "Async" then v else Async b |}.
Proof.
  unfold setCounter.
  destruct (String.eqb op "Read") eqn:E1;
    [apply String.eqb_eq in E1; subst op; reflexivity|].
  destruct (String.eqb op "Write") eqn:E2;
    [apply String.eqb_eq in E2; subst op; reflexivity|].
  destruct (String.eqb op "Sync") eqn:E3;
    [apply String.eqb_eq in E3; subst op; reflexivity|].
  destruct (String.eqb op "Async") eqn:E4;
    [apply String.eqb_eq in E4; subst op; reflexivity|].
  destruct b; reflexivity.
Qed.

Lemma counters_fields rs : forall b,
  counters rs b
  = {| Major := Major b; Minor := Minor b;
       Read := lastValueFrom (Read b) "Read" rs;
       Write := lastValueFrom (Write b) "Write" rs;
       Sync := lastValueFrom (Sync b) "Sync" rs;
       Async := lastValueFrom (Async b) "Async" rs |}.
Proof.
  unfold counters. induction rs as [|[op v] rs IH]; intros b.
  - destruct b; reflexivity.
  - cbn [fold_left lastValueFrom fst snd]. rewrite IH, setCounter_fields.
    reflexivity.
Qed.

Lemma BlkDevice_create_group g :
  groupOk g ->
  BlkDevice_create zeroDevice (groupLines g) = Some (groupRecord g).
Proof.
  intros (Hd & Hrs & Hne). unfold groupLines.
  rewrite BlkDevice_create_rows by assumption.
  rewrite counters_fields. f_equal.
  unfold withNumbers, groupRecord, deviceNumbers.
  destruct (Split (gIdent g) colon) as [|d0 [|d1 t]]; reflexivity.
Qed.

(** *** The scan over groups *)

Lemma scanLines_rows_first d rs rest :
  word d = true -> Forall rowOk rs -> rs <> [] ->
  scanLines 0 (map (fun r => row d r.1 r.2) rs ++ rest) scan0
  = scanLines (length rs) rest
      {| lastDeviceStr := d;
         tmpContent := map (fun r => row d r.1 r.2) rs;
         devs := [] |}.
Proof.
  intros Hd Hrs Hne. destruct rs as [|[op v] rs]; [congruence|].
  inversion Hrs as [|? ? [Hop Hv] Hrs']; subst. simpl in Hop, Hv.
  cbn [map app scanLines fst snd].
  rewrite scanLine_first by assumption.
  cbn [mbind option_bind]. rewrite scanLines_same by (assumption || reflexivity).
  reflexivity.
Qed.

Lemma scanLines_rows_next d rs i s bd rest :
  word d = true -> Forall rowOk rs -> rs <> [] ->
  (0 < i)%nat -> lastDeviceStr s <> d ->
  BlkDevice_create zeroDevice (tmpContent s) = Some bd ->
  scanLines i (map (fun r => row d r.1 r.2) rs ++ rest) s
  = scanLines (i + length rs) rest
      {| lastDeviceStr := d;
         tmpContent := map (fun r => row d r.1 r.2) rs;
         devs := devs s ++ [bd] |}.
Proof.
  intros Hd Hrs Hne Hi Hlast Hbd. destruct rs as [|[op v] rs]; [congruence|].
  inversion Hrs as [|? ? [Hop Hv] Hrs']; subst. simpl in Hop, Hv.
  cbn [map app scanLines fst snd].
  rewrite (scanLine_new i _ _ _ s bd) by assumption.
  cbn [mbind option_bind]. rewrite scanLines_same by (assumption || reflexivity).
  cbn [tmpContent devs length app]. rewrite Nat.add_succ_r. reflexivity.
Qed.

Lemma adjacentDiffer_snoc l : forall a b,
  adjacentDiffer (l ++ [a; b]) -> adjacentDiffer (l ++ [a]) /\ a <> b.
Proof.
  induction l as [|x l IH]; intros a b H.
  - cbn in *. tauto.
  - destruct l as [|y l].
    + cbn in *. tauto.
    + change (x <> y /\ adjacentDiffer ((y :: l) ++ [a; b])) in H.
      destruct H as [Hxy H]. destruct (IH a b H) as [H1 H2].
      split; [|assumption]. change (x <> y /\ adjacentDiffer ((y :: l) ++ [a])).
      tauto.
Qed.

Lemma linesOfGroups_app a b :
  linesOfGroups (a ++ b) = (linesOfGroups a ++ linesOfGroups b)%list.
Proof. unfold linesOfGroups. now rewrite map_app, concat_app. Qed.

Lemma linesOfGroups_one g : linesOfGroups [g] = groupLines g.
Proof. unfold linesOfGroups. simpl. apply app_nil_r. Qed.

Lemma groupLines_length g : length (groupLines g) = length (gRows g).
Proof. unfold groupLines. apply length_map. Qed.

Lemma scanLines_groups done : forall cur rest,
  Forall groupOk (done ++ [cur]) ->
  adjacentDiffer (map gIdent (done ++ [cur])) ->
  scanLines 0 (linesOfGroups (done ++ [cur]) ++ rest) scan0
  = scanLines (length (linesOfGroups (done ++ [cur]))) rest
      {| lastDeviceStr := gIdent cur;
         tmpContent := groupLines cur;
         devs := map groupRecord done |}.
Proof.
  induction done as [|prev done IH] using rev_ind; intros cur rest Hok Hadj.
  - cbn [app] in *. rewrite linesOfGroups_one, groupLines_length.
    inversion Hok as [|? ? (Hd & Hrs & Hne) _]; subst.
    now apply scanLines_rows_first.
  - apply Forall_app in Hok as [Hdone Hcur].
    inversion Hcur as [|? ? (Hd & Hrs & Hne) _]; subst.
    rewrite <- app_assoc, map_app in Hadj. cbn [app map] in Hadj.
    apply adjacentDiffer_snoc in Hadj as [Hadj Hdiff].
    rewrite linesOfGroups_app, linesOfGroups_one, <- app_assoc.
    rewrite IH; [|assumption|rewrite map_app; exact Hadj].
    apply Forall_app in Hdone as [_ Hprev].
    inversion Hprev as [|? ? Hprev' _]; subst.
    unfold groupLines at 1.
    rewrite (scanLines_rows_next _ _ _ _ (groupRecord prev)).
    + cbn [devs]. rewrite length_app, groupLines_length, map_app. reflexivity.
    + assumption.
    + assumption.
    + assumption.
    + rewrite linesOfGroups_app, linesOfGroups_one, length_app, groupLines_length.
      destruct Hprev' as (_ & _ & Hne').
      destruct (gRows prev); [congruence | simpl; lia].
    + cbn [lastDeviceStr]. exact Hdiff.
    + cbn [tmpContent]. now apply BlkDevice_create_group.
Qed.

Lemma isLine_groups gs :
  Forall groupOk gs -> Forall (fun l => isLine l = true) (linesOfGroups gs).
Proof.
  unfold linesOfGroups. induction 1 as [|g gs (Hd & Hrs & _) _ IH]; simpl;
    [constructor|].
  apply Forall_app. split; [|exact IH].
  unfold groupLines. clear IH.
  induction Hrs as [|[op v] rs [Hop Hv] _ IH]; simpl; constructor.
  - now apply isLine_row.
  - exact IH.
Qed.

Lemma BlkServiced_create_groups now b groups trailer :
  Forall groupOk groups ->
  adjacentDiffer (map gIdent groups) ->
  Forall (fun l => junkLine l = true) trailer ->
  BlkServiced_create now b (groupsContent groups trailer)
  = Some {| path := path b; Timestamp := now;
            Devices := map groupRecord groups |}.
Proof.
  intros Hok Hadj Hjunk. unfold BlkServiced_create, groupsContent.
  destruct groups as [|g0 gs] using rev_ind.
  - cbn [linesOfGroups map concat app].
    rewrite Split_joinLines_junk by assumption. reflexivity.
  - clear IHgs.
    pose proof Hok as Hok'. apply Forall_app in Hok' as [_ Hlast].
    inversion Hlast as [|? ? Hg0 _]; subst.
    pose proof (groupLines_length g0) as Hlen.
    destruct Hg0 as (Hd0 & Hrs0 & Hne0).
    rewrite Split_joinLines.
    + rewrite scanLines_groups by assumption.
      rewrite scanLines_junk by assumption.
      cbn [mbind option_bind tmpContent devs].
      destruct (groupLines g0) as [|l0 ls0] eqn:E;
        [destruct (gRows g0); [congruence | discriminate]|].
      cbn [length Nat.eqb negb]. rewrite <- E.
      rewrite BlkDevice_create_group by (repeat split; assumption).
      cbn [mbind option_bind]. rewrite map_app. reflexivity.
    + rewrite linesOfGroups_app, linesOfGroups_one.
      destruct (groupLines g0) as [|l0 ls0] eqn:E;
        [destruct (gRows g0); [congruence | discriminate]|].
      destruct (linesOfGroups gs); discriminate.
    + apply Forall_app. split; [now apply isLine_groups | now apply junkLine_isLine].
Qed.

End ParserFacts.

Section ParserExtras.

#[local] Arguments String.append !_ _ / : simpl nomatch.

Lemma isDigit_wordByte c : isDigit c = true -> wordByte c = true.
Proof.
  destruct c as [[] [] [] [] [] [] [] []]; intros H;
    try discriminate H; reflexivity.
Qed.

Lemma isDigit_not_colon c :
  isDigit c = true -> negb (Ascii.eqb c colon) = true.
Proof.
  destruct c as [[] [] [] [] [] [] [] []]; intros H;
    try discriminate H; reflexivity.
Qed.

Lemma allBytes_impl (p q : ascii -> bool) s :
  (forall c, p c = true -> q c = true) ->
  allBytes p s = true -> allBytes q s = true.
Proof.
  intros Hpq. induction s as [|c t IH]; cbn [allBytes]; [reflexivity|].
  intros H. apply andb_prop in H as [Hc Ht]. now rewrite (Hpq c Hc), IH.
Qed.

Lemma allDigits_word s : allDigits s = true -> word s = true.
Proof.
  unfold allDigits, word. intros H. apply andb_prop in H as [-> Hd].
  cbn [andb]. exact (allBytes_impl _ _ s isDigit_wordByte Hd).
Qed.

Lemma numeric_allDigits s : numeric s = true -> allDigits s = true.
Proof.
  unfold numeric, allDigits. intros H. now apply andb_prop in H as [H _].
Qed.

Lemma word_app a b : word a = true -> word b = true -> word (a ++ b) = true.
Proof.
  unfold word. intros Ha Hb.
  apply andb_prop in Ha as [Hna Ha]. apply andb_prop in Hb as [_ Hb].
  rewrite allBytes_app, Ha, Hb.
  destruct a; [discriminate | reflexivity].
Qed.

Lemma Split_pair a b :
  allDigits a = true -> allDigits b = true ->
  Split (a ++ ":" ++ b) colon = [a; b].
Proof.
  unfold allDigits. intros Ha Hb.
  apply andb_prop in Ha as [_ Ha]. apply andb_prop in Hb as [_ Hb].
  unfold Split. change (":" ++ b)%string with (String colon b).
  rewrite splitLoop_line by exact (allBytes_impl _ _ a isDigit_not_colon Ha).
  rewrite splitLoop_last by exact (allBytes_impl _ _ b isDigit_not_colon Hb).
  reflexivity.
Qed.

Lemma scanLines_no_rows lines : forall i s,
  Forall (fun l => length (Fields l) <> 3%nat) lines ->
  BlkIO.scanLines i lines s = Some s.
Proof.
  induction lines as [|l r IH]; intros i s H; [reflexivity|].
  inversion H as [|? ? Hl Hr]; subst.
  cbn [BlkIO.scanLines]. unfold BlkIO.scanLine.
  apply Nat.eqb_neq in Hl. rewrite Hl. cbn [negb mbind option_bind].
  now apply IH.
Qed.

End ParserExtras.

(** C8.  In [part_001] a row whose identifier has no colon leaves
    [Major] and [Minor] as they are, sets its counter, and the lines
    after it are parsed as after any other row; in the record of a
    group with such an identifier, which [BlkServiced.create] starts
    from the zero record, both numbers are 0, and the groups before
    and after it get their records as usual; the parse returns for
    every content.  In [part_005] [BlkServiced.create], the one caller
    of [BlkDevice.create], never calls it: no record is made at all. *)
Theorem no_colon_identifier :
  (forall (b : BlkIO.BlkDevice) (d op v : string) (rest : list string),
     word d = true -> word op = true -> word v = true -> noColon d = true ->
     exists b1,
       BlkIO.BlkDevice_create b (row d op v :: rest)
       = BlkIO.BlkDevice_create b1 rest
       /\ b1 = BlkIO.setCounter b op (ParseUint v).1
       /\ BlkIO.Major b1 = BlkIO.Major b /\ BlkIO.Minor b1 = BlkIO.Minor b)
  /\ (forall (now : Z) (b : BlkIO.BlkServiced)
             (groups : list group) (trailer : list string),
        Forall groupOk groups ->
        adjacentDiffer (map gIdent groups) ->
        Forall (fun l => junkLine l = true) trailer ->
        BlkIO.BlkServiced_create now b (groupsContent groups trailer)
        = Some {| BlkIO.path := BlkIO.path b; BlkIO.Timestamp := now;
                  BlkIO.Devices := map groupRecord groups |}
        /\ forall g, In g groups -> noColon (gIdent g) = true ->
             BlkIO.Major (groupRecord g) = 0 /\ BlkIO.Minor (groupRecord g) = 0)
  /\ (forall (now : Z) (b : BlkIO.BlkServiced) (content : string),
        exists b', BlkIO.BlkServiced_create now b content = Some b')
  /\ (forall (now : Z) (b : BlkIO0.BlkServiced) (content : string),
        BlkIO0.BlkServiced_create now b content
        = Some {| BlkIO0.path := BlkIO0.path b; BlkIO0.Timestamp := now;
                  BlkIO0.Devices := [] |}).
Proof.
  split; [|split; [|split]].
  - intros b d op v rest Hd Hop Hv Hc.
    exists (BlkIO.setCounter b op (ParseUint v).1).
    split; [|split; [reflexivity|]].
    + cbn [BlkIO.BlkDevice_create].
      rewrite (createLine_noColon b d op v Hd Hop Hv Hc). reflexivity.
    + rewrite setCounter_fields. split; reflexivity.
  - intros now b groups trailer Hok Hadj Hjunk.
    split; [now apply BlkServiced_create_groups|].
    intros g _ Hc. unfold groupRecord. cbn [BlkIO.Major BlkIO.Minor].
    rewrite (deviceNumbers_noColon _ Hc). split; reflexivity.
  - apply BlkServiced_create_total.
  - intros now b content. unfold BlkIO0.BlkServiced_create.
    rewrite BlkIO0_scanLines_scan0. reflexivity.
Qed.

Lemma no_colon_identifier_witness :
  BlkIO.BlkServiced_create 3 BlkIO.zeroServiced
    ("8:0 Read 1" ++ nl ++ "8 Read 5" ++ nl ++ "8 Write x" ++ nl
     ++ "8:16 Write 2" ++ nl)
  = Some {| BlkIO.path := ""; BlkIO.Timestamp := 3;
            BlkIO.Devices :=
              [ {| BlkIO.Major := 8; BlkIO.Minor := 0; BlkIO.Read := 1;
                   BlkIO.Write := 0; BlkIO.Sync := 0; BlkIO.Async := 0 |};
                {| BlkIO.Major := 0; BlkIO.Minor := 0; BlkIO.Read := 5;
                   BlkIO.Write := 0; BlkIO.Sync := 0; BlkIO.Async := 0 |};
                {| BlkIO.Major := 8; BlkIO.Minor := 16; BlkIO.Read := 0;
                   BlkIO.Write := 2; BlkIO.Sync := 0; BlkIO.Async := 0 |} ] |}.
Proof.
  refine (proj1 (proj1 (proj2 no_colon_identifier) 3 BlkIO.zeroServiced
           [ {| gIdent := "8:0"; gRows := [("Read", "1")] |};
             {| gIdent := "8"; gRows := [("Read", "5"); ("Write", "x")] |};
             {| gIdent := "8:16"; gRows := [("Write", "2")] |} ]
           [""]
           _ _ _)).
  - repeat constructor; discriminate.
  - cbn. repeat split; discriminate.
  - repeat constructor.
Defined.

(** X1.  [BlkServiced.create] of [part_001] returns for every content:
    no index is out of range, in the scan or in [BlkDevice.create].  It
    keeps the path, sets the time stamp to the time of the call, and
    builds [Devices] from the content alone: what the record held
    before plays no part. *)
Theorem BlkServiced_create_returns (content : string) :
  exists ds, forall (now : Z) (b : BlkIO.BlkServiced),
    BlkIO.BlkServiced_create now b content
    = Some {| BlkIO.path := BlkIO.path b; BlkIO.Timestamp := now;
              BlkIO.Devices := ds |}.
Proof.
  unfold BlkIO.BlkServiced_create.
  destruct (scanLines_total (Split content LF) 0 BlkIO.scan0) as [s ->].
  cbn [mbind option_bind].
  destruct (length (BlkIO.tmpContent s) =? 0)%nat; cbn [negb].
  - eexists. intros now b. reflexivity.
  - destruct (BlkDevice_create_total (BlkIO.tmpContent s) BlkIO.zeroDevice)
      as [bd ->].
    eexists. intros now b. reflexivity.
Qed.

(** X2.  On a content none of whose lines has exactly three fields (the
    empty content, a lone total), [BlkServiced.create] leaves [Devices]
    empty; the records of an earlier call are dropped. *)
Theorem BlkServiced_create_no_rows
    (now : Z) (b : BlkIO.BlkServiced) (content : string) :
  Forall (fun l => length (Fields l) <> 3%nat) (Split content LF) ->
  BlkIO.BlkServiced_create now b content
  = Some {| BlkIO.path := BlkIO.path b; BlkIO.Timestamp := now;
            BlkIO.Devices := [] |}.
Proof.
  intros H. unfold BlkIO.BlkServiced_create.
  rewrite scanLines_no_rows by assumption. reflexivity.
Qed.

Lemma BlkServiced_create_no_rows_witness :
  BlkIO.BlkServiced_create 3
    {| BlkIO.path := "/p"; BlkIO.Timestamp := 1;
       BlkIO.Devices := [BlkIO.zeroDevice] |}
    ("Total 0" ++ nl)
  = Some {| BlkIO.path := "/p"; BlkIO.Timestamp := 3; BlkIO.Devices := [] |}.
Proof.
  apply (BlkServiced_create_no_rows 3
           {| BlkIO.path := "/p"; BlkIO.Timestamp := 1;
              BlkIO.Devices := [BlkIO.zeroDevice] |}
           ("Total 0" ++ nl)).
  repeat constructor; discriminate.
Defined.

(** X3.  [BlkDevice.create] on the rows of one group, from the zero
    record: each of the four counters is the value of the last row with
    its label, and 0 when no row has it; the numbers are those of the
    identifier.  Rows may come in any order and number. *)
Theorem BlkDevice_create_last_row_wins (g : group) :
  groupOk g ->
  BlkIO.BlkDevice_create BlkIO.zeroDevice (groupLines g) = Some (groupRecord g).
Proof. apply BlkDevice_create_group. Qed.

Lemma BlkDevice_create_last_row_wins_witness :
  BlkIO.BlkDevice_create BlkIO.zeroDevice
    ["8:0 Write 7"; "8:0 Read 1"; "8:0 Read 2"; "8:0 Write x"]
  = Some {| BlkIO.Major := 8; BlkIO.Minor := 0; BlkIO.Read := 2;
            BlkIO.Write := 0; BlkIO.Sync := 0; BlkIO.Async := 0 |}.
Proof.
  apply (BlkDevice_create_last_row_wins
           {| gIdent := "8:0";
              gRows := [("Write", "7"); ("Read", "1"); ("Read", "2");
                        ("Write", "x")] |}).
  repeat split; repeat constructor; discriminate.
Defined.

(** X4.  [BlkServiced.create] makes one record for every run of rows
    with the same identifier: for groups whose neighbours have different
    identifiers, from the first line on, [Devices] holds the record of
    each group in order.  An identifier that comes back after another
    one gets a second record. *)
Theorem BlkServiced_create_runs
    (now : Z) (b : BlkIO.BlkServiced)
    (groups : list group) (trailer : list string) :
  Forall groupOk groups ->
  adjacentDiffer (map gIdent groups) ->
  Forall (fun l => junkLine l = true) trailer ->
  BlkIO.BlkServiced_create now b (groupsContent groups trailer)
  = Some {| BlkIO.path := BlkIO.path b; BlkIO.Timestamp := now;
            BlkIO.Devices := map groupRecord groups |}.
Proof. apply BlkServiced_create_groups. Qed.

Lemma BlkServiced_create_runs_witness :
  BlkIO.BlkServiced_create 3 BlkIO.zeroServiced
    ("8:0 Read 1" ++ nl ++ "8:16 Read 2" ++ nl ++ "8:0 Write 3" ++ nl)
  = Some {| BlkIO.path := ""; BlkIO.Timestamp := 3;
            BlkIO.Devices :=
              [ {| BlkIO.Major := 8; BlkIO.Minor := 0; BlkIO.Read := 1;
                   BlkIO.Write := 0; BlkIO.Sync := 0; BlkIO.Async := 0 |};
                {| BlkIO.Major := 8; BlkIO.Minor := 16; BlkIO.Read := 2;
                   BlkIO.Write := 0; BlkIO.Sync := 0; BlkIO.Async := 0 |};
                {| BlkIO.Major := 8; BlkIO.Minor := 0; BlkIO.Read := 0;
                   BlkIO.Write := 3; BlkIO.Sync := 0; BlkIO.Async := 0 |} ] |}.
Proof.
  apply (BlkServiced_create_runs 3 BlkIO.zeroServiced
           [ {| gIdent := "8:0"; gRows := [("Read", "1")] |};
             {| gIdent := "8:16"; gRows := [("Read", "2")] |};
             {| gIdent := "8:0"; gRows := [("Write", "3")] |} ]
           [""]).
  - repeat constructor; discriminate.
  - cbn. repeat split; discriminate.
  - repeat constructor.
Defined.

(** X5.  A row whose identifier is [<major>:<minor>], two decimal
    numerals that fit 64 bits, gives the record exactly these two
    numbers. *)
Theorem BlkDevice_create_numbers
    (b : BlkIO.BlkDevice) (major minor op v : string) :
  numeric major = true -> numeric minor = true ->
  word op = true -> word v = true ->
  exists bd,
    BlkIO.BlkDevice_create b [row (major ++ ":" ++ minor) op v] = Some bd
    /\ BlkIO.Major bd = decimalValue major
    /\ BlkIO.Minor bd = decimalValue minor.
Proof.
  intros Hma Hmi Hop Hv.
  pose proof (numeric_allDigits _ Hma) as Dma.
  pose proof (numeric_allDigits _ Hmi) as Dmi.
  assert (Hd : word (major ++ ":" ++ minor) = true).
  { apply word_app; [now apply allDigits_word|].
    apply (word_app ":" minor); [reflexivity | now apply allDigits_word]. }
  cbn [BlkIO.BlkDevice_create]. rewrite createLine_row by assumption.
  cbn [mbind option_bind]. eexists. split; [reflexivity|].
  unfold withNumbers. rewrite Split_pair by assumption.
  rewrite (ParseUint_numeric _ Hma), (ParseUint_numeric _ Hmi).
  rewrite setCounter_fields. split; reflexivity.
Qed.

Lemma BlkDevice_create_numbers_witness :
  exists bd,
    BlkIO.BlkDevice_create BlkIO.zeroDevice ["253:12 Sync 4"] = Some bd
    /\ BlkIO.Major bd = 253 /\ BlkIO.Minor bd = 12.
Proof.
  apply (BlkDevice_create_numbers BlkIO.zeroDevice "253" "12" "Sync" "4");
    reflexivity.
Defined.

(** X6.  The counter that a row sets: for a value of decimal digits, of
    any length, the value itself when it fits 64 bits and the largest
    64-bit value otherwise, never a value wrapped around; for a value
    that starts with a byte that is no digit, 0, whatever the counter
    was.  The error of [ParseUint] is dropped in both cases. *)
Theorem BlkDevice_create_row_value
    (b : BlkIO.BlkDevice) (d op : string) :
  word d = true -> word op = true ->
  (forall v, allDigits v = true ->
     BlkIO.BlkDevice_create b [row d op v]
     = Some (BlkIO.setCounter (withNumbers d b) op
               (Z.min (decimalValue v) maxUint64)))
  /\ (forall c s, isDigit c = false -> word (String c s) = true ->
        BlkIO.BlkDevice_create b [row d op (String c s)]
        = Some (BlkIO.setCounter (withNumbers d b) op 0)).
Proof.
  intros Hd Hop. split.
  - intros v Hv. cbn [BlkIO.BlkDevice_create].
    rewrite createLine_row by (assumption || now apply allDigits_word).
    rewrite (ParseUint_digits v Hv). reflexivity.
  - intros c s Hc Hw. cbn [BlkIO.BlkDevice_create].
    rewrite createLine_row by assumption.
    rewrite (ParseUint_not_digit c s Hc). reflexivity.
Qed.

Lemma BlkDevice_create_row_value_witness :
  BlkIO.BlkDevice_create BlkIO.zeroDevice ["8:0 Read 99999999999999999999"]
  = Some {| BlkIO.Major := 8; BlkIO.Minor := 0;
            BlkIO.Read := 18446744073709551615;
            BlkIO.Write := 0; BlkIO.Sync := 0; BlkIO.Async := 0 |}
  /\ BlkIO.BlkDevice_create
       {| BlkIO.Major := 8; BlkIO.Minor := 0; BlkIO.Read := 5;
          BlkIO.Write := 0; BlkIO.Sync := 0; BlkIO.Async := 0 |}
       ["8:0 Read -1"]
     = Some {| BlkIO.Major := 8; BlkIO.Minor := 0; BlkIO.Read := 0;
               BlkIO.Write := 0; BlkIO.Sync := 0; BlkIO.Async := 0 |}.
Proof.
  split.
  - apply (proj1 (BlkDevice_create_row_value BlkIO.zeroDevice "8:0" "Read"
                    eq_refl eq_refl) "99999999999999999999"). reflexivity.
  - apply (proj2 (BlkDevice_create_row_value
                    {| BlkIO.Major := 8; BlkIO.Minor := 0; BlkIO.Read := 5;
                       BlkIO.Write := 0; BlkIO.Sync := 0; BlkIO.Async := 0 |}
                    "8:0" "Read" eq_refl eq_refl) "-"%char "1"); reflexivity.
Defined.

Section TwoLineExtras.

Lemma Split_single content : isLine content = true -> Split content LF = [content].
Proof. intros H. unfold Split. now rewrite splitLoop_last. Qed.

(** The parsers of [gocstat.go] keep what is not theirs. *)
Lemma Cgroups_memLine_frame c0 i line cs :
  Cgroups.CPU cs = Cgroups.CPU c0
  /\ Cgroups.Mem_path (Cgroups.Memory cs) = Cgroups.Mem_path (Cgroups.Memory c0) ->
  exists cs', Cgroups.memLine i line cs = Some cs'
    /\ Cgroups.CPU cs' = Cgroups.CPU c0
    /\ Cgroups.Mem_path (Cgroups.Memory cs') = Cgroups.Mem_path (Cgroups.Memory c0).
Proof.
  intros Hp. unfold Cgroups.memLine.
  destruct (length (Fields line) <? 2)%nat eqn:E; [eauto|].
  destruct (index_1 _ E) as [v Hv].
  destruct i as [|[|i]]; [rewrite Hv | rewrite Hv |]; cbn; eauto.
Qed.

Lemma Cgroups_cpuLine_frame c0 i line cs :
  Cgroups.Memory cs = Cgroups.Memory c0
  /\ Cgroups.CPU_path (Cgroups.CPU cs) = Cgroups.CPU_path (Cgroups.CPU c0) ->
  exists cs', Cgroups.cpuLine i line cs = Some cs'
    /\ Cgroups.Memory cs' = Cgroups.Memory c0
    /\ Cgroups.CPU_path (Cgroups.CPU cs') = Cgroups.CPU_path (Cgroups.CPU c0).
Proof.
  intros Hp. unfold Cgroups.cpuLine.
  destruct (length (Fields line) <? 2)%nat eqn:E; [eauto|].
  destruct (index_1 _ E) as [v Hv].
  destruct i as [|[|i]]; [rewrite Hv | rewrite Hv |]; cbn; eauto.
Qed.

End TwoLineExtras.

(** X7.  On a content without line feed, which has fewer than two
    lines, the four CPU and memory parsers change nothing: the counters
    stay, and [CPUStat.create] and [MemStat.create] of [part_002] do not
    set the time stamp either. *)
Theorem create_single_line_unchanged
    (content : string) (now : Z) (c : Stats.CPUStat) (m : Stats.MemStat)
    (cs : Cgroups.ContainerStat) :
  isLine content = true ->
  Stats.CPUStat_create now c content = Some c
  /\ Stats.MemStat_create now m content = Some m
  /\ Cgroups.createCPUStat cs content = Some cs
  /\ Cgroups.createMemStat cs content = Some cs.
Proof.
  intros H.
  unfold Stats.CPUStat_create, Stats.MemStat_create,
    Cgroups.createCPUStat, Cgroups.createMemStat.
  rewrite (Split_single content H). repeat split.
Qed.

Lemma create_single_line_unchanged_witness :
  Stats.CPUStat_create 9
    {| Stats.CPU_CommonFields := {| Stats.path := "/p"; Stats.Timestamp := 4 |};
       Stats.User := 1; Stats.System := 2 |}
    "user 5"
  = Some {| Stats.CPU_CommonFields := {| Stats.path := "/p"; Stats.Timestamp := 4 |};
            Stats.User := 1; Stats.System := 2 |}.
Proof.
  exact (proj1 (create_single_line_unchanged "user 5" 9
    {| Stats.CPU_CommonFields := {| Stats.path := "/p"; Stats.Timestamp := 4 |};
       Stats.User := 1; Stats.System := 2 |}
    (Stats.Memory Stats.zeroStats) Cgroups.zeroStat eq_refl)).
Defined.

(** X8.  On a content with at least two lines, each of the first two
    lines sets its counter by itself: to the value that [ParseUint]
    gives for its second field when the line has two fields or more (0
    for a field that is no number), and not at all when it has fewer,
    so that the counter keeps the value it had.  Further lines change
    nothing.  The parsers of [part_002] set the time stamp. *)
Theorem create_by_position
    (content l0 l1 : string) (rest : list string)
    (now : Z) (c : Stats.CPUStat) (m : Stats.MemStat)
    (cs : Cgroups.ContainerStat) :
  Split content LF = l0 :: l1 :: rest ->
  Stats.CPUStat_create now c content
  = Some {| Stats.CPU_CommonFields := Stats.stamp (Stats.CPU_CommonFields c) now;
            Stats.User := fieldOr (Stats.User c) l0;
            Stats.System := fieldOr (Stats.System c) l1 |}
  /\ Stats.MemStat_create now m content
     = Some {| Stats.Mem_CommonFields := Stats.stamp (Stats.Mem_CommonFields m) now;
               Stats.RSS := fieldOr (Stats.RSS m) l1;
               Stats.Cache := fieldOr (Stats.Cache m) l0 |}
  /\ Cgroups.createCPUStat cs content
     = Some {| Cgroups.Memory := Cgroups.Memory cs;
               Cgroups.CPU :=
                 {| Cgroups.CPU_path := Cgroups.CPU_path (Cgroups.CPU cs);
                    Cgroups.User := fieldOr (Cgroups.User (Cgroups.CPU cs)) l0;
                    Cgroups.System := fieldOr (Cgroups.System (Cgroups.CPU cs)) l1 |} |}
  /\ Cgroups.createMemStat cs content
     = Some {| Cgroups.Memory :=
                 {| Cgroups.Mem_path := Cgroups.Mem_path (Cgroups.Memory cs);
                    Cgroups.RSS := fieldOr (Cgroups.RSS (Cgroups.Memory cs)) l1;
                    Cgroups.Cache := fieldOr (Cgroups.Cache (Cgroups.Memory cs)) l0 |};
               Cgroups.CPU := Cgroups.CPU cs |}.
Proof.
  intros Hsplit.
  unfold Stats.CPUStat_create, Stats.MemStat_create,
    Cgroups.createCPUStat, Cgroups.createMemStat.
  rewrite Hsplit. cbn [length Nat.ltb Nat.leb rangeFrom].
  unfold Stats.cpuLine, Stats.memLine, Cgroups.cpuLine, Cgroups.memLine, fieldOr.
  destruct c as [cf cu csy], m as [mf mr mc], cs as [[mp mrs mca] [cp cus csys]].
  destruct (Fields l0) as [|f0 [|v0 t0]], (Fields l1) as [|f1 [|v1 t1]];
    cbn [length Nat.ltb Nat.leb index nth_error mbind option_bind
         Stats.CPU_CommonFields Stats.User Stats.System
         Stats.Mem_CommonFields Stats.RSS Stats.Cache
         Cgroups.setUser Cgroups.setSystem Cgroups.setCache Cgroups.setRSS
         Cgroups.Memory Cgroups.CPU Cgroups.Mem_path Cgroups.CPU_path
         Cgroups.User Cgroups.System Cgroups.RSS Cgroups.Cache];
    rewrite (rangeFrom_id _ 2 Stats_cpuLine_later) by lia;
    rewrite (rangeFrom_id _ 2 Stats_memLine_later) by lia;
    rewrite (rangeFrom_id _ 2 Cgroups_cpuLine_later) by lia;
    rewrite (rangeFrom_id _ 2 Cgroups_memLine_later) by lia;
    repeat split.
Qed.

Lemma create_by_position_witness :
  Cgroups.createCPUStat
    {| Cgroups.Memory := Cgroups.Memory Cgroups.zeroStat;
       Cgroups.CPU := {| Cgroups.CPU_path := "/p"; Cgroups.User := 3;
                         Cgroups.System := 4 |} |}
    ("user" ++ nl ++ "system seven" ++ nl ++ "x 1" ++ nl)
  = Some {| Cgroups.Memory := Cgroups.Memory Cgroups.zeroStat;
            Cgroups.CPU := {| Cgroups.CPU_path := "/p"; Cgroups.User := 3;
                              Cgroups.System := 0 |} |}.
Proof.
  exact (proj1 (proj2 (proj2 (create_by_position
    ("user" ++ nl ++ "system seven" ++ nl ++ "x 1" ++ nl)
    "user" "system seven" ["x 1"; ""] 0
    (Stats.CPU Stats.zeroStats) (Stats.Memory Stats.zeroStats)
    {| Cgroups.Memory := Cgroups.Memory Cgroups.zeroStat;
       Cgroups.CPU := {| Cgroups.CPU_path := "/p"; Cgroups.User := 3;
                         Cgroups.System := 4 |} |}
    eq_refl)))).
Defined.

(** X9.  [createMemStat] and [createCPUStat] of [gocstat.go] return for
    every content and change nothing but their own two counters: the
    counters of the other kind and both paths stay. *)
Theorem create_keeps_the_rest (cs : Cgroups.ContainerStat) (content : string) :
  (exists cs',
     Cgroups.createMemStat cs content = Some cs'
     /\ Cgroups.CPU cs' = Cgroups.CPU cs
     /\ Cgroups.Mem_path (Cgroups.Memory cs') = Cgroups.Mem_path (Cgroups.Memory cs))
  /\ (exists cs',
        Cgroups.createCPUStat cs content = Some cs'
        /\ Cgroups.Memory cs' = Cgroups.Memory cs
        /\ Cgroups.CPU_path (Cgroups.CPU cs') = Cgroups.CPU_path (Cgroups.CPU cs)).
Proof.
  split.
  - unfold Cgroups.createMemStat.
    destruct (length (Split content LF) <? 2)%nat; [eauto|].
    apply (rangeFrom_inv Cgroups.memLine
             (fun c => Cgroups.CPU c = Cgroups.CPU cs
                       /\ Cgroups.Mem_path (Cgroups.Memory c)
                          = Cgroups.Mem_path (Cgroups.Memory cs)));
      [|split; reflexivity].
    intros i x s. apply Cgroups_memLine_frame.
  - unfold Cgroups.createCPUStat.
    destruct (length (Split content LF) <? 2)%nat; [eauto|].
    apply (rangeFrom_inv Cgroups.cpuLine
             (fun c => Cgroups.Memory c = Cgroups.Memory cs
                       /\ Cgroups.CPU_path (Cgroups.CPU c)
                          = Cgroups.CPU_path (Cgroups.CPU cs)));
      [|split; reflexivity].
    intros i x s. apply Cgroups_cpuLine_frame.
Qed.

(* ================================================================== *)
(** * Further properties of the read pass *)
(* ================================================================== *)

Section CgroupsPassExtras.

Import Cgroups.

Variable RF : string -> readResult.

Lemma readError_bound p :
  String.eqb p "" = false ->
  readError RF p = match RF p with ReadErr e => Some e | ReadOk _ => None end.
Proof. intros H. unfold readError. now rewrite H. Qed.

(** One iteration in terms of [reread]. *)
Lemma readContainer_reread id cs st :
  st !! id = Some cs ->
  noOtherError RF (Cgroups_paths cs) ->
  exists st1,
    (readContainer RF id cs st = Next st1
     \/ exists cs', readContainer RF id cs st = Fall cs' st1)
    /\ st1 !! id = reread RF cs
    /\ onlyAt id st st1
    /\ (forall c', st1 !! id = Some c' -> Cgroups_paths c' = Cgroups_paths cs).
Proof.
  intros Hid Hclean.
  assert (Hcpu : forall cs1 st1,
    Cgroups_paths cs1 = Cgroups_paths cs -> st1 !! id = Some cs1 ->
    onlyAt id st st1 ->
    exists st2,
      (readCPU RF id cs1 st1 = Next st2
       \/ exists cs', readCPU RF id cs1 st1 = Fall cs' st2)
      /\ st2 !! id
         = (if String.eqb (CPU_path (CPU cs1)) "" then Some cs1
            else match RF (CPU_path (CPU cs1)) with
                 | ReadOk b => createCPUStat cs1 b
                 | ReadErr _ => None
                 end)
      /\ onlyAt id st st2
      /\ (forall c', st2 !! id = Some c' -> Cgroups_paths c' = Cgroups_paths cs)).
  { intros cs1 st1 Hp1 Hid1 Hat1. unfold readCPU.
    assert (Hpc : CPU_path (CPU cs1) = CPU_path (CPU cs))
      by (unfold Cgroups_paths in Hp1; congruence).
    destruct (String.eqb (CPU_path (CPU cs1)) "") eqn:Ec; cbn [negb].
    - exists st1. split; [right; eauto|]. split; [assumption|].
      split; [assumption|]. intros c' Hc'. congruence.
    - destruct (RF (CPU_path (CPU cs1))) as [b|e] eqn:Erf.
      + destruct (createCPUStat_ok cs1 b) as (cs2 & Hc2 & Hp2). rewrite Hc2.
        eexists. split; [right; eauto|].
        split; [apply lookup_insert_eq|]. split; [now apply onlyAt_insert|].
        intros c'. rewrite lookup_insert_eq. intros [= <-]. congruence.
      + assert (IsNotExist e = true) as ->.
        { apply (Hclean (CPU_path (CPU cs))); [right; now left|].
          rewrite readError_bound by congruence. rewrite <- Hpc. now rewrite Erf. }
        eexists. split; [now left|].
        split; [apply lookup_delete_eq|]. split; [now apply onlyAt_delete|].
        intros c'. rewrite lookup_delete_eq. discriminate. }
  unfold readContainer, reread, readMemory.
  destruct (String.eqb (Mem_path (Memory cs)) "") eqn:Em; cbn [negb].
  - cbn [mbind option_bind].
    apply Hcpu; [reflexivity | assumption | apply onlyAt_refl].
  - destruct (RF (Mem_path (Memory cs))) as [b|e] eqn:Erf.
    + destruct (createMemStat_ok cs b) as (cs1 & Hc1 & Hp1). rewrite Hc1.
      cbn [mbind option_bind].
      apply Hcpu; [assumption | apply lookup_insert_eq |].
      apply onlyAt_insert, onlyAt_refl.
    + assert (IsNotExist e = true) as ->.
      { apply (Hclean (Mem_path (Memory cs))); [now left|].
        rewrite readError_bound by assumption. now rewrite Erf. }
      cbn [mbind option_bind]. eexists. split; [now left|].
      split; [apply lookup_delete_eq|].
      split; [apply onlyAt_delete, onlyAt_refl|].
      intros c'. rewrite lookup_delete_eq. discriminate.
Qed.

(** A pass without other failure than missing files, over keys without
    repetition: every key of [order] is read again, the others stay. *)
Lemma rangeContainers_reread order : forall st,
  NoDup order ->
  (forall k c, st !! k = Some c -> noOtherError RF (Cgroups_paths c)) ->
  exists st',
    rangeContainers RF order st = (Returned (Some st') None, st')
    /\ forall k, st' !! k
                 = if decide (k ∈ order) then st !! k ≫= reread RF else st !! k.
Proof.
  induction order as [|a order IH]; intros st Hnd Hclean.
  - exists st. split; [reflexivity|]. intros k.
    destruct (decide (k ∈ [])) as [Hin|_]; [|reflexivity].
    now apply elem_of_nil in Hin.
  - apply NoDup_cons in Hnd as [Ha Hnd]. cbn [rangeContainers].
    destruct (st !! a) as [ca|] eqn:Ea.
    + destruct (readContainer_reread a ca st Ea (Hclean a ca Ea))
        as (st1 & Hflow & Hat & Hother & Hpaths).
      destruct (IH st1 Hnd) as (st' & Hr & Hlook).
      { intros k c Hk. destruct (decide (k = a)) as [->|Hne].
        - intros p e Hp. rewrite (Hpaths c Hk) in Hp. revert p e Hp.
          exact (Hclean a ca Ea).
        - rewrite Hother in Hk by assumption. eauto. }
      exists st'. split.
      { destruct Hflow as [-> | [cs' ->]]; exact Hr. }
      intros k. rewrite Hlook.
      destruct (decide (k = a)) as [->|Hne].
      * destruct (decide (a ∈ order)) as [Hin|_]; [contradiction|].
        destruct (decide (a ∈ a :: order)) as [_|Hn];
          [|exfalso; apply Hn; left].
        rewrite Hat, Ea. reflexivity.
      * rewrite Hother by assumption.
        destruct (decide (k ∈ order)) as [Hin|Hnin];
          destruct (decide (k ∈ a :: order)) as [Hin'|Hnin'];
          try reflexivity.
        -- exfalso. apply Hnin'. now right.
        -- exfalso. apply elem_of_cons in Hin' as [->|Hin']; contradiction.
    + destruct (IH st Hnd Hclean) as (st' & Hr & Hlook).
      exists st'. split; [assumption|]. intros k. rewrite Hlook.
      destruct (decide (k = a)) as [->|Hne].
      * rewrite Ea. destruct (decide (a ∈ order)), (decide (a ∈ a :: order));
          reflexivity.
      * destruct (decide (k ∈ order)) as [Hin|Hnin];
          destruct (decide (k ∈ a :: order)) as [Hin'|Hnin'];
          try reflexivity.
        -- exfalso. apply Hnin'. now right.
        -- exfalso. apply elem_of_cons in Hin' as [->|Hin']; contradiction.
Qed.

Lemma ReadCgroups_omap order st :
  iterationOrder order st ->
  (forall k c, st !! k = Some c -> noOtherError RF (Cgroups_paths c)) ->
  ReadCgroups RF order (Some st)
  = (Returned (Some (omap (reread RF) st)) None, Some (omap (reread RF) st)).
Proof.
  intros [Hnd Hkeys] Hclean. unfold ReadCgroups.
  destruct (rangeContainers_reread order st Hnd Hclean) as (st' & -> & Hlook).
  assert (st' = omap (reread RF) st) as ->; [|reflexivity].
  apply map_eq. intros k. rewrite Hlook, lookup_omap.
  destruct (decide (k ∈ order)) as [Hin|Hnin]; [reflexivity|].
  destruct (st !! k) eqn:Ek; [|reflexivity].
  exfalso. apply Hnin. apply list_elem_of_In, Hkeys. eauto.
Qed.

(** *** Any pass *)

(** The map that an iteration leaves, however it ends: only the entry
    of its key differs, and if it is still there its paths are what
    they were. *)
Lemma readContainer_frame id cs st :
  st !! id = Some cs ->
  forall st1,
    ((exists cs', readContainer RF id cs st = Fall cs' st1)
     \/ readContainer RF id cs st = Next st1
     \/ exists o, readContainer RF id cs st = Stop o st1) ->
    onlyAt id st st1
    /\ forall c', st1 !! id = Some c' -> Cgroups_paths c' = Cgroups_paths cs.
Proof.
  intros Hid st1.
  assert (Hcpu : forall cs1 st0,
    Cgroups_paths cs1 = Cgroups_paths cs -> st0 !! id = Some cs1 ->
    onlyAt id st st0 ->
    ((exists cs', readCPU RF id cs1 st0 = Fall cs' st1)
     \/ readCPU RF id cs1 st0 = Next st1
     \/ exists o, readCPU RF id cs1 st0 = Stop o st1) ->
    onlyAt id st st1
    /\ forall c', st1 !! id = Some c' -> Cgroups_paths c' = Cgroups_paths cs).
  { intros cs1 st0 Hp1 Hid0 Hat0. unfold readCPU.
    destruct (String.eqb (CPU_path (CPU cs1)) ""); cbn [negb].
    - intros [[cs' [= _ <-]] | [[=] | [o [=]]]].
      split; [assumption|]. intros c' Hc'. congruence.
    - destruct (RF (CPU_path (CPU cs1))) as [b|e].
      + destruct (createCPUStat_ok cs1 b) as (cs2 & -> & Hp2).
        intros [[cs' [= _ <-]] | [[=] | [o [=]]]].
        split; [now apply onlyAt_insert|].
        intros c'. rewrite lookup_insert_eq. intros [= <-]. congruence.
      + destruct (IsNotExist e).
        * intros [[cs' [=]] | [[= <-] | [o [=]]]].
          split; [now apply onlyAt_delete|].
          intros c'. rewrite lookup_delete_eq. discriminate.
        * intros [[cs' [=]] | [[=] | [o [= _ <-]]]].
          split; [assumption|]. intros c' Hc'. congruence. }
  unfold readContainer, readMemory.
  destruct (String.eqb (Mem_path (Memory cs)) ""); cbn [negb].
  - apply Hcpu; [reflexivity | assumption | apply onlyAt_refl].
  - destruct (RF (Mem_path (Memory cs))) as [b|e].
    + destruct (createMemStat_ok cs b) as (cs1 & -> & Hp1).
      apply Hcpu; [assumption | apply lookup_insert_eq |].
      apply onlyAt_insert, onlyAt_refl.
    + destruct (IsNotExist e).
      * intros [[cs' [=]] | [[= <-] | [o [=]]]].
        split; [apply onlyAt_delete, onlyAt_refl|].
        intros c'. rewrite lookup_delete_eq. discriminate.
      * intros [[cs' [=]] | [[=] | [o [= _ <-]]]].
        split; [apply onlyAt_refl|]. intros c' Hc'. congruence.
Qed.

(** An entry without bound path is read from no file. *)
Lemma readContainer_unbound id cs st :
  Cgroups_paths cs = [""; ""] -> readContainer RF id cs st = Fall cs st.
Proof.
  intros [= Hm Hc]. unfold readContainer, readMemory, readCPU.
  rewrite Hm. cbn [String.eqb negb]. rewrite Hc. reflexivity.
Qed.

(** Any pass: how it ends, and what it leaves. *)
Lemma rangeContainers_any order : forall st,
  exists o st',
    rangeContainers RF order st = (o, st')
    /\ (o = Returned (Some st') None
        \/ exists e id c p,
             o = Returned None (Some e) /\ In id order /\ st !! id = Some c
             /\ In p (Cgroups_paths c) /\ readError RF p = Some e
             /\ IsNotExist e = false)
    /\ (forall k c', st' !! k = Some c' ->
          exists c, st !! k = Some c /\ Cgroups_paths c' = Cgroups_paths c)
    /\ (forall k c, st !! k = Some c -> Cgroups_paths c = [""; ""] ->
          st' !! k = Some c).
Proof.
  induction order as [|a order IH]; intros st.
  - exists (Returned (Some st) None), st. cbn. repeat split; eauto.
  - cbn [rangeContainers]. destruct (st !! a) as [ca|] eqn:Ea.
    2:{ destruct (IH st) as (o & st' & Hr & Ho & Hframe & Hun).
        exists o, st'. split; [assumption|]. split; [|split; assumption].
        destruct Ho as [-> | (e & id & c & p & -> & Hin & H)]; [now left | right].
        exists e, id, c, p. split; [reflexivity|]. split; [now right | exact H]. }
    pose proof (readContainer_spec RF a ca st Ea) as Hspec.
    pose proof (readContainer_frame a ca st Ea) as Hfr.
    assert (Hgo : forall st1,
      onlyAt a st st1 ->
      (forall c', st1 !! a = Some c' -> Cgroups_paths c' = Cgroups_paths ca) ->
      (Cgroups_paths ca = [""; ""] -> st1 !! a = Some ca) ->
      exists o st',
        rangeContainers RF order st1 = (o, st')
        /\ (o = Returned (Some st') None
            \/ exists e id c p,
                 o = Returned None (Some e) /\ In id (a :: order)
                 /\ st !! id = Some c
                 /\ In p (Cgroups_paths c) /\ readError RF p = Some e
                 /\ IsNotExist e = false)
        /\ (forall k c', st' !! k = Some c' ->
              exists c, st !! k = Some c /\ Cgroups_paths c' = Cgroups_paths c)
        /\ (forall k c, st !! k = Some c -> Cgroups_paths c = [""; ""] ->
              st' !! k = Some c)).
    { intros st1 Hat Hpa Hua.
      assert (Hback : forall k c1, st1 !! k = Some c1 ->
                exists c, st !! k = Some c /\ Cgroups_paths c1 = Cgroups_paths c).
      { intros k c1 Hk. destruct (decide (k = a)) as [->|Hne].
        - exists ca. split; [assumption | now apply Hpa].
        - rewrite Hat in Hk by assumption. eauto. }
      destruct (IH st1) as (o & st' & Hr & Ho & Hframe & Hun).
      exists o, st'. split; [assumption|]. split; [|split].
      - destruct Ho as [-> | (e & id & c1 & p & -> & Hin & Hc1 & Hp & H)];
          [now left | right].
        destruct (Hback id c1 Hc1) as (c & Hc & Hpc).
        exists e, id, c, p. split; [reflexivity|]. split; [now right|].
        split; [assumption|]. split; [now rewrite <- Hpc | exact H].
      - intros k c' Hk. destruct (Hframe k c' Hk) as (c1 & Hc1 & Hp1).
        destruct (Hback k c1 Hc1) as (c & Hc & Hpc).
        exists c. split; [assumption | congruence].
      - intros k c Hk Hu. apply Hun; [|assumption].
        destruct (decide (k = a)) as [->|Hne].
        + assert (c = ca) as -> by congruence. now apply Hua.
        + now rewrite Hat. }
    destruct (decide (Cgroups_paths ca = [""; ""])) as [Hu|Hb].
    { rewrite (readContainer_unbound a ca st Hu).
      apply Hgo; [apply onlyAt_refl | congruence | intros _; assumption]. }
    destruct (firstFailure RF (Cgroups_paths ca)) as [e|] eqn:Ef.
    + destruct (IsNotExist e) eqn:Ee.
      * destruct Hspec as (st1 & Hr & _). rewrite Hr.
        destruct (Hfr st1) as [Hat Hpa]; [right; now left|].
        apply Hgo; [assumption | assumption | intros; contradiction].
      * destruct Hspec as (st1 & Hr & _). rewrite Hr.
        destruct (Hfr st1) as [Hat Hpa]; [right; right; eauto|].
        destruct (firstFailure_In RF _ _ Ef) as (p & Hp & Hpe).
        exists (Returned None (Some e)), st1. split; [reflexivity|].
        split; [|split].
        -- right. exists e, a, ca, p. split; [reflexivity|].
           split; [now left|]. repeat split; assumption.
        -- intros k c' Hk. destruct (decide (k = a)) as [->|Hne].
           ++ exists ca. split; [assumption | now apply Hpa].
           ++ rewrite Hat in Hk by assumption. eauto.
        -- intros k c Hk Hu. destruct (decide (k = a)) as [->|Hne].
           ++ congruence.
           ++ now rewrite Hat.
    + destruct Hspec as (cs' & st1 & Hr & _). rewrite Hr.
      destruct (Hfr st1) as [Hat Hpa]; [left; eauto|].
      apply Hgo; [assumption | assumption | intros; contradiction].
Qed.

(** *** A second pass *)

Lemma fieldOr_idem prev l : fieldOr (fieldOr prev l) l = fieldOr prev l.
Proof. unfold fieldOr. destruct (Fields l) as [|f0 [|v0 t0]]; reflexivity. Qed.

Lemma createMemStat_lines cs content l0 l1 rest :
  Split content LF = l0 :: l1 :: rest ->
  createMemStat cs content
  = Some {| Memory := {| Mem_path := Mem_path (Memory cs);
                         RSS := fieldOr (RSS (Memory cs)) l1;
                         Cache := fieldOr (Cache (Memory cs)) l0 |};
            CPU := CPU cs |}.
Proof.
  intros Hsplit. unfold createMemStat.
  rewrite Hsplit. cbn [length Nat.ltb Nat.leb rangeFrom].
  unfold memLine, fieldOr. destruct cs as [[mp mrs mca] [cp cus csys]].
  destruct (Fields l0) as [|f0 [|v0 t0]], (Fields l1) as [|f1 [|v1 t1]];
    cbn [length Nat.ltb Nat.leb index nth_error mbind option_bind
         setCache setRSS Memory CPU Mem_path RSS Cache];
    rewrite (rangeFrom_id _ 2 Cgroups_memLine_later) by lia;
    reflexivity.
Qed.

Lemma createCPUStat_lines cs content l0 l1 rest :
  Split content LF = l0 :: l1 :: rest ->
  createCPUStat cs content
  = Some {| Memory := Memory cs;
            CPU := {| CPU_path := CPU_path (CPU cs);
                      User := fieldOr (User (CPU cs)) l0;
                      System := fieldOr (System (CPU cs)) l1 |} |}.
Proof.
  intros Hsplit. unfold createCPUStat.
  rewrite Hsplit. cbn [length Nat.ltb Nat.leb rangeFrom].
  unfold cpuLine, fieldOr. destruct cs as [[mp mrs mca] [cp cus csys]].
  destruct (Fields l0) as [|f0 [|v0 t0]], (Fields l1) as [|f1 [|v1 t1]];
    cbn [length Nat.ltb Nat.leb index nth_error mbind option_bind
         setUser setSystem Memory CPU CPU_path User System];
    rewrite (rangeFrom_id _ 2 Cgroups_cpuLine_later) by lia;
    reflexivity.
Qed.

(** [createMemStat] works on the memory part alone, and on what it
    gives it changes nothing. *)
Lemma createMemStat_again cs b :
  exists m',
    createMemStat cs b = Some {| Memory := m'; CPU := CPU cs |}
    /\ Mem_path m' = Mem_path (Memory cs)
    /\ forall c', createMemStat {| Memory := m'; CPU := c' |} b
                  = Some {| Memory := m'; CPU := c' |}.
Proof.
  destruct (Split b LF) as [|l0 [|l1 rest]] eqn:E.
  - exists (Memory cs). unfold createMemStat. rewrite E.
    destruct cs; repeat split.
  - exists (Memory cs). unfold createMemStat. rewrite E.
    destruct cs; repeat split.
  - eexists. split; [apply (createMemStat_lines cs b l0 l1 rest E)|].
    split; [reflexivity|]. intros c'.
    rewrite (createMemStat_lines _ b l0 l1 rest E). cbn.
    now rewrite !fieldOr_idem.
Qed.

Lemma createCPUStat_again cs b :
  exists c',
    createCPUStat cs b = Some {| Memory := Memory cs; CPU := c' |}
    /\ CPU_path c' = CPU_path (CPU cs)
    /\ forall m', createCPUStat {| Memory := m'; CPU := c' |} b
                  = Some {| Memory := m'; CPU := c' |}.
Proof.
  destruct (Split b LF) as [|l0 [|l1 rest]] eqn:E.
  - exists (CPU cs). unfold createCPUStat. rewrite E.
    destruct cs; repeat split.
  - exists (CPU cs). unfold createCPUStat. rewrite E.
    destruct cs; repeat split.
  - eexists. split; [apply (createCPUStat_lines cs b l0 l1 rest E)|].
    split; [reflexivity|]. intros m'.
    rewrite (createCPUStat_lines _ b l0 l1 rest E). cbn.
    now rewrite !fieldOr_idem.
Qed.

(** What [reread] gives, read again from the same files, is itself. *)
Lemma reread_idem cs cs2 : reread RF cs = Some cs2 -> reread RF cs2 = Some cs2.
Proof.
  destruct cs as [m c]. unfold reread. cbn [Memory CPU].
  destruct (String.eqb (Mem_path m) "") eqn:Em.
  - cbn [mbind option_bind Memory CPU].
    destruct (String.eqb (CPU_path c) "") eqn:Ec.
    + intros [= <-]. cbn [Memory CPU]. rewrite Em.
      cbn [mbind option_bind Memory CPU]. now rewrite Ec.
    + destruct (RF (CPU_path c)) as [bc|e] eqn:Erc; [|discriminate].
      destruct (createCPUStat_again {| Memory := m; CPU := c |} bc)
        as (c' & -> & Hp & Hagain).
      cbn [Memory CPU] in *. intros [= <-]. cbn [Memory CPU]. rewrite Em.
      cbn [mbind option_bind Memory CPU]. rewrite Hp, Ec, Erc. apply Hagain.
  - destruct (RF (Mem_path m)) as [bm|e] eqn:Erm; [|discriminate].
    destruct (createMemStat_again {| Memory := m; CPU := c |} bm)
      as (m' & -> & Hpm & Hm).
    cbn [mbind option_bind Memory CPU] in *.
    destruct (String.eqb (CPU_path c) "") eqn:Ec.
    + intros [= <-]. cbn [Memory CPU]. rewrite Hpm, Em, Erm, Hm.
      cbn [mbind option_bind Memory CPU]. now rewrite Ec.
    + destruct (RF (CPU_path c)) as [bc|e] eqn:Erc; [|discriminate].
      destruct (createCPUStat_again {| Memory := m'; CPU := c |} bc)
        as (c' & -> & Hp & Hagain).
      cbn [Memory CPU] in *. intros [= <-]. cbn [Memory CPU].
      rewrite Hpm, Em, Erm, Hm.
      cbn [mbind option_bind Memory CPU]. rewrite Hp, Ec, Erc. apply Hagain.
Qed.

(** [reread] keeps the paths. *)
Lemma reread_paths cs cs2 :
  reread RF cs = Some cs2 -> Cgroups_paths cs2 = Cgroups_paths cs.
Proof.
  unfold reread.
  assert (exists cs1,
    (if String.eqb (Mem_path (Memory cs)) "" then Some cs
     else match RF (Mem_path (Memory cs)) with
          | ReadOk b => createMemStat cs b
          | ReadErr _ => None
          end) = Some cs1 /\ Cgroups_paths cs1 = Cgroups_paths cs
    \/ (if String.eqb (Mem_path (Memory cs)) "" then Some cs
        else match RF (Mem_path (Memory cs)) with
             | ReadOk b => createMemStat cs b
             | ReadErr _ => None
             end) = None) as [cs1 [[-> Hp1] | ->]].
  { destruct (String.eqb (Mem_path (Memory cs)) ""); [eauto|].
    destruct (RF (Mem_path (Memory cs))) as [b|e]; [|exists cs; now right].
    destruct (createMemStat_ok cs b) as (cs1 & -> & Hp). eauto. }
  2:{ discriminate. }
  cbn [mbind option_bind].
  destruct (String.eqb (CPU_path (CPU cs1)) ""); [congruence|].
  destruct (RF (CPU_path (CPU cs1))) as [b|e]; [|discriminate].
  destruct (createCPUStat_ok cs1 b) as (cs2' & -> & Hp). congruence.
Qed.

End CgroupsPassExtras.

(** X10.  A pass of [ReadCgroups] in which no read fails for another
    reason than a missing file returns the map, without error, and the
    map is then the one it found with every entry read again: removed
    when a bound file is missing, its counters parsed anew from its
    bound files otherwise.  So the result does not depend on the order
    in which [range] produces the keys. *)
Theorem ReadCgroups_rereads
    (RF : string -> readResult) (order : list string)
    (st : gmap string Cgroups.ContainerStat) :
  iterationOrder order st ->
  (forall k c, st !! k = Some c -> noOtherError RF (Cgroups_paths c)) ->
  Cgroups.ReadCgroups RF order (Some st)
  = (Returned (Some (omap (reread RF) st)) None, Some (omap (reread RF) st)).
Proof. apply ReadCgroups_omap. Qed.

Lemma ReadCgroups_rereads_witness :
  Cgroups.ReadCgroups sampleRF ["a"; "c"] (Some storeAC)
  = (Returned (Some (omap (reread sampleRF) storeAC)) None,
     Some (omap (reread sampleRF) storeAC)).
Proof.
  apply (ReadCgroups_rereads sampleRF ["a"; "c"] storeAC).
  - apply iterationOrder_two; [discriminate | now left].
  - exact noOtherError_sample.
Defined.

(** X11.  A second pass over a file system that has not changed gives
    the map of the first: it removes no entry and changes no counter,
    in whatever order the two passes go through the keys. *)
Theorem ReadCgroups_twice
    (RF : string -> readResult) (order1 order2 : list string)
    (st st1 : gmap string Cgroups.ContainerStat) :
  iterationOrder order1 st ->
  (forall k c, st !! k = Some c -> noOtherError RF (Cgroups_paths c)) ->
  Cgroups.ReadCgroups RF order1 (Some st) = (Returned (Some st1) None, Some st1) ->
  iterationOrder order2 st1 ->
  Cgroups.ReadCgroups RF order2 (Some st1) = (Returned (Some st1) None, Some st1).
Proof.
  intros Ho1 Hclean H1 Ho2.
  rewrite (ReadCgroups_omap RF order1 st Ho1 Hclean) in H1.
  injection H1 as H1 _.
  assert (Hlook : forall k, st1 !! k = st !! k ≫= reread RF).
  { intros k. rewrite <- H1. apply lookup_omap. }
  rewrite (ReadCgroups_omap RF order2 st1 Ho2).
  - assert (omap (reread RF) st1 = st1) as ->; [|reflexivity].
    apply map_eq. intros k. rewrite lookup_omap.
    destruct (st1 !! k) as [c2|] eqn:Ek; [|reflexivity].
    rewrite Hlook in Ek. destruct (st !! k) as [c|]; [|discriminate Ek].
    cbn in *. now apply (reread_idem RF c).
  - intros k c2 Hk. rewrite Hlook in Hk.
    destruct (st !! k) as [c|] eqn:Ek; [|discriminate Hk]. cbn in Hk.
    rewrite (reread_paths RF c c2 Hk). now apply (Hclean k).
Qed.

Lemma ReadCgroups_twice_witness :
  Cgroups.ReadCgroups sampleRF ["c"] (Some (<["c" := entryCRead]> ∅))
  = (Returned (Some (<["c" := entryCRead]> ∅)) None,
     Some (<["c" := entryCRead]> ∅)).
Proof.
  apply (ReadCgroups_twice sampleRF ["a"; "c"] ["c"] storeAC).
  - apply iterationOrder_two; [discriminate | now left].
  - exact noOtherError_sample.
  - vm_compute. reflexivity.
  - split.
    + repeat constructor. rewrite list_elem_of_In. cbn. tauto.
    + intros k. rewrite lookup_insert_is_Some.
      pose proof (lookup_empty_is_Some (A := Cgroups.ContainerStat) k).
      cbn. intuition congruence.
Defined.

(** X12.  [ReadCgroups] never panics, whatever the files hold, and
    ends in one of two ways: it returns the map as the pass left it
    and no error; or it returns a nil map and an error, which is
    either that of the missing initialisation, or the error, other
    than not-found, of reading a bound file of an entry that the map
    had when the pass began. *)
Theorem ReadCgroups_outcome
    (RF : string -> readResult) (order : list string)
    (cg : option (gmap string Cgroups.ContainerStat)) :
  (exists st',
     Cgroups.ReadCgroups RF order cg = (Returned (Some st') None, Some st'))
  \/ (exists e cg',
        Cgroups.ReadCgroups RF order cg = (Returned None (Some e), cg')
        /\ ((cg = None /\ cg' = None /\ e = Errorf "not initialized")
            \/ exists st id c p,
                 cg = Some st /\ In id order /\ st !! id = Some c
                 /\ In p (Cgroups_paths c) /\ readError RF p = Some e
                 /\ IsNotExist e = false)).
Proof.
  destruct cg as [st|]; cbn [Cgroups.ReadCgroups].
  - destruct (rangeContainers_any RF order st) as (o & st' & -> & Ho & _).
    destruct Ho as [-> | (e & id & c & p & -> & H)].
    + left. now exists st'.
    + right. exists e, (Some st'). split; [reflexivity|]. right.
      exists st, id, c, p. split; [reflexivity | exact H].
  - right. exists (Errorf "not initialized"), None.
    split; [reflexivity|]. now left.
Qed.

(** X13.  However a pass of [ReadCgroups] ends, it has added no entry
    to the map and rebound no path: every entry of the map afterwards
    has the key and the two paths that an entry had before. *)
Theorem ReadCgroups_adds_nothing
    (RF : string -> readResult) (order : list string)
    (st st' : gmap string Cgroups.ContainerStat)
    (o : outcome (gmap string Cgroups.ContainerStat))
    (k : string) (c' : Cgroups.ContainerStat) :
  Cgroups.ReadCgroups RF order (Some st) = (o, Some st') ->
  st' !! k = Some c' ->
  exists c, st !! k = Some c /\ Cgroups_paths c' = Cgroups_paths c.
Proof.
  cbn [Cgroups.ReadCgroups].
  destruct (rangeContainers_any RF order st) as (o1 & st1 & -> & _ & Hframe & _).
  intros [= _ <-]. apply Hframe.
Qed.

Lemma ReadCgroups_adds_nothing_witness :
  exists c, storeCB !! "c" = Some c
            /\ Cgroups_paths entryCRead = Cgroups_paths c.
Proof.
  apply (ReadCgroups_adds_nothing sampleRF ["c"; "b"] storeCB
           (<["c" := entryCRead]> storeCB) (Returned None (Some ErrPermission))
           "c" entryCRead).
  - vm_compute. reflexivity.
  - reflexivity.
Defined.

(** X14.  An entry that has no bound file is left as it is by every
    pass of [ReadCgroups], however the pass ends: it is never removed
    and none of its fields changes. *)
Theorem ReadCgroups_keeps_unbound
    (RF : string -> readResult) (order : list string)
    (st st' : gmap string Cgroups.ContainerStat)
    (o : outcome (gmap string Cgroups.ContainerStat))
    (k : string) (c : Cgroups.ContainerStat) :
  Cgroups.ReadCgroups RF order (Some st) = (o, Some st') ->
  st !! k = Some c ->
  Cgroups_paths c = [""; ""] ->
  st' !! k = Some c.
Proof.
  cbn [Cgroups.ReadCgroups].
  destruct (rangeContainers_any RF order st) as (o1 & st1 & -> & _ & _ & Hun).
  intros [= _ <-]. apply Hun.
Qed.

Lemma ReadCgroups_keeps_unbound_witness :
  delete "a" storeAU !! "u" = Some Cgroups.zeroStat.
Proof.
  apply (ReadCgroups_keeps_unbound sampleRF ["u"; "a"] storeAU
           (delete "a" storeAU) (Returned (Some (delete "a" storeAU)) None)
           "u" Cgroups.zeroStat).
  - vm_compute. reflexivity.
  - reflexivity.
  - reflexivity.
Defined.

(* ================================================================== *)
(** * [ReadStats] of [part_003] *)
(* ================================================================== *)

Section CstatsFacts.

Import Cstats.

Variable RF : string -> readResult.
Variable Now : string -> Z.

Lemma Cstats_memLine_ok p i line m :
  Mem_path m = p ->
  exists m', memLine i line m = Some m' /\ Mem_path m' = p.
Proof.
  intros Hp. unfold memLine.
  destruct (length (Fields line) <? 2)%nat eqn:E; [eauto|].
  destruct (index_1 _ E) as [v Hv].
  destruct i as [|[|i]]; [rewrite Hv | rewrite Hv |]; cbn; eauto.
Qed.

Lemma Cstats_cpuLine_ok p i line c :
  CPU_path c = p ->
  exists c', cpuLine i line c = Some c' /\ CPU_path c' = p.
Proof.
  intros Hp. unfold cpuLine.
  destruct (length (Fields line) <? 2)%nat eqn:E; [eauto|].
  destruct (index_1 _ E) as [v Hv].
  destruct i as [|[|i]]; [rewrite Hv | rewrite Hv |]; cbn; eauto.
Qed.

(** The parsers return for every content and keep the path. *)
Lemma Cstats_MemStat_create_ok now m content :
  exists m', MemStat_create now m content = Some m'
             /\ Mem_path m' = Mem_path m.
Proof.
  unfold MemStat_create.
  destruct (length (Split content LF) <? 2)%nat; [eauto|].
  destruct (rangeFrom_inv memLine (fun x => Mem_path x = Mem_path m)
              (fun i x s => Cstats_memLine_ok _ i x s)
              (Split content LF) 0%nat m eq_refl) as (m1 & -> & H1).
  cbn. eexists. split; [reflexivity|]. exact H1.
Qed.

Lemma Cstats_CPUStat_create_ok now c content :
  exists c', CPUStat_create now c content = Some c'
             /\ CPU_path c' = CPU_path c.
Proof.
  unfold CPUStat_create.
  destruct (length (Split content LF) <? 2)%nat; [eauto|].
  destruct (rangeFrom_inv cpuLine (fun x => CPU_path x = CPU_path c)
              (fun i x s => Cstats_cpuLine_ok _ i x s)
              (Split content LF) 0%nat c eq_refl) as (c1 & -> & H1).
  cbn. eexists. split; [reflexivity|]. exact H1.
Qed.

Lemma Cstats_readMetric_leaves {T} (p : string)
    (get : Cstats -> T) (set : Cstats -> T -> Cstats)
    (create : Z -> T -> string -> option T) id cs st :
  (forall now obj b, exists t', create now (get obj) b = Some t'
      /\ Cstats_paths (set obj t') = Cstats_paths obj) ->
  st !! id = Some cs ->
  leavesC (readError RF p) id cs st (readMetric RF Now p get set create id cs st).
Proof.
  intros Hcreate Hid. unfold readError, readMetric, readFile, leavesC.
  destruct (String.eqb p ""); cbn [negb].
  - exists cs, st. split; [reflexivity|]. split; [reflexivity|].
    split; [assumption | apply onlyAt_refl].
  - destruct (RF p) as [b|e].
    + rewrite Hid. destruct (Hcreate (Now p) cs b) as (t' & -> & Hp).
      do 2 eexists. split; [reflexivity|]. split; [assumption|].
      split; [apply lookup_insert_eq | apply onlyAt_insert, onlyAt_refl].
    + destruct (IsNotExist e).
      * eexists. split; [reflexivity|].
        split; [apply lookup_delete_eq | apply onlyAt_delete, onlyAt_refl].
      * eexists. split; [reflexivity|]. split; [eauto | apply onlyAt_refl].
Qed.

Lemma leavesC_andThen fe1 fe2 id cs st f k :
  leavesC fe1 id cs st f ->
  (forall cs' st', Cstats_paths cs' = Cstats_paths cs -> st' !! id = Some cs' ->
     leavesC fe2 id cs' st' (k cs' st')) ->
  leavesC (match fe1 with Some e => Some e | None => fe2 end) id cs st
    (andThen f k).
Proof.
  intros Hf Hk. destruct fe1 as [e|]; cbn [leavesC] in *.
  - destruct (IsNotExist e); destruct Hf as (st' & -> & H); cbn; eauto.
  - destruct Hf as (cs1 & st1 & -> & Hp1 & Hid1 & Hat1). cbn [andThen].
    specialize (Hk cs1 st1 Hp1 Hid1). destruct fe2 as [e|]; cbn [leavesC] in *.
    + destruct (IsNotExist e); destruct Hk as (st' & -> & H1 & H2);
        eexists; (split; [reflexivity|]).
      * split; [assumption|]. eapply onlyAt_trans; eassumption.
      * split; [|eapply onlyAt_trans; eassumption].
        destruct H1 as (c' & Hc' & Hpc'). exists c'. split; congruence.
    + destruct Hk as (cs2 & st2 & -> & Hp2 & Hid2 & Hat2).
      do 2 eexists. split; [reflexivity|]. split; [congruence|].
      split; [assumption|]. eapply onlyAt_trans; eassumption.
Qed.

(** What one iteration of the loop of [ReadStats] does. *)
Lemma Cstats_readContainer_leaves id cs st :
  st !! id = Some cs ->
  leavesC (firstFailure RF (Cstats_paths cs)) id cs st
    (readContainer RF Now id cs st).
Proof.
  intros Hid. unfold readContainer. cbn [firstFailure Cstats_paths].
  apply leavesC_andThen.
  { apply Cstats_readMetric_leaves; [|assumption]. intros now obj b.
    destruct (Cstats_MemStat_create_ok now (Memory obj) b) as (m' & -> & Hp).
    eexists. split; [reflexivity|]. unfold Cstats_paths. cbn. now rewrite Hp. }
  intros cs1 st1 Hp1 Hid1.
  injection Hp1 as _ <- <- <-.
  apply leavesC_andThen.
  { apply Cstats_readMetric_leaves; [|assumption]. intros now obj b.
    destruct (Cstats_CPUStat_create_ok now (CPU obj) b) as (m' & -> & Hp).
    eexists. split; [reflexivity|]. unfold Cstats_paths. cbn. now rewrite Hp. }
  intros cs2 st2 Hp2 Hid2.
  injection Hp2 as _ _ <- <-.
  apply leavesC_andThen.
  { apply Cstats_readMetric_leaves; [|assumption]. intros now obj b.
    destruct (BlkServiced_create_ok now (BlkIO.Bytes (BlkIO obj)) b) as (m' & -> & Hp).
    eexists. split; [reflexivity|]. unfold Cstats_paths. cbn. now rewrite Hp. }
  intros cs3 st3 Hp3 Hid3.
  injection Hp3 as _ _ _ <-.
  replace (readError RF (BlkIO.path (BlkIO.IOPS (BlkIO cs3))))
    with (match readError RF (BlkIO.path (BlkIO.IOPS (BlkIO cs3))) with
          | Some e => Some e | None => None end)
    by (destruct (readError RF _); reflexivity).
  assert (Hlast : leavesC (readError RF (BlkIO.path (BlkIO.IOPS (BlkIO cs3))))
            id cs3 st3
            (readMetric RF Now (BlkIO.path (BlkIO.IOPS (BlkIO cs3)))
               (fun c => BlkIO.IOPS (BlkIO c)) setIOPS
               BlkIO.BlkServiced_create id cs3 st3)).
  { apply Cstats_readMetric_leaves; [|assumption]. intros now obj b.
    destruct (BlkServiced_create_ok now (BlkIO.IOPS (BlkIO obj)) b) as (m' & -> & Hp).
    eexists. split; [reflexivity|]. unfold Cstats_paths. cbn. now rewrite Hp. }
  destruct (readError RF (BlkIO.path (BlkIO.IOPS (BlkIO cs3)))); exact Hlast.
Qed.

(** Any pass: what it leaves, and how it ends. *)
Lemma rangeCmap_any order : forall st,
  exists o st',
    rangeCmap RF Now order st = (o, st')
    /\ (forall k c', st' !! k = Some c' ->
          exists c, st !! k = Some c /\ Cstats_paths c' = Cstats_paths c)
    /\ (forall k, ~ In k order -> st' !! k = st !! k)
    /\ ((o = Returned (Some st') None
         /\ forall k c, In k order -> st !! k = Some c ->
              match firstFailure RF (Cstats_paths c) with
              | None => is_Some (st' !! k)
              | Some e => IsNotExist e = true /\ st' !! k = None
              end)
        \/ exists e id c p,
             o = Returned None (Some e) /\ In id order /\ st !! id = Some c
             /\ In p (Cstats_paths c) /\ readError RF p = Some e
             /\ IsNotExist e = false).
Proof.
  induction order as [|a order IH]; intros st.
  - exists (Returned (Some st) None), st. cbn.
    split; [reflexivity|]. split; [eauto|]. split; [reflexivity|].
    left. split; [reflexivity|]. intros k c [].
  - cbn [rangeCmap]. destruct (st !! a) as [ca|] eqn:Ea.
    2:{ destruct (IH st) as (o & st' & Hr & Hframe & Hout & Ho).
        exists o, st'. split; [assumption|]. split; [assumption|].
        split; [intros k Hk; apply Hout; intros Hin; apply Hk; now right|].
        destruct Ho as [[-> Hall] | (e & id & c & p & -> & Hin & H)].
        - left. split; [reflexivity|]. intros k c [<-|Hin] Hk; [congruence|].
          now apply Hall.
        - right. exists e, id, c, p. split; [reflexivity|].
          split; [now right | exact H]. }
    assert (Hgo : forall st1,
      onlyAt a st st1 ->
      (forall c', st1 !! a = Some c' -> Cstats_paths c' = Cstats_paths ca) ->
      match firstFailure RF (Cstats_paths ca) with
      | None => is_Some (st1 !! a)
      | Some e => IsNotExist e = true /\ st1 !! a = None
      end ->
      exists o st',
        rangeCmap RF Now order st1 = (o, st')
        /\ (forall k c', st' !! k = Some c' ->
              exists c, st !! k = Some c /\ Cstats_paths c' = Cstats_paths c)
        /\ (forall k, ~ In k (a :: order) -> st' !! k = st !! k)
        /\ ((o = Returned (Some st') None
             /\ forall k c, In k (a :: order) -> st !! k = Some c ->
                  match firstFailure RF (Cstats_paths c) with
                  | None => is_Some (st' !! k)
                  | Some e => IsNotExist e = true /\ st' !! k = None
                  end)
            \/ exists e id c p,
                 o = Returned None (Some e) /\ In id (a :: order)
                 /\ st !! id = Some c
                 /\ In p (Cstats_paths c) /\ readError RF p = Some e
                 /\ IsNotExist e = false)).
    { intros st1 Hat Hpa Hnow.
      assert (Hback : forall k c1, st1 !! k = Some c1 ->
                exists c, st !! k = Some c /\ Cstats_paths c1 = Cstats_paths c).
      { intros k c1 Hk. destruct (decide (k = a)) as [->|Hne].
        - exists ca. split; [assumption | now apply Hpa].
        - rewrite Hat in Hk by assumption. eauto. }
      destruct (IH st1) as (o & st' & Hr & Hframe & Hout & Ho).
      exists o, st'. split; [assumption|]. split; [|split].
      - intros k c' Hk. destruct (Hframe k c' Hk) as (c1 & Hc1 & Hp1).
        destruct (Hback k c1 Hc1) as (c & Hc & Hpc).
        exists c. split; [assumption | congruence].
      - intros k Hk. rewrite Hout by (intros Hin; apply Hk; now right).
        apply Hat. intros ->. apply Hk. now left.
      - destruct Ho as [[-> Hall] | (e & id & c1 & p & -> & Hin & Hc1 & Hp & H)].
        + left. split; [reflexivity|]. intros k c Hin Hk.
          destruct (in_dec String.string_dec k order) as [Hko|Hko].
          * destruct (decide (k = a)) as [->|Hne].
            -- assert (c = ca) as -> by congruence.
               destruct (firstFailure RF (Cstats_paths ca)) as [e|] eqn:Ef.
               ++ destruct Hnow as [He Hnone]. split; [assumption|].
                  destruct (st' !! a) as [c'|] eqn:Ec'; [|reflexivity].
                  destruct (Hframe a c' Ec') as (c1 & Hc1 & _). congruence.
               ++ destruct Hnow as [c1 Hc1].
                  specialize (Hall a c1 Hko Hc1).
                  rewrite (Hpa c1 Hc1), Ef in Hall. exact Hall.
            -- apply Hall; [assumption|]. now rewrite Hat.
          * destruct Hin as [<-|Hin]; [|contradiction].
            assert (c = ca) as -> by congruence.
            rewrite (Hout a Hko).
            destruct (firstFailure RF (Cstats_paths ca)); exact Hnow.
        + right. destruct (Hback id c1 Hc1) as (c & Hc & Hpc).
          exists e, id, c, p. split; [reflexivity|]. split; [now right|].
          split; [assumption|]. split; [now rewrite <- Hpc | exact H]. }
    pose proof (Cstats_readContainer_leaves a ca st Ea) as Hspec.
    unfold leavesC in Hspec.
    destruct (firstFailure RF (Cstats_paths ca)) as [e|] eqn:Ef.
    + destruct (IsNotExist e) eqn:Ee.
      * destruct Hspec as (st1 & -> & Hnone & Hat).
        apply Hgo; [assumption | intros c'; congruence | now split].
      * destruct Hspec as (st1 & -> & (c' & Hc' & Hpc') & Hat).
        destruct (firstFailure_In RF _ _ Ef) as (p & Hp & Hpe).
        exists (Returned None (Some e)), st1. split; [reflexivity|].
        split; [|split].
        -- intros k c1 Hk. destruct (decide (k = a)) as [->|Hne].
           ++ exists ca. split; [assumption | congruence].
           ++ rewrite Hat in Hk by assumption. eauto.
        -- intros k Hk. apply Hat. intros ->. apply Hk. now left.
        -- right. exists e, a, ca, p. split; [reflexivity|].
           split; [now left|]. repeat split; assumption.
    + destruct Hspec as (cs' & st1 & -> & Hpa & Hid1 & Hat).
      apply Hgo; [assumption | intros c'; congruence | eauto].
Qed.

End CstatsFacts.

Lemma noOtherError_cmapAC k c :
  cmapAC !! k = Some c -> noOtherError sampleRF (Cstats_paths c).
Proof.
  unfold cmapAC. intros H.
  apply lookup_insert_Some in H as [[_ <-] | [_ H]];
    [|apply lookup_insert_Some in H as [[_ <-] | [_ H]];
      [|rewrite lookup_empty in H; discriminate H]];
    intros p e [<- | [<- | [<- | [<- | []]]]]; cbn; intros [= <-]; reflexivity.
Qed.

(** X15.  [ReadStats] of [part_003] never panics, whatever the files
    hold, and ends in one of two ways: it returns the map as the pass
    left it and no error; or it returns a nil map and an error, which
    is either that of the missing initialisation, or the error, other
    than not-found, of reading a bound file of an entry that the map
    had when the pass began. *)
Theorem Cstats_ReadStats_outcome
    (RF : string -> readResult) (Now : string -> Z) (order : list string)
    (statsHolder : option (gmap string Cstats.Cstats)) :
  (exists st',
     Cstats.ReadStats RF Now order statsHolder
     = (Returned (Some st') None, Some st'))
  \/ (exists e h',
        Cstats.ReadStats RF Now order statsHolder = (Returned None (Some e), h')
        /\ ((statsHolder = None /\ h' = None /\ e = Errorf "not initialized")
            \/ exists st id c p,
                 statsHolder = Some st /\ In id order /\ st !! id = Some c
                 /\ In p (Cstats_paths c) /\ readError RF p = Some e
                 /\ IsNotExist e = false)).
Proof.
  destruct statsHolder as [st|]; cbn [Cstats.ReadStats].
  - destruct (rangeCmap_any RF Now order st) as (o & st' & -> & _ & _ & Ho).
    destruct Ho as [[-> _] | (e & id & c & p & -> & H)].
    + left. now exists st'.
    + right. exists e, (Some st'). split; [reflexivity|]. right.
      exists st, id, c, p. split; [reflexivity | exact H].
  - right. exists (Errorf "not initialized"), None.
    split; [reflexivity|]. now left.
Qed.

(** X16.  A pass of [ReadStats] of [part_003] in which no read fails
    for another reason than a missing file returns the map and no
    error, and the map then holds exactly the containers whose bound
    files could all be read, each with the paths it had: the entry of
    a container with a missing memory, CPU or block-I/O file is
    removed, and no entry is added. *)
Theorem Cstats_ReadStats_prunes
    (RF : string -> readResult) (Now : string -> Z) (order : list string)
    (st : gmap string Cstats.Cstats) :
  iterationOrder order st ->
  (forall k c, st !! k = Some c -> noOtherError RF (Cstats_paths c)) ->
  exists m,
    Cstats.ReadStats RF Now order (Some st) = (Returned (Some m) None, Some m)
    /\ forall k,
         match st !! k with
         | None => m !! k = None
         | Some c =>
             match firstFailure RF (Cstats_paths c) with
             | None => exists c', m !! k = Some c'
                                  /\ Cstats_paths c' = Cstats_paths c
             | Some _ => m !! k = None
             end
         end.
Proof.
  intros [_ Hord] Hclean. cbn [Cstats.ReadStats].
  destruct (rangeCmap_any RF Now order st) as (o & m & -> & Hframe & _ & Ho).
  destruct Ho as [[-> Hall] | (e & id & c & p & _ & _ & Hc & Hp & He & Hk)].
  2:{ rewrite (Hclean id c Hc p e Hp He) in Hk. discriminate Hk. }
  exists m. split; [reflexivity|]. intros k.
  destruct (st !! k) as [c|] eqn:Ek.
  - assert (Hin : In k order) by (apply Hord; eauto).
    specialize (Hall k c Hin Ek).
    destruct (firstFailure RF (Cstats_paths c)) as [e|].
    + apply Hall.
    + destruct Hall as [c' Hc']. exists c'. split; [assumption|].
      destruct (Hframe k c' Hc') as (c0 & Hc0 & Hp0). congruence.
  - destruct (m !! k) as [c'|] eqn:Em; [|reflexivity].
    destruct (Hframe k c' Em) as (c0 & Hc0 & _). congruence.
Qed.

Lemma Cstats_ReadStats_prunes_witness :
  exists m,
    Cstats.ReadStats sampleRF (fun _ => 7) ["a"; "c"] (Some cmapAC)
    = (Returned (Some m) None, Some m)
    /\ m !! "a" = None
    /\ exists c', m !! "c" = Some c'
                  /\ Cstats_paths c' = ["/c/memory.stat"; ""; ""; ""].
Proof.
  destruct (Cstats_ReadStats_prunes sampleRF (fun _ => 7) ["a"; "c"] cmapAC)
    as (m & Hr & Hm).
  - apply iterationOrder_two; [discriminate | now left].
  - exact noOtherError_cmapAC.
  - exists m. split; [exact Hr|]. split.
    + exact (Hm "a").
    + exact (Hm "c").
Defined.

Section StatsPassExtras.

Import Stats.

Variable RF : string -> readResult.
Variable Now : string -> Z.

(** A pass of [ReadStats] of [part_002] that returns the map has met no
    failing read; it leaves every key, with its paths. *)
Lemma rangeStats_returned order : forall st st' st'',
  rangeStats RF Now order st = (Returned (Some st') None, st'') ->
  st'' = st'
  /\ (forall k c, st !! k = Some c ->
        exists c', st' !! k = Some c' /\ Stats_paths c' = Stats_paths c)
  /\ (forall k, st !! k = None -> st' !! k = None)
  /\ (forall k c, In k order -> st !! k = Some c ->
        firstFailure RF (Stats_paths c) = None).
Proof.
  induction order as [|a order IH]; intros st st' st'' H.
  - cbn in H. injection H as <- <-. repeat split; eauto. intros k c [].
  - cbn [rangeStats] in H. destruct (st !! a) as [ca|] eqn:Ea.
    2:{ destruct (IH _ _ _ H) as (-> & Hkeep & Hnone & Hall).
        repeat split; try assumption.
        intros k c [<-|Hin] Hk; [congruence | eauto]. }
    pose proof (Stats_readContainer_leaves RF Now a ca st Ea) as Hspec.
    unfold leaves in Hspec.
    destruct (firstFailure RF (Stats_paths ca)) as [e|] eqn:Ef.
    { destruct (IsNotExist e); destruct Hspec as (st1 & Hr & _);
        rewrite Hr in H; discriminate H. }
    destruct Hspec as (cs' & st1 & Hr & Hpa & Hid1 & Hat). rewrite Hr in H.
    destruct (IH _ _ _ H) as (-> & Hkeep & Hnone & Hall).
    assert (Hfwd : forall k c, st !! k = Some c ->
              exists c1, st1 !! k = Some c1 /\ Stats_paths c1 = Stats_paths c).
    { intros k c Hk. destruct (decide (k = a)) as [->|Hne].
      - exists cs'. split; [assumption | congruence].
      - exists c. split; [now rewrite Hat | reflexivity]. }
    repeat split.
    + intros k c Hk. destruct (Hfwd k c Hk) as (c1 & Hc1 & Hp1).
      destruct (Hkeep k c1 Hc1) as (c' & Hc' & Hp'). exists c'.
      split; [assumption | congruence].
    + intros k Hk. apply Hnone. destruct (decide (k = a)) as [->|Hne];
        [congruence | now rewrite Hat].
    + intros k c [<-|Hin] Hk; [congruence|].
      destruct (Hfwd k c Hk) as (c1 & Hc1 & Hp1).
      rewrite <- Hp1. now apply (Hall k c1).
Qed.

End StatsPassExtras.

(** X17.  [ReadStats] of [part_002] returns the map only from a pass
    in which every read of a bound file succeeded.  The map it
    returns has the keys it had when the pass began, each with its
    paths: this revision never returns a map from which a container
    has been removed. *)
Theorem ReadStats_returns_unpruned
    (RF : string -> readResult) (Now : string -> Z) (order : list string)
    (st m : gmap string Stats.ContainerStats)
    (h' : option (gmap string Stats.ContainerStats)) :
  iterationOrder order st ->
  Stats.ReadStats RF Now order (Some st) = (Returned (Some m) None, h') ->
  h' = Some m
  /\ (forall k c, st !! k = Some c ->
        firstFailure RF (Stats_paths c) = None
        /\ exists c', m !! k = Some c' /\ Stats_paths c' = Stats_paths c)
  /\ (forall k, st !! k = None -> m !! k = None).
Proof.
  intros [_ Hord]. cbn [Stats.ReadStats].
  destruct (Stats.rangeStats RF Now order st) as [o st1] eqn:Hr.
  intros [= -> <-].
  destruct (rangeStats_returned RF Now order st m st1 Hr)
    as (-> & Hkeep & Hnone & Hall).
  split; [reflexivity|]. split; [|assumption].
  intros k c Hk. split; [|now apply Hkeep].
  apply (Hall k c); [|assumption]. apply Hord. eauto.
Qed.

Lemma ReadStats_returns_unpruned_witness :
  firstFailure sampleRF
    (Stats_paths (Stats.bind Stats.zeroStats "memory.stat" "/c/memory.stat"))
  = None.
Proof.
  destruct (ReadStats_returns_unpruned sampleRF (fun _ => 7) ["c"] statsC
              (Stats.rangeStats sampleRF (fun _ => 7) ["c"] statsC).2
              (Some (Stats.rangeStats sampleRF (fun _ => 7) ["c"] statsC).2))
    as (_ & H & _).
  - split.
    + repeat constructor. rewrite list_elem_of_In. cbn. tauto.
    + intros k. unfold statsC. rewrite lookup_insert_is_Some.
      pose proof (lookup_empty_is_Some (A := Stats.ContainerStats) k).
      cbn. intuition congruence.
  - vm_compute. reflexivity.
  - exact (proj1 (H "c" _ eq_refl)).
Defined.

(* ================================================================== *)
(** * Further properties of the discovery walk *)
(* ================================================================== *)

Section WalkExtras.

Variable FSM : string -> list string.

Lemma boundBy_incl vs vs' k base p :
  (forall v, In v vs -> In v vs') ->
  boundBy FSM vs k base p -> boundBy FSM vs' k base p.
Proof.
  intros Hincl [-> | (info & Hin & H)]; [now left | right].
  exists info. split; [now apply Hincl | exact H].
Qed.

(** *** [part_003] *)

Lemma Cstats_walkFn_no_error v st : (Cstats.walkFn FSM v st).1 = None.
Proof.
  unfold Cstats.walkFn. destruct v as [p info | p info e]; [|reflexivity].
  destruct (FSM p) as [|m0 [|id t]]; try reflexivity.
  destruct (IsDir info); destruct (st !! id); reflexivity.
Qed.

Lemma Cstats_Walk_cons v rest st :
  Cstats.Walk FSM (v :: rest) st
  = Cstats.Walk FSM rest (Cstats.walkFn FSM v st).2.
Proof.
  cbn [Cstats.Walk]. pose proof (Cstats_walkFn_no_error v st) as H.
  destruct (Cstats.walkFn FSM v st) as [[e|] st']; [discriminate H | reflexivity].
Qed.

Lemma Cstats_Walk_no_error visits : forall st,
  (Cstats.Walk FSM visits st).1 = None.
Proof.
  induction visits as [|v rest IH]; intros st; [reflexivity|].
  rewrite Cstats_Walk_cons. apply IH.
Qed.

Lemma Cstats_bind_unbind cs base p :
  Cstats_unbind (Cstats.bind cs base p) = Cstats_unbind cs.
Proof.
  unfold Cstats.bind.
  destruct (String.eqb base Cstats.memFile); [reflexivity|].
  destruct (String.eqb base Cstats.cPUFile); [reflexivity|].
  destruct (String.eqb base BlkIO.blkIOIOPSFile); [reflexivity|].
  destruct (String.eqb base BlkIO.blkIOBytesFile); reflexivity.
Qed.

Lemma Cstats_walkFn_keeps v st k c :
  st !! k = Some c ->
  exists c', (Cstats.walkFn FSM v st).2 !! k = Some c'
             /\ Cstats_unbind c' = Cstats_unbind c.
Proof.
  intros Hk. unfold Cstats.walkFn.
  destruct v as [p info | p info e]; [|eauto].
  destruct (FSM p) as [|m0 [|id t]]; [eauto | eauto |].
  destruct (IsDir info); destruct (st !! id) as [cs|] eqn:Eid; cbn [snd];
    [eauto | | | eauto].
  - exists c. split; [|reflexivity].
    rewrite lookup_insert_ne by congruence. assumption.
  - destruct (decide (k = id)) as [->|Hne].
    + rewrite lookup_insert_eq. eexists. split; [reflexivity|].
      rewrite Cstats_bind_unbind. congruence.
    + rewrite lookup_insert_ne by congruence. eauto.
Qed.

Lemma Cstats_Walk_keeps visits : forall st k c,
  st !! k = Some c ->
  exists c', (Cstats.Walk FSM visits st).2 !! k = Some c'
             /\ Cstats_unbind c' = Cstats_unbind c.
Proof.
  induction visits as [|v rest IH]; intros st k c Hk; [eauto|].
  rewrite Cstats_Walk_cons.
  destruct (Cstats_walkFn_keeps v st k c Hk) as (c1 & Hc1 & Hu1).
  destruct (IH _ k c1 Hc1) as (c' & Hc' & Hu'). exists c'.
  split; [assumption | congruence].
Qed.

Lemma Cstats_boundAll_incl vs vs' k c :
  (forall v, In v vs -> In v vs') ->
  Cstats_boundAll FSM vs k c -> Cstats_boundAll FSM vs' k c.
Proof.
  intros Hincl (H1 & H2 & H3 & H4).
  repeat split; eapply boundBy_incl; eassumption.
Qed.

Lemma Cstats_bind_bound vs p info id cs :
  In (Visit p info) vs -> IsDir info = false -> capture FSM p = Some id ->
  Cstats_boundAll FSM vs id cs ->
  Cstats_boundAll FSM vs id (Cstats.bind cs (Base (Name info)) p).
Proof.
  intros Hin Hd Hc (H1 & H2 & H3 & H4).
  assert (Hnew : forall base, Base (Name info) = base ->
                   boundBy FSM vs id base p).
  { intros base Hb. right. exists info. repeat split; assumption. }
  unfold Cstats.bind.
  destruct (String.eqb_spec (Base (Name info)) Cstats.memFile) as [E|_].
  { repeat split; try assumption. now apply Hnew. }
  destruct (String.eqb_spec (Base (Name info)) Cstats.cPUFile) as [E|_].
  { repeat split; try assumption. now apply Hnew. }
  destruct (String.eqb_spec (Base (Name info)) BlkIO.blkIOIOPSFile) as [E|_].
  { repeat split; try assumption. now apply Hnew. }
  destruct (String.eqb_spec (Base (Name info)) BlkIO.blkIOBytesFile) as [E|_].
  { repeat split; try assumption. now apply Hnew. }
  repeat split; assumption.
Qed.

Lemma Cstats_walkFn_bound pre v st :
  (forall k c, st !! k = Some c -> Cstats_boundAll FSM pre k c) ->
  forall k c, (Cstats.walkFn FSM v st).2 !! k = Some c ->
              Cstats_boundAll FSM (pre ++ [v]) k c.
Proof.
  intros Hinv.
  assert (Hold : forall k c, st !! k = Some c ->
                   Cstats_boundAll FSM (pre ++ [v]) k c).
  { intros k c Hk. apply (Cstats_boundAll_incl pre); [|now apply Hinv].
    intros x Hx. apply in_or_app. now left. }
  unfold Cstats.walkFn. destruct v as [p info | p info e]; [|exact Hold].
  destruct (FSM p) as [|m0 [|id t]] eqn:EF; [exact Hold | exact Hold |].
  destruct (IsDir info) eqn:Ed; destruct (st !! id) as [cs|] eqn:Eid; cbn [snd];
    [exact Hold | | | exact Hold].
  - intros k c. destruct (decide (k = id)) as [->|Hne].
    + rewrite lookup_insert_eq. intros [= <-]. repeat split; now left.
    + rewrite lookup_insert_ne by congruence. apply Hold.
  - intros k c. destruct (decide (k = id)) as [->|Hne].
    + rewrite lookup_insert_eq. intros [= <-].
      apply Cstats_bind_bound.
      * apply in_or_app. right. now left.
      * assumption.
      * unfold capture. now rewrite EF.
      * now apply Hold.
    + rewrite lookup_insert_ne by congruence. apply Hold.
Qed.

Lemma Cstats_Walk_bound visits : forall pre st,
  (forall k c, st !! k = Some c -> Cstats_boundAll FSM pre k c) ->
  forall k c, (Cstats.Walk FSM visits st).2 !! k = Some c ->
              Cstats_boundAll FSM (pre ++ visits) k c.
Proof.
  induction visits as [|v rest IH]; intros pre st Hinv k c.
  - rewrite app_nil_r. apply Hinv.
  - rewrite Cstats_Walk_cons.
    replace (pre ++ v :: rest)%list with ((pre ++ [v]) ++ rest)%list
      by (rewrite <- app_assoc; reflexivity).
    apply IH. now apply Cstats_walkFn_bound.
Qed.

(** *** [gocstat.go] *)

Variable MemFile CPUFile : string.

Lemma Cgroups_walkFn_keeps v st k c :
  st !! k = Some c ->
  exists c', (Cgroups.walkFn FSM MemFile CPUFile v st).2 !! k = Some c'
             /\ Cgroups_unbind c' = Cgroups_unbind c.
Proof.
  intros Hk. unfold Cgroups.walkFn.
  destruct v as [p info | p info e]; [|eauto].
  destruct (FSM p) as [|m0 [|id t]]; [eauto | eauto |].
  destruct (IsDir info); destruct (st !! id) as [cs|] eqn:Eid; cbn [snd];
    [eauto | | | eauto].
  - exists c. split; [|reflexivity].
    rewrite lookup_insert_ne by congruence. assumption.
  - destruct (decide (k = id)) as [->|Hne].
    + rewrite lookup_insert_eq. eexists. split; [reflexivity|].
      assert (c = cs) as -> by congruence.
      destruct (String.eqb (Base (Name info)) MemFile);
        destruct (String.eqb (Base (Name info)) CPUFile); reflexivity.
    + rewrite lookup_insert_ne by congruence. eauto.
Qed.

Lemma Cgroups_Walk_keeps visits : forall st k c,
  st !! k = Some c ->
  exists c', (Cgroups.Walk FSM MemFile CPUFile visits st).2 !! k = Some c'
             /\ Cgroups_unbind c' = Cgroups_unbind c.
Proof.
  induction visits as [|v rest IH]; intros st k c Hk; [eauto|].
  cbn [Cgroups.Walk].
  destruct (Cgroups_walkFn_keeps v st k c Hk) as (c1 & Hc1 & Hu1).
  destruct (Cgroups.walkFn FSM MemFile CPUFile v st) as [[e|] st1]; cbn [snd] in *.
  - eauto.
  - destruct (IH st1 k c1 Hc1) as (c' & Hc' & Hu'). exists c'.
    split; [assumption | congruence].
Qed.

Lemma Cgroups_boundAll_incl vs vs' k c :
  (forall v, In v vs -> In v vs') ->
  Cgroups_boundAll FSM MemFile CPUFile vs k c ->
  Cgroups_boundAll FSM MemFile CPUFile vs' k c.
Proof.
  intros Hincl (H1 & H2). split; eapply boundBy_incl; eassumption.
Qed.

Lemma Cgroups_walkFn_bound pre v st :
  (forall k c, st !! k = Some c -> Cgroups_boundAll FSM MemFile CPUFile pre k c) ->
  forall k c, (Cgroups.walkFn FSM MemFile CPUFile v st).2 !! k = Some c ->
              Cgroups_boundAll FSM MemFile CPUFile (pre ++ [v]) k c.
Proof.
  intros Hinv.
  assert (Hold : forall k c, st !! k = Some c ->
                   Cgroups_boundAll FSM MemFile CPUFile (pre ++ [v]) k c).
  { intros k c Hk. apply (Cgroups_boundAll_incl pre); [|now apply Hinv].
    intros x Hx. apply in_or_app. now left. }
  unfold Cgroups.walkFn. destruct v as [p info | p info e]; [|exact Hold].
  destruct (FSM p) as [|m0 [|id t]] eqn:EF; [exact Hold | exact Hold |].
  destruct (IsDir info) eqn:Ed; destruct (st !! id) as [cs|] eqn:Eid; cbn [snd];
    [exact Hold | | | exact Hold].
  - intros k c. destruct (decide (k = id)) as [->|Hne].
    + rewrite lookup_insert_eq. intros [= <-]. split; now left.
    + rewrite lookup_insert_ne by congruence. apply Hold.
  - intros k c. destruct (decide (k = id)) as [->|Hne].
    + rewrite lookup_insert_eq. intros [= <-].
      destruct (Hold id cs Eid) as [H1 H2].
      assert (Hnew : forall base, Base (Name info) = base ->
                boundBy FSM (pre ++ [Visit p info]) id base p).
      { intros base Hb. right. exists info.
        split; [apply in_or_app; right; now left|].
        split; [assumption|]. split; [|assumption].
        unfold capture. now rewrite EF. }
      destruct (String.eqb_spec (Base (Name info)) MemFile) as [E1|_];
        destruct (String.eqb_spec (Base (Name info)) CPUFile) as [E2|_];
        split; cbn; auto.
    + rewrite lookup_insert_ne by congruence. apply Hold.
Qed.

Lemma Cgroups_Walk_bound visits : forall pre st,
  (forall k c, st !! k = Some c -> Cgroups_boundAll FSM MemFile CPUFile pre k c) ->
  forall k c, (Cgroups.Walk FSM MemFile CPUFile visits st).2 !! k = Some c ->
              Cgroups_boundAll FSM MemFile CPUFile (pre ++ visits) k c.
Proof.
  induction visits as [|v rest IH]; intros pre st Hinv k c.
  - rewrite app_nil_r. apply Hinv.
  - cbn [Cgroups.Walk].
    pose proof (Cgroups_walkFn_bound pre v st Hinv) as Hstep.
    replace (pre ++ v :: rest)%list with ((pre ++ [v]) ++ rest)%list
      by (rewrite <- app_assoc; reflexivity).
    destruct (Cgroups.walkFn FSM MemFile CPUFile v st) as [[e|] st1];
      cbn [snd] in *.
    + intros Hk. apply (Cgroups_boundAll_incl (pre ++ [v])); [|now apply Hstep].
      intros x Hx. apply in_or_app. now left.
    + now apply IH.
Qed.

End WalkExtras.

(** X18.  [updatePaths] of [part_003] never returns an error, whatever
    the map holds and whatever the walk meets, and the walk takes no
    statistics away: every entry that the map had is still there
    afterwards, and but for its four paths it is as it was. *)
Theorem Cstats_updatePaths_keeps
    (FSM : string -> list string) (ErrorString : error -> string)
    (path : string) (visits : list visit) (st : gmap string Cstats.Cstats) :
  (Cstats.updatePaths FSM ErrorString path visits st).1 = None
  /\ forall k c,
       st !! k = Some c ->
       exists c',
         (Cstats.updatePaths FSM ErrorString path visits st).2 !! k = Some c'
         /\ Cstats_unbind c' = Cstats_unbind c.
Proof.
  unfold Cstats.updatePaths.
  pose proof (Cstats_Walk_no_error FSM visits st) as Hne.
  pose proof (Cstats_Walk_keeps FSM visits st) as Hkeep.
  destruct (Cstats.Walk FSM visits st) as [[e|] st']; [discriminate Hne|].
  split; [reflexivity | exact Hkeep].
Qed.

Lemma Cstats_updatePaths_keeps_witness :
  (Cstats.updatePaths sampleFSM (fun _ => "") "/sys/fs/cgroup" sampleVisits ∅).1
  = None
  /\ exists c',
       (Cstats.updatePaths sampleFSM (fun _ => "") "/sys/fs/cgroup"
          sampleVisits cmapAC).2 !! "a" = Some c'
       /\ Cstats_unbind c' = Cstats_unbind Cstats.zeroCstats.
Proof.
  split.
  - exact (proj1 (Cstats_updatePaths_keeps sampleFSM (fun _ => "")
                    "/sys/fs/cgroup" sampleVisits ∅)).
  - exact (proj2 (Cstats_updatePaths_keeps sampleFSM (fun _ => "")
                    "/sys/fs/cgroup" sampleVisits cmapAC) "a"
             (Cstats.bind Cstats.zeroCstats "memory.stat" "/a/memory.stat")
             eq_refl).
Defined.

(** X19.  The walk of [gocstat.go] takes no statistics away either,
    also when it stops at an error: every entry that the map had is
    still there afterwards, and but for its two paths it is as it was. *)
Theorem Cgroups_Walk_keeps_entries
    (FSM : string -> list string) (MemFile CPUFile : string)
    (visits : list visit) (st : gmap string Cgroups.ContainerStat)
    (k : string) (c : Cgroups.ContainerStat) :
  st !! k = Some c ->
  exists c', (Cgroups.Walk FSM MemFile CPUFile visits st).2 !! k = Some c'
             /\ Cgroups_unbind c' = Cgroups_unbind c.
Proof. apply Cgroups_Walk_keeps. Qed.

Lemma Cgroups_Walk_keeps_entries_witness :
  exists c',
    (Cgroups.Walk sampleFSM "memory.stat" "cpuacct.stat" sampleVisits
       (<["a" := entryCRead]> ∅)).2 !! "a" = Some c'
    /\ Cgroups_unbind c' = Cgroups_unbind entryCRead.
Proof.
  exact (Cgroups_Walk_keeps_entries sampleFSM "memory.stat" "cpuacct.stat"
           sampleVisits (<["a" := entryCRead]> ∅) "a" entryCRead eq_refl).
Defined.

(** X20.  After a walk of [part_003] that began with the empty map,
    every bound path of every entry is the path of a regular file that
    the walk visited, whose path captures the key of the entry, and
    whose base name is that of the metric: [memory.stat] for
    [Memory.path], [cpuacct.stat] for [CPU.path], [blkIOIOPSFile] for
    [BlkIO.Bytes.path] and [blkIOBytesFile] for [BlkIO.IOPS.path]. *)
Theorem Cstats_Walk_bound_paths
    (FSM : string -> list string) (visits : list visit)
    (k : string) (c : Cstats.Cstats) :
  (Cstats.Walk FSM visits ∅).2 !! k = Some c ->
  Cstats_boundAll FSM visits k c.
Proof.
  intros H. apply (Cstats_Walk_bound FSM visits [] ∅); [|exact H].
  intros k' c' Hk'. rewrite lookup_empty in Hk'. discriminate Hk'.
Qed.

Lemma Cstats_Walk_bound_paths_witness :
  Cstats_boundAll sampleFSM sampleVisits "a"
    (Cstats.bind
       (Cstats.bind Cstats.zeroCstats "memory.stat" "/docker-a.scope/memory.stat")
       "blkio.throttle.io_serviced"
       "/docker-a.scope/blkio.throttle.io_serviced").
Proof.
  apply (Cstats_Walk_bound_paths sampleFSM sampleVisits "a").
  vm_compute. reflexivity.
Defined.

(** X21.  After a walk of [gocstat.go] that began with the empty map,
    ended or stopped at an error, every bound path of every entry is
    the path of a regular file that the walk visited, whose path
    captures the key of the entry, and whose base name is [MemFile]
    for [Memory.path] and [CPUFile] for [CPU.path]. *)
Theorem Cgroups_Walk_bound_paths
    (FSM : string -> list string) (MemFile CPUFile : string)
    (visits : list visit) (k : string) (c : Cgroups.ContainerStat) :
  (Cgroups.Walk FSM MemFile CPUFile visits ∅).2 !! k = Some c ->
  Cgroups_boundAll FSM MemFile CPUFile visits k c.
Proof.
  intros H.
  apply (Cgroups_Walk_bound FSM MemFile CPUFile visits [] ∅); [|exact H].
  intros k' c' Hk'. rewrite lookup_empty in Hk'. discriminate Hk'.
Qed.

Lemma Cgroups_Walk_bound_paths_witness :
  Cgroups_boundAll sampleFSM "memory.stat" "cpuacct.stat" sampleVisits "a"
    (entryAt "/docker-a.scope/memory.stat").
Proof.
  apply (Cgroups_Walk_bound_paths sampleFSM "memory.stat" "cpuacct.stat"
           sampleVisits "a").
  vm_compute. reflexivity.
Defined.

(* ================================================================== *)
(** * Further properties of the parser of [part_005] *)
(* ================================================================== *)

Section BlkIO0Extras.

Import BlkIO0.

(** [strings.Split] gives at least one part. *)
Lemma Split_length s sep : (1 <= length (Split s sep))%nat.
Proof.
  unfold Split. generalize EmptyString.
  induction s as [|c t IH]; intros cur; cbn [splitLoop]; [cbn; lia|].
  destruct (Ascii.eqb c sep); [cbn; lia | apply IH].
Qed.

Lemma BlkIO0_createLine_total b line : exists b', createLine b line = Some b'.
Proof.
  unfold createLine.
  destruct (length (Fields line) =? 3)%nat eqn:E3; cbn [negb]; [|eauto].
  apply Nat.eqb_eq in E3.
  destruct (index_lt (Fields line) 0) as [d ->]; [lia|].
  destruct (index_lt (Fields line) 1) as [op ->]; [lia|].
  destruct (index_lt (Fields line) 2) as [u ->]; [lia|].
  cbn [mbind option_bind].
  pose proof (Split_length d colon) as Hlen.
  destruct (index_lt (Split d colon) 0) as [d0 ->]; [lia|].
  cbn [mbind option_bind].
  destruct (length (Split d colon) =? 2)%nat eqn:E2; [|cbn; eauto].
  apply Nat.eqb_eq in E2.
  destruct (index_lt (Split d colon) 1) as [d1 ->]; [lia|].
  cbn. eauto.
Qed.

Lemma BlkIO0_createLines_total lines : forall b,
  exists b', createLines b lines = Some b'.
Proof.
  induction lines as [|l r IH]; intros b; cbn [createLines]; [eauto|].
  destruct (BlkIO0_createLine_total b l) as [b1 ->]. cbn. apply IH.
Qed.

End BlkIO0Extras.

(** X23.  [BlkDevice.create] of [part_005] returns for every content
    and every record: none of its index expressions, [device[0]]
    among them, goes out of range. *)
Theorem BlkIO0_BlkDevice_create_returns (b : BlkIO0.BlkDevice) (content : string) :
  exists b', BlkIO0.BlkDevice_create b content = Some b'.
Proof. unfold BlkIO0.BlkDevice_create. apply BlkIO0_createLines_total. Qed.

(** X24.  In [part_005] a row whose identifier has no colon sets
    [Major] to what [Atoi] makes of the whole identifier, 0 when it is
    no number, leaves [Minor], and sets its counter as usual. *)
Theorem BlkIO0_createLine_no_colon (b : BlkIO0.BlkDevice) (d op v : string) :
  word d = true -> word op = true -> word v = true -> noColon d = true ->
  BlkIO0.createLine b (row d op v)
  = Some (BlkIO0.setCounter (BlkIO0.setMajor b (Atoi d).1) op (ParseUint v).1).
Proof.
  intros Hd Hop Hv Hc. unfold BlkIO0.createLine. cbv zeta.
  rewrite (Fields_row d op v Hd Hop Hv).
  cbn [length Nat.eqb negb index nth_error mbind option_bind].
  rewrite (Split_noColon d Hc). reflexivity.
Qed.

Lemma BlkIO0_createLine_no_colon_witness :
  BlkIO0.createLine BlkIO0.zeroDevice "253 Write 7"
  = Some {| BlkIO0.Major := 253; BlkIO0.Minor := 0; BlkIO0.Read := 0;
            BlkIO0.Write := 7; BlkIO0.Sync := 0; BlkIO0.Async := 0 |}.
Proof.
  exact (BlkIO0_createLine_no_colon BlkIO0.zeroDevice "253" "Write" "7"
           eq_refl eq_refl eq_refl eq_refl).
Defined.
